(** * The browser agent's control loops

    A shallow embedding of [packages/core/src/agents/browser/browserAgent.ts]:
    the orchestrator loop [runTask] and the visual delegate sub-loop
    [runVisualDelegate], with the properties their specification states.

    The browser driver, the model client and the caller's abort signal are
    external.  They are given as a script [Env]: what each awaited call
    settles to, and the instant at which the caller aborts.  Quantifying over
    every script covers every behaviour of the collaborators; in one run a
    collaborator that adapts to its requests still produces one sequence of
    answers.  Every awaited call settles and every model stream is finite:
    a call that hangs for ever is outside this development.

    The arguments of a function call are JSON values of any type, whatever
    the declaration of the tool says; numbers are binary64 values, and the
    way the host prints them is part of the script. *)

From Stdlib Require Import PrimFloat.
From Stdlib Require Import String Ascii List Bool Arith Lia ZArith DecimalString.
Import ListNotations.
Open Scope string_scope.
Open Scope list_scope.

Set Implicit Arguments.
Set Warnings "-register-all".

(** ** JavaScript values and strings *)

Notation "a ^^ b" := (String.append a b) (at level 60, right associativity).

(** The line feed written [\n] in the source. *)
Definition LF : string := String (ascii_of_nat 10) EmptyString.

(** The double quote. *)
Definition DQ : string := String (ascii_of_nat 34) EmptyString.

(** [Array.prototype.join]. *)
Definition join (sep : string) (l : list string) : string := String.concat sep l.

(** [String.prototype.includes]. *)
Fixpoint includes (needle hay : string) : bool :=
  if String.prefix needle hay then true
  else match hay with
       | EmptyString => false
       | String _ rest => includes needle rest
       end.

(** The argument values of a function call, as JSON gives them: any JSON
    value, whatever the declared type of the parameter.  A number is the
    binary64 value JavaScript holds. *)
Inductive JsVal :=
| JNull
| JStr (s : string)
| JNum (n : float)
| JBool (b : bool)
| JArr (items : list JsVal)
| JObj (fields : list (string * JsVal)).

(** A string where a value is expected is that string as a value. *)
Coercion JStr : string >-> JsVal.

Definition string_of_nat (n : nat) : string :=
  NilZero.string_of_uint (Nat.to_uint n).

(** [String(v)], as a template literal applies it.  [numberToString] is the
    host's Number::toString, which is left to the host: it is given with the
    collaborators.  In an array, [null] gives the empty string. *)
Fixpoint js_String (numberToString : float -> string) (v : JsVal) : string :=
  match v with
  | JNull => "null"
  | JStr s => s
  | JNum n => numberToString n
  | JBool b => if b then "true" else "false"
  | JArr items =>
    join "," (map (fun item => match item with
                               | JNull => ""
                               | _ => js_String numberToString item
                               end) items)
  | JObj _ => "[object Object]"
  end.

(** Truthiness of a value: [null], [''], [0], [-0], [NaN] and [false] are
    falsy. *)
Definition truthy (v : JsVal) : bool :=
  match v with
  | JNull => false
  | JStr s => negb (s =? "")
  | JNum n => negb (PrimFloat.eqb n 0%float) && negb (PrimFloat.is_nan n)
  | JBool b => b
  | JArr _ | JObj _ => true
  end.

(** An object used as a record of arguments: its own properties in the
    order [Object.keys] gives them, every key once.  [None] stands for
    [undefined]. *)
Definition Args := list (string * JsVal).

Fixpoint lookup (k : string) (a : Args) : option JsVal :=
  match a with
  | [] => None
  | (k', v) :: rest => if k' =? k then Some v else lookup k rest
  end.

(** [x || d] on an optional string: [undefined] and [''] are both falsy. *)
Definition or_else (x : option string) (d : string) : string :=
  match x with
  | Some s => if s =? "" then d else s
  | None => d
  end.

(** [x || d] on a value read from an object.  Where the source writes
    [(fnArgs[k] as string) || d] the cast checks nothing: a truthy value of
    any type is kept as it is. *)
Definition or_value (x : option JsVal) (d : JsVal) : JsVal :=
  match x with
  | Some v => if truthy v then v else d
  | None => d
  end.

(** What a [catch] clause receives: an [Error] with its message, or any
    other thrown value with its [String(e)]. *)
Inductive Thrown :=
| ErrorObj (message : string)
| NonError (str : string).

(** [e instanceof Error ? e.message : String(e)]. *)
Definition errorText (e : Thrown) : string :=
  match e with
  | ErrorObj m => m
  | NonError s => s
  end.

(** ** The data model: calls, responses, parts *)

Record FunctionCall := {
  fc_name : option string;
  fc_args : option Args
}.

(** [call.args || {}]. *)
Definition argsOf (call : FunctionCall) : Args :=
  match fc_args call with
  | Some a => a
  | None => []
  end.

(** [{ output?, error? }], the result object of a browser tool. *)
Record ToolResult := {
  output : option string;
  error : option string
}.

(** The [response] field of a function response. *)
Inductive ResponseBody :=
| TextContent (text : JsVal)
    (* { content: [{ type: 'text', text }] }: text is a string, but for the
       summary of a completion, which is the value the call gave *)
| DelegateContent (delegateOutput : string)
    (* the same wrapper around the delegate's { output } object *)
| ResultObject (r : ToolResult).
    (* the visual loop: the tool's result object, or { error } *)

Record FunctionResponse := {
  fr_name : option string;
  fr_response : ResponseBody
}.

Record Part := {
  p_text : option string;
  p_thought : bool;
  p_inlineData : option (string * string);   (* mimeType, data *)
  p_functionCall : option FunctionCall;
  p_functionResponse : option FunctionResponse
}.

Definition textPart (s : string) : Part :=
  {| p_text := Some s; p_thought := false; p_inlineData := None;
     p_functionCall := None; p_functionResponse := None |}.

Definition imagePart (data : string) : Part :=
  {| p_text := None; p_thought := false;
     p_inlineData := Some ("image/png", data);
     p_functionCall := None; p_functionResponse := None |}.

Definition responsePart (n : option string) (body : ResponseBody) : Part :=
  {| p_text := None; p_thought := false; p_inlineData := None;
     p_functionCall := None;
     p_functionResponse := Some {| fr_name := n; fr_response := body |} |}.

Definition callPart (c : FunctionCall) : Part :=
  {| p_text := None; p_thought := false; p_inlineData := None;
     p_functionCall := Some c; p_functionResponse := None |}.

Record Content := {
  role : option string;
  parts : option (list Part)
}.

(** One chunk of the model stream: [candidates?.[0]?.content?.parts] and
    [functionCalls]. *)
Record Chunk := {
  ch_parts : option (list Part);
  ch_functionCalls : option (list FunctionCall)
}.

Inductive StreamEvent :=
| CHUNK (value : Chunk)
| OtherEvent.

(** A model stream: the events it yields, then its end, normal or thrown. *)
Record Stream := {
  events : list StreamEvent;
  failure : option Thrown
}.

(** One item of the content of an MCP result, [{ type, text? }].  Of the
    type only the comparison with ['text'] is observed.  The text is
    whatever value the driver put there. *)
Record McpContent := {
  c_type : string;
  c_text : option JsVal
}.

(** The [content] field of the result of an MCP [callTool]: missing
    ([undefined] or [null]), an array of items, or anything else. *)
Inductive McpContentField :=
| ContentMissing
| ContentItems (items : list McpContent)
| ContentOther.

(** The result of an MCP [callTool].  A result that is itself [undefined]
    or [null] is read as one without content: the two places that read a
    result treat both alike. *)
Record McpResult := {
  content : McpContentField
}.

(** The methods of [BrowserTools] the two loops call by name. *)
Inductive Method :=
| navigate | click | hover | fill | fillForm | uploadFile | getElementText
| waitFor | handleDialog | evaluateScript | pressKey | drag | closePage
| takeSnapshot | scrollDocument | clickAt | typeTextAt | dragAndDrop.

(** ** The collaborators *)

Inductive Outcome (A : Type) :=
| Ok (a : A)
| Throw (e : Thrown).
Arguments Ok {A} & a.
Arguments Throw {A} e.

(** A script of the collaborators.  Driver calls are indexed by the clock,
    which counts the awaits so far; the two model calls by their ordinal. *)
Record Env := {
  (* signal.aborted becomes true once the clock reaches this instant *)
  abort_at : option nat;
  (* BrowserManager *)
  ensureConnection : nat -> Outcome unit;
  getMcpClient : nat -> Outcome unit;
  getPage : nat -> Outcome unit;
  (* McpClient *)
  callTool : nat -> string -> Args -> Outcome McpResult;
  (* Page *)
  bringToFront : nat -> Outcome unit;
  screenshot : nat -> Outcome string;          (* base64 of the buffer *)
  (* BrowserTools *)
  updateBorderOverlay : nat -> bool -> Outcome unit;   (* capturing *)
  browserTools : nat -> Method -> list (option JsVal) -> Outcome ToolResult;
  legacyMethod : nat -> string -> list JsVal -> Outcome (option ToolResult);
  (* GeminiChat.sendMessageStream, ContentGenerator.generateContent *)
  sendMessageStream : nat -> list Part -> Outcome Stream;
  generateContent : nat -> list Content -> Outcome (option Content);
  (* pure helpers of the host: Number::toString, parseThought(...).subject,
     JSON.stringify *)
  numberToString : float -> string;
  parseThought : string -> string;
  stringifyArgs : Args -> string;
  stringifyResult : ToolResult -> string
}.

(** What the collaborators saw, in order. *)
Inductive Event :=
| EvEnsureConnection
| EvUpdateBorderOverlay (capturing : bool)
| EvGetMcpClient
| EvCallTool (tool : string) (a : Args)
| EvGetPage
| EvBringToFront
| EvScreenshot
| EvBrowserTools (m : Method) (a : list (option JsVal))
| EvLegacyMethod (fnName : string) (a : list JsVal)
| EvSendMessageStream (messageParts : list Part)
| EvGenerateContent (contents : list Content).

(** ** State and effects *)

Record St := {
  clock : nat;                 (* awaits so far *)
  streams : nat;               (* sendMessageStream calls so far *)
  gens : nat;                  (* generateContent calls so far *)
  trace : list Event;          (* calls issued, oldest first *)
  printed : list string        (* what printOutput received, oldest first *)
}.

(** The state in which a run starts. *)
Definition st0 : St :=
  {| clock := 0; streams := 0; gens := 0; trace := []; printed := [] |}.

(** Computations: they may throw, and they advance the state. *)
Definition M (A : Type) : Type := St -> Outcome A * St.

Definition ret {A} (a : A) : M A := fun st => (Ok a, st).

Definition bind {A B} (m : M A) (f : A -> M B) : M B :=
  fun st => match m st with
            | (Ok a, st') => f a st'
            | (Throw e, st') => (Throw e, st')
            end.

Definition throw {A} (e : Thrown) : M A := fun st => (Throw e, st).

(** [try { m } catch (e) { h e }]. *)
Definition tryCatch {A} (m : M A) (h : Thrown -> M A) : M A :=
  fun st => match m st with
            | (Ok a, st') => (Ok a, st')
            | (Throw e, st') => h e st'
            end.

Declare Scope agent_scope.
Delimit Scope agent_scope with agent.
Notation "x <- m ;; k" := (bind m (fun x => k))
  (at level 100, m at next level, right associativity) : agent_scope.
Notation "m ;; k" := (bind m (fun _ => k))
  (at level 100, right associativity) : agent_scope.
Open Scope agent_scope.

(** One call issued and awaited. *)
Definition ticked (ev : Event) (st : St) : St :=
  {| clock := S (clock st); streams := streams st; gens := gens st;
     trace := trace st ++ [ev]; printed := printed st |}.

(** [await] of a driver call: the call is issued, the clock advances, the
    script tells how it settles. *)
Definition await {A} (ev : Event) (script : nat -> Outcome A) : M A :=
  fun st => (script (clock st), ticked ev st).

(** The next item of a [for await]: one more suspension, no call issued. *)
Definition awaitNext : M unit :=
  fun st => (Ok tt,
             {| clock := S (clock st); streams := streams st; gens := gens st;
                trace := trace st; printed := printed st |}).

(** One more call of the orchestrator's model, of the visual model. *)
Definition countStream (st : St) : St :=
  {| clock := clock st; streams := S (streams st); gens := gens st;
     trace := trace st; printed := printed st |}.

Definition countGen (st : St) : St :=
  {| clock := clock st; streams := streams st; gens := S (gens st);
     trace := trace st; printed := printed st |}.

(** [debugLogger.log]: the debug log is not observed here. *)
Definition debugLog (msg : string) : M unit := ret tt.

Section Agent.

Variable env : Env.
(** Whether the caller passed a [printOutput] callback. *)
Variable hasPrintOutput : bool.

(** [signal.aborted] at instant [t]; once true it stays true. *)
Definition abortedAt (t : nat) : bool :=
  match abort_at env with
  | Some n => (n <=? t)%nat
  | None => false
  end.

(** Reading [signal.aborted]. *)
Definition signalAborted : M bool :=
  fun st => (Ok (abortedAt (clock st)), st).

(** The callback receives a line. *)
Definition emit (msg : string) : M unit :=
  fun st => (Ok tt,
             {| clock := clock st; streams := streams st; gens := gens st;
                trace := trace st; printed := printed st ++ [msg] |}).

(** [if (printOutput) printOutput(msg)].  The callback only observes: it
    returns normally and leaves the signal alone. *)
Definition printOutput (msg : string) : M unit :=
  if hasPrintOutput then emit msg else ret tt.

(** The one cancellation notice of the source. *)
Definition cancelNotice : string := "⚠️  Browser task cancelled".

(** ** captureScreenshot *)

(** The whole body sits in one [try]; a failure gives the empty string. *)
Definition captureScreenshot : M string :=
  tryCatch
    (await EvGetPage (getPage env) ;;
     await EvBringToFront (bringToFront env) ;;
     await (EvUpdateBorderOverlay true)
           (fun t => updateBorderOverlay env t true) ;;
     screenshotBase64 <- await EvScreenshot (screenshot env) ;;
     await (EvUpdateBorderOverlay false)
           (fun t => updateBorderOverlay env t false) ;;
     ret screenshotBase64)
    (fun _ => ret "").

(** ** runVisualDelegate *)

Definition VISUAL_MAX_STEPS : nat := 5.

Definition visualSystemInstruction (instruction : JsVal) : string :=
  "You are a Visual Delegate Agent. You have been delegated a specific task: "
  ^^ DQ ^^ js_String (numberToString env) instruction ^^ DQ ^^ "." ^^ LF ^^
  "You have access to valid screenshot of the current state." ^^ LF ^^
  "You MUST perform the necessary actions (click_at, type_text_at, drag_and_drop, scroll_document) to fulfill the instruction."
  ^^ LF ^^
  "If the element is not visible, use scroll_document to find it." ^^ LF ^^
  "Return a concise summary of your actions when done." ^^ LF.

(** [response.parts?.filter((p) => 'functionCall' in p) || []], as calls. *)
Definition functionCallsOf (response : Content) : list FunctionCall :=
  match parts response with
  | Some ps => flat_map (fun p => match p_functionCall p with
                                  | Some c => [c]
                                  | None => []
                                  end) ps
  | None => []
  end.

(** [`${call.name}`]. *)
Definition nameText (c : FunctionCall) : string :=
  match fc_name c with
  | Some n => n
  | None => "undefined"
  end.

(** The [switch] of the visual loop: the method behind a tool name and the
    argument keys it reads, in order. *)
Definition visualHandler (n : option string) : option (Method * list string) :=
  match n with
  | None => None
  | Some n =>
    if n =? "click_at" then Some (clickAt, ["x"; "y"])
    else if n =? "type_text_at" then
      Some (typeTextAt, ["x"; "y"; "text"; "press_enter"; "clear_before_typing"])
    else if n =? "drag_and_drop" then
      Some (dragAndDrop, ["x"; "y"; "dest_x"; "dest_y"])
    else if n =? "press_key" then Some (pressKey, ["key"])
    else if n =? "scroll_document" then
      Some (scrollDocument, ["direction"; "amount"])
    else None
  end.

(** The TypeError of [call.args!['k']] when [args] is undefined. *)
Definition undefinedRead (k : string) : Thrown :=
  ErrorObj ("Cannot read properties of undefined (reading '" ^^ k ^^ "')").

Definition errorResult (msg : string) : ToolResult :=
  {| output := None; error := Some msg |}.

(** One visual action: the [try { switch } catch] giving [funcResult]. *)
Definition visualDispatch (call : FunctionCall) : M ToolResult :=
  tryCatch
    (match visualHandler (fc_name call) with
     | Some (m, keys) =>
       match fc_args call with
       | Some a =>
         let actuals := map (fun k => lookup k a) keys in
         await (EvBrowserTools m actuals)
               (fun t => browserTools env t m actuals)
       | None => throw (undefinedRead (hd "" keys))
       end
     | None => ret (errorResult ("Unknown visual tool: " ^^ nameText call))
     end)
    (fun e => ret (errorResult (errorText e))).

(** The line pushed on [actionHistory] for one action. *)
Definition historyEntry (call : FunctionCall) (funcResult : ToolResult)
  : string :=
  let a := argsOf call in
  "- " ^^ nameText call ^^ "("
  ^^ join ", " (map (fun k => k ^^ "=" ^^ match lookup k a with
                                          | Some v =>
                                            js_String (numberToString env) v
                                          | None => "undefined"
                                          end) (map fst a))
  ^^ ") => " ^^ stringifyResult env funcResult.

(** [for (const part of functionCalls)]: responses and history grow in
    step. *)
Fixpoint visualActions (calls : list FunctionCall)
    (functionResponses : list Part) (actionHistory : list string)
  : M (list Part * list string) :=
  match calls with
  | [] => ret (functionResponses, actionHistory)
  | call :: rest =>
    funcResult <- visualDispatch call ;;
    visualActions rest
      (functionResponses ++ [responsePart (fc_name call) (ResultObject funcResult)])
      (actionHistory ++ [historyEntry call funcResult])
  end.

(** Invalidate the MCP cache; failures are ignored. *)
Definition invalidateCache : M unit :=
  let a := [("function", JStr "() => { return true; }")] in
  tryCatch
    (await EvGetMcpClient (getMcpClient env) ;;
     await (EvCallTool "evaluate_script" a)
           (fun t => callTool env t "evaluate_script" a) ;;
     ret tt)
    (fun _ => ret tt).

(** The progress lines of one visual turn. *)
Definition visualLog (i : nat) (response : Content) : M unit :=
  let ps := match parts response with Some ps => ps | None => [] end in
  let textResponse :=
    join "" (flat_map (fun p => match p_text p with
                                | Some t => if t =? "" then [] else [t]
                                | None => []
                                end) ps) in
  let thinking :=
    if textResponse =? "" then [] else ["  💭 " ^^ textResponse] in
  let vFunctionCalls := functionCallsOf response in
  let toolInfo :=
    join LF (map (fun call =>
                    let argsStr :=
                      match fc_args call with
                      | Some a => join ", " (map (fun kv => fst kv ^^ "="
                                                    ^^ js_String (numberToString env)
                                                         (snd kv)) a)
                      | None => ""
                      end in
                    "  🔧 " ^^ nameText call ^^ "(" ^^ argsStr ^^ ")")
                 vFunctionCalls) in
  let tools :=
    match vFunctionCalls with
    | [] => []
    | _ => ["[Visual Turn " ^^ string_of_nat (i + 1) ^^ "/"
            ^^ string_of_nat VISUAL_MAX_STEPS ^^ "]" ^^ LF ^^ toolInfo]
    end in
  match thinking ++ tools with
  | [] => ret tt
  | visualLogParts => printOutput (join LF visualLogParts)
  end.

(** [await this.generator.generateContent(...)]. *)
Definition awaitGenerateContent (contents : list Content)
  : M (option Content) :=
  fun st => (generateContent env (gens st) contents,
             countGen (ticked (EvGenerateContent contents) st)).

(** How the [for] loop is left: by its [return], or by [break] or
    exhaustion with the history gathered so far. *)
Inductive VisualExit :=
| VisualReturned (out : string)
| VisualLeft (actionHistory : list string).

(** [for (let i = 0; i < VISUAL_MAX_STEPS; i++)], by recursion on the steps
    that remain: [i] is [VISUAL_MAX_STEPS - remaining]. *)
Fixpoint visualLoop (remaining : nat) (contents : list Content)
    (actionHistory : list string) : M VisualExit :=
  match remaining with
  | O => ret (VisualLeft actionHistory)
  | S remaining' =>
    let i := VISUAL_MAX_STEPS - remaining in
    result <- awaitGenerateContent contents ;;
    match result with
    | None => ret (VisualLeft actionHistory)
    | Some response =>
      visualLog i response ;;
      let contents1 := contents ++ [response] in
      match functionCallsOf response with
      | [] =>
        let text :=
          or_else
            (option_map (fun ps => join "" (map (fun p => or_else (p_text p) "") ps))
                        (parts response))
            "Done" in
        invalidateCache ;;
        ret (VisualReturned
               ("Visual Agent Completed." ^^ LF ^^ "Final Message: " ^^ text
                ^^ LF ^^ "Actions Taken:" ^^ LF ^^ join LF actionHistory))
      | functionCalls =>
        acts <- visualActions functionCalls [] actionHistory ;;
        let '(functionResponses, actionHistory1) := acts in
        newScreenshot <- tryCatch captureScreenshot (fun _ => ret "") ;;
        let functionResponses1 :=
          if newScreenshot =? "" then functionResponses
          else functionResponses ++ [imagePart newScreenshot] in
        visualLoop remaining'
          (contents1 ++ [{| role := Some "user"; parts := Some functionResponses1 |}])
          actionHistory1
      end
    end
  end.

(** [runVisualDelegate]; the string is the [output] field of its result.
    [runTask] always passes a callback, the caller's or one that does
    nothing, which is what [printOutput] does.  The instruction is the
    value the orchestrator read from the call, of whatever type. *)
Definition runVisualDelegate (instruction : JsVal)
    (initialScreenshot : string) : M string :=
  let initialParts :=
    textPart (visualSystemInstruction instruction)
    :: (if initialScreenshot =? "" then [] else [imagePart initialScreenshot]) in
  exit <- visualLoop VISUAL_MAX_STEPS
            [{| role := Some "user"; parts := Some initialParts |}] [] ;;
  match exit with
  | VisualReturned out => ret out
  | VisualLeft actionHistory =>
    invalidateCache ;;
    ret ("Visual Agent reached max steps." ^^ LF ^^ "Actions Taken:" ^^ LF
         ^^ join LF actionHistory)
  end.

(** ** runTask *)

Definition MAX_ITERATIONS : nat := 20.

(** The variables of [runTask] that live across turns. *)
Record LoopState := {
  currentInputParts : list Part;
  iterationCount : nat;
  taskCompleted : bool;
  taskSummary : JsVal
}.

(** How one pass through the body of the [while] ends: at its end
    ([iterationCount++] done), by [break], or by [return msg]. *)
Inductive Control :=
| Continue (ls : LoopState)
| Break (ls : LoopState)
| Return (msg : string).

(** [{ verbose: false }], the arguments of the snapshot request. *)
Definition captureArgs : Args := [("verbose", JBool false)].

(** Capture State: the [try] around [getMcpClient] and [take_snapshot];
    [domSnapshot] stays [''] on failure and when the content is no array. *)
Definition captureState : M string :=
  tryCatch
    (await EvGetMcpClient (getMcpClient env) ;;
     snapResult <- await (EvCallTool "take_snapshot" captureArgs)
                     (fun t => callTool env t "take_snapshot" captureArgs) ;;
     ret (match content snapResult with
          | ContentItems snapContent =>
            join "" (map (fun p => js_String (numberToString env)
                                     (or_value (c_text p) ""))
                         (filter (fun p => c_type p =? "text") snapContent))
          | ContentMissing | ContentOther => ""
          end))
    (fun stateError => ret "").

Definition stateParts (domSnapshot : string) : list Part :=
  if domSnapshot =? "" then []
  else [textPart ("<accessibility_tree>" ^^ LF ^^ domSnapshot ^^ LF
                  ^^ "</accessibility_tree>")].

(** [await chat.sendMessageStream(...)]. *)
Definition awaitSendMessageStream (messageParts : list Part) : M Stream :=
  fun st => (sendMessageStream env (streams st) messageParts,
             countStream (ticked (EvSendMessageStream messageParts) st)).

(** The progress line for one call of a chunk. *)
Definition announceCall (call : FunctionCall) : M unit :=
  let generating :=
    printOutput ("🔧 Generating tool call: " ^^ nameText call ^^ "...") in
  match fc_name call with
  | Some n =>
    if n =? "delegate_to_visual_agent" then
      match lookup "instruction" (argsOf call) with
      | Some instruction =>
        if truthy instruction
        then printOutput ("🤖 Visual Agent: "
                          ^^ js_String (numberToString env) instruction)
        else generating
      | None => generating
      end
    else generating
  | None => generating
  end.

Fixpoint announceCalls (calls : list FunctionCall) : M unit :=
  match calls with
  | [] => ret tt
  | call :: rest => announceCall call ;; announceCalls rest
  end.

(** The body of [if (event.type === StreamEventType.CHUNK)]; the pair is
    [_textResponse] and [functionCalls]. *)
Definition onChunk (chunk : Chunk) (acc : string * list FunctionCall)
  : M (string * list FunctionCall) :=
  let ps := match ch_parts chunk with Some ps => ps | None => [] end in
  match find p_thought ps with
   | Some thoughtPart =>
     let subject := parseThought env (or_else (p_text thoughtPart) "") in
     if subject =? "" then ret tt else printOutput ("💭 " ^^ subject)
   | None => ret tt
   end ;;
  let text :=
    join "" (flat_map (fun p => if p_thought p then []
                                else match p_text p with
                                     | Some t => if t =? "" then [] else [t]
                                     | None => []
                                     end) ps) in
  match ch_functionCalls chunk with
  | Some calls =>
    (if hasPrintOutput then announceCalls calls else ret tt) ;;
    ret (fst acc ^^ text, snd acc ++ calls)
  | None => ret (fst acc ^^ text, snd acc)
  end.

(** [for await (const event of stream)]: every item is awaited; the signal
    is read before an event is handled, and [break] leaves the rest of the
    stream unread. *)
Fixpoint forAwait (evs : list StreamEvent) (ending : option Thrown)
    (acc : string * list FunctionCall) : M (string * list FunctionCall) :=
  awaitNext ;;
  match evs with
  | [] => match ending with
          | Some e => throw e
          | None => ret acc
          end
  | event :: rest =>
    aborted <- signalAborted ;;
    if aborted then ret acc
    else
      acc' <- match event with
              | CHUNK chunk => onChunk chunk acc
              | OtherEvent => ret acc
              end ;;
      forAwait rest ending acc'
  end.

(** What the model call of a turn leaves behind. *)
Inductive ModelTurn :=
| Collected (textResponse : string) (functionCalls : list FunctionCall)
| CancelledAfterStream
| ModelFailed (msg : string).

(** Call Model with Streaming: the [try] and its [catch].  In the [catch],
    the test for the empty-stream message guards a debug line only, and the
    [return msg] after it is reached either way. *)
Definition callModel (messageParts : list Part) : M ModelTurn :=
  tryCatch
    (stream <- awaitSendMessageStream messageParts ;;
     acc <- forAwait (events stream) (failure stream) ("", []) ;;
     aborted <- signalAborted ;;
     if aborted then printOutput cancelNotice ;; ret CancelledAfterStream
     else ret (Collected (fst acc) (snd acc)))
    (fun e =>
       let msg := "Error calling model: " ^^ errorText e in
       (if includes "Model stream ended with empty response text" msg
        then debugLog "Warning: Caught empty stream error from model. Continuing..."
        else ret tt) ;;
       debugLog msg ;;
       printOutput msg ;;
       ret (ModelFailed msg)).

(** The cases of the dispatch [switch] that call one [BrowserTools] method:
    the method, the argument keys read, and whether the text falls back on
    [res.error]. *)
Definition directHandler (fnName : string)
  : option (Method * list string * bool) :=
  if fnName =? "navigate" then Some (navigate, ["url"], false)
  else if fnName =? "click" then Some (click, ["uid"; "dblClick"], false)
  else if fnName =? "hover" then Some (hover, ["uid"], false)
  else if fnName =? "fill" then Some (fill, ["uid"; "value"], false)
  else if fnName =? "fill_form" then Some (fillForm, ["elements"], false)
  else if fnName =? "upload_file" then
    Some (uploadFile, ["uid"; "filePath"], false)
  else if fnName =? "get_element_text" then
    Some (getElementText, ["uid"], false)
  else if fnName =? "wait_for" then Some (waitFor, ["text"], false)
  else if fnName =? "handle_dialog" then
    Some (handleDialog, ["action"; "promptText"], false)
  else if fnName =? "evaluate_script" then
    Some (evaluateScript, ["function"], false)
  else if fnName =? "press_key" then Some (pressKey, ["key"], false)
  else if fnName =? "drag" then Some (drag, ["from_uid"; "to_uid"], false)
  else if fnName =? "close_page" then Some (closePage, [], false)
  else if fnName =? "take_snapshot" then
    Some (takeSnapshot, ["verbose"], false)
  else if fnName =? "scroll_document" then
    Some (scrollDocument, ["direction"; "amount"], true)
  else None.

(** The names declared in [semanticTools]. *)
Definition semanticToolNames : list string :=
  ["navigate"; "click"; "hover"; "fill"; "fill_form"; "upload_file";
   "get_element_text"; "scroll_document"; "pagedown"; "pageup";
   "take_snapshot"; "wait_for"; "handle_dialog"; "evaluate_script";
   "press_key"; "open_web_browser"; "complete_task";
   "delegate_to_visual_agent"].

Definition notImplemented (fnName : string) : string :=
  "Tool " ^^ fnName ^^ " not implemented in agent loop.".

(** The TypeError of [res?.content?.map(...)] when the content is neither
    missing nor an array, in V8's words. *)
Definition mapNotAFunction : Thrown :=
  ErrorObj "res?.content?.map is not a function".

(** The [switch (fnName)].  The pair of flags is [taskCompleted] and
    [taskSummary], which only the [complete_task] case assigns.  In the
    [default] case a declared tool is forwarded to the MCP client, and any
    other name is looked up on [BrowserTools] itself and called with the
    values of the arguments, whatever member the name reaches. *)
Definition dispatchSwitch (fnName : string) (fnArgs : Args)
    (flags : bool * JsVal) : M (ResponseBody * (bool * JsVal)) :=
  if fnName =? "complete_task" then
    let summary := or_value (lookup "summary" fnArgs) "Task completed" in
    printOutput ("✅ " ^^ js_String (numberToString env) summary) ;;
    ret (TextContent summary, (true, summary))
  else if fnName =? "delegate_to_visual_agent" then
    screen <- captureScreenshot ;;
    visualRes <- runVisualDelegate
                   (or_value (lookup "instruction" fnArgs) "") screen ;;
    ret (DelegateContent visualRes, flags)
  else
    match directHandler fnName with
    | Some (m, keys, orError) =>
      let actuals := map (fun k => lookup k fnArgs) keys in
      res <- await (EvBrowserTools m actuals)
                   (fun t => browserTools env t m actuals) ;;
      ret (TextContent
             (or_else (output res)
                      (if orError then or_else (error res) "" else "")),
           flags)
    | None =>
      if existsb (String.eqb fnName) semanticToolNames then
        await EvGetMcpClient (getMcpClient env) ;;
        res <- await (EvCallTool fnName fnArgs)
                     (fun t => callTool env t fnName fnArgs) ;;
        match content res with
        | ContentMissing => ret (TextContent "", flags)
        | ContentItems cs =>
          ret (TextContent
                 (join LF (map (fun c => js_String (numberToString env)
                                           (or_value (c_text c) "")) cs)),
               flags)
        | ContentOther => throw mapNotAFunction
        end
      else
        let values := map snd fnArgs in
        tryCatch
          (res <- await (EvLegacyMethod fnName values)
                        (fun t => legacyMethod env t fnName values) ;;
           ret (TextContent
                  (match res with
                   | Some r => or_else (output r) (or_else (error r) "")
                   | None => notImplemented fnName
                   end),
                flags))
          (fun _ => ret (TextContent (notImplemented fnName), flags))
    end.

(** The [try { switch (fnName) ... } catch (error)] around a dispatch: an
    exception becomes the text of the response. *)
Definition guardedDispatch (fnName : string) (fnArgs : Args)
    (flags : bool * JsVal) : M (ResponseBody * (bool * JsVal)) :=
  tryCatch (dispatchSwitch fnName fnArgs flags)
    (fun e =>
       ret (TextContent ("Error executing " ^^ fnName ^^ ": " ^^ errorText e),
            flags)).

(** [for (const call of functionCalls)]: the signal is read before each
    call, and a call without a name is skipped. *)
Fixpoint executeTools (calls : list FunctionCall)
    (inputParts : list Part) (flags : bool * JsVal)
  : M (list Part * (bool * JsVal)) :=
  match calls with
  | [] => ret (inputParts, flags)
  | call :: rest =>
    aborted <- signalAborted ;;
    if aborted then printOutput cancelNotice ;; ret (inputParts, flags)
    else
      let fnName := match fc_name call with Some n => n | None => "" end in
      let fnArgs := argsOf call in
      if fnName =? "" then
        printOutput "❌ Warning: Received function call without name" ;;
        executeTools rest inputParts flags
      else
        printOutput ("🔧 Executing " ^^ fnName ^^ "("
                     ^^ stringifyArgs env fnArgs ^^ ")") ;;
        r <- guardedDispatch fnName fnArgs flags ;;
        executeTools rest
          (inputParts ++ [responsePart (Some fnName) (fst r)]) (snd r)
  end.

Definition rePrompt : string :=
  "You must call the complete_task tool to finish. If the task is done, call complete_task with a summary. If you cannot complete the task, call complete_task explaining why.".

(** Execute Tools: the [if (functionCalls.length > 0) ... else ...] and the
    [iterationCount++] after it. *)
Definition executePhase (ls : LoopState) (functionCalls : list FunctionCall)
  : M Control :=
  match functionCalls with
  | _ :: _ =>
    r <- executeTools functionCalls []
           (taskCompleted ls, taskSummary ls) ;;
    let '(inputParts, (completed, summary)) := r in
    if completed then
      ret (Break {| currentInputParts := inputParts;
                    iterationCount := iterationCount ls;
                    taskCompleted := completed; taskSummary := summary |})
    else
      ret (Continue {| currentInputParts := inputParts;
                       iterationCount := S (iterationCount ls);
                       taskCompleted := completed; taskSummary := summary |})
  | [] =>
    printOutput "⚠️  Agent stopped without calling complete_task. Prompting to complete..." ;;
    ret (Continue {| currentInputParts := [textPart rePrompt];
                     iterationCount := S (iterationCount ls);
                     taskCompleted := taskCompleted ls;
                     taskSummary := taskSummary ls |})
  end.

(** What is sent to the model in a turn. *)
Definition messagePartsOf (domSnapshot : string) (ls : LoopState)
  : list Part :=
  stateParts domSnapshot ++ currentInputParts ls.

(** The body of the [while] loop.  The turn log written after the model
    call is fire-and-forget and is not modelled. *)
Definition loopBody (ls : LoopState) : M Control :=
  aborted <- signalAborted ;;
  if aborted then printOutput cancelNotice ;; ret (Break ls)
  else
    domSnapshot <- captureState ;;
    aborted <- signalAborted ;;
    if aborted then printOutput cancelNotice ;; ret (Break ls)
    else
      turn <- callModel (messagePartsOf domSnapshot ls) ;;
      match turn with
      | ModelFailed msg => ret (Return msg)
      | CancelledAfterStream => ret (Break ls)
      | Collected _ functionCalls => executePhase ls functionCalls
      end.

(** How the [while] loop is left. *)
Inductive LoopExit :=
| Exited (ls : LoopState)
| Returned (msg : string).

(** [while (iterationCount < MAX_ITERATIONS)], by recursion on the turns
    that remain: [iterationCount] is [MAX_ITERATIONS - remaining] (lemma
    [whileFrom_count]).  [whileFrom] resumes the loop from the way the
    body ended. *)
Fixpoint whileFrom (remaining : nat) (c : Control) : M LoopExit :=
  match c with
  | Return msg => ret (Returned msg)
  | Break ls => ret (Exited ls)
  | Continue ls =>
    match remaining with
    | O => ret (Exited ls)
    | S remaining' => c' <- loopBody ls ;; whileFrom remaining' c'
    end
  end.

(** [return taskSummary || 'Task finished']. *)
Definition finish (ls : LoopState) : JsVal :=
  or_value (Some (taskSummary ls)) "Task finished".

Definition initialState (prompt : string) : LoopState :=
  {| currentInputParts := [textPart ("Task: " ^^ prompt)];
     iterationCount := 0; taskCompleted := false; taskSummary := "" |}.

(** What [runTask] returns once the loop is left. *)
Definition returned (exit : LoopExit) : JsVal :=
  match exit with
  | Returned msg => msg
  | Exited ls => finish ls
  end.

(** The task loop and the final [return], from the first turn on. *)
Definition taskLoop (prompt : string) : M JsVal :=
  exit <- whileFrom MAX_ITERATIONS (Continue (initialState prompt)) ;;
  ret (returned exit).

(** [runTask(prompt, signal, printOutput)].  The connection and the first
    overlay update sit in a [try]; the second overlay update does not.
    Choosing the model, writing the system instruction and creating the
    chat are set-up without effect on the loop and are left out.  The value
    returned is a string, but for the summary of a completion, which is the
    value the call gave. *)
Definition runTask (prompt : string) : M JsVal :=
  failed <- tryCatch
              (await EvEnsureConnection (ensureConnection env) ;;
               await (EvUpdateBorderOverlay false)
                     (fun t => updateBorderOverlay env t false) ;;
               ret None)
              (fun e =>
                 let msg := "Error: Failed to connect to browser: "
                            ^^ errorText e in
                 printOutput msg ;; ret (Some msg)) ;;
  match failed with
  | Some msg => ret (JStr msg)
  | None =>
    await (EvUpdateBorderOverlay false)
          (fun t => updateBorderOverlay env t false) ;;
    taskLoop prompt
  end.

End Agent.


(** * The vocabulary of the properties *)

(** ** Kinds of events *)

(** A call of the orchestrator's model. *)
Definition isModelCall (ev : Event) : bool :=
  match ev with
  | EvSendMessageStream _ => true
  | _ => false
  end.

(** The request by which the loop captures the state: [take_snapshot]
    asked of the MCP client. *)
Definition isStateCapture (ev : Event) : bool :=
  match ev with
  | EvCallTool n _ => n =? "take_snapshot"
  | _ => false
  end.

(** Any request for a snapshot of the page: the one of the loop, the one
    the model asks for by a [take_snapshot] call, which goes through
    [BrowserTools], and a [takeSnapshot] reached by name. *)
Definition isSnapshotCall (ev : Event) : bool :=
  match ev with
  | EvCallTool n _ => n =? "take_snapshot"
  | EvBrowserTools takeSnapshot _ => true
  | EvLegacyMethod n _ => n =? "takeSnapshot"
  | _ => false
  end.

(** Neither a model call nor the loop's state capture: what dispatching
    tools may issue. *)
Definition dispatchEvent (ev : Event) : bool :=
  negb (isModelCall ev) && negb (isStateCapture ev).

(** ** Runs *)

(** A relation between the state before and after holds for every run. *)
Definition always {A} (R : St -> St -> Prop) (m : M A) : Prop :=
  forall st, R st (snd (m st)).

(** A computation never throws. *)
Definition safe {A} (m : M A) : Prop :=
  forall st, exists a, fst (m st) = Ok a.

(** The state after some calls [evs] were issued and awaited. *)
Definition after (evs : list Event) (st : St) : St :=
  {| clock := clock st + length evs; streams := streams st; gens := gens st;
     trace := trace st ++ evs; printed := printed st |}.

(** The calls of a state capture that obtains the client. *)
Definition captureEvents : list Event :=
  [EvGetMcpClient; EvCallTool "take_snapshot" captureArgs].

(** The calls of the chunks of a stream, in emission order. *)
Definition chunkCalls (event : StreamEvent) : list FunctionCall :=
  match event with
  | CHUNK chunk => match ch_functionCalls chunk with
                   | Some calls => calls
                   | None => []
                   end
  | OtherEvent => []
  end.

(** All the calls a stream carries. *)
Definition streamCalls (s : Stream) : list FunctionCall :=
  flat_map chunkCalls (events s).

(** Steps that issue no call and count no model call. *)
Definition silent (st st' : St) : Prop :=
  trace st' = trace st /\ streams st' = streams st /\ gens st' = gens st.

(** Dispatching counts no model call of the orchestrator. *)
Definition sameStreams (a b : St) : Prop := streams b = streams a.

(** Steps that call the visual model no further. *)
Definition sameGens (a b : St) : Prop := gens b = gens a.

(** Steps that only issue dispatch calls. *)
Definition quietTrace (a b : St) : Prop :=
  exists evs, trace b = trace a ++ evs
              /\ Forall (fun ev => dispatchEvent ev = true) evs.

(** ** Calls and their responses *)

(** A call of [complete_task]. *)
Definition isCompletion (call : FunctionCall) : bool :=
  match fc_name call with
  | Some n => n =? "complete_task"
  | None => false
  end.

(** The summary a [complete_task] call leaves: the value of its [summary]
    argument when that is truthy, of whatever type. *)
Definition summaryOf (call : FunctionCall) : JsVal :=
  or_value (lookup "summary" (argsOf call)) "Task completed".

(** [taskCompleted] and [taskSummary] after some calls were dispatched. *)
Fixpoint flagsAfter (calls : list FunctionCall) (flags : bool * JsVal)
  : bool * JsVal :=
  match calls with
  | [] => flags
  | call :: rest =>
    flagsAfter rest (if isCompletion call then (true, summaryOf call)
                     else flags)
  end.

(** [!fnName] fails. *)
Definition hasName (call : FunctionCall) : bool :=
  match fc_name call with
  | Some n => negb (n =? "")
  | None => false
  end.

(** A computation that returns flags returns the given ones. *)
Definition keeps {A} (flags : bool * JsVal) (m : M (A * (bool * JsVal)))
  : Prop :=
  forall st r st', m st = (Ok r, st') -> snd r = flags.

(** A part answers a call: it is a function response under its name. *)
Definition answers (call : FunctionCall) (p : Part) : Prop :=
  exists body, p = responsePart (fc_name call) body.

(** The input parts a pass leaves for the next turn. *)
Definition carried (c : Control) : list Part :=
  match c with
  | Continue ls | Break ls => currentInputParts ls
  | Return _ => []
  end.

(** The calls issued between two states. *)
Definition newEvents (st st' : St) : list Event :=
  skipn (length (trace st)) (trace st').


(** ** Turns *)

(** The ways a turn can go.  [evs] are the calls of the state capture. *)
Inductive TurnRun (env : Env) (po : bool) (ls : LoopState) (st : St)
  : Outcome Control -> St -> Prop :=
| CancelledAtTop :
    abortedAt env (clock st) = true ->
    TurnRun env po ls st (Ok (Break ls))
            (snd (printOutput po cancelNotice st))
| CancelledAfterCapture dom evs :
    abortedAt env (clock st) = false ->
    captureState env st = (Ok dom, after evs st) ->
    abortedAt env (clock (after evs st)) = true ->
    TurnRun env po ls st (Ok (Break ls))
            (snd (printOutput po cancelNotice (after evs st)))
| ModelCalled dom evs turn st2 r st' :
    abortedAt env (clock st) = false ->
    captureState env st = (Ok dom, after evs st) ->
    abortedAt env (clock (after evs st)) = false ->
    callModel env po (messagePartsOf dom ls) (after evs st) = (Ok turn, st2) ->
    match turn with
    | ModelFailed msg => r = Ok (Return msg) /\ st' = st2
    | CancelledAfterStream => r = Ok (Break ls) /\ st' = st2
    | Collected _ calls => executePhase env po ls calls st2 = (r, st')
    end ->
    TurnRun env po ls st r st'.

(** The calls [runTask] makes before the loop, when the connection
    succeeds. *)
Definition connectEvents : list Event :=
  [EvEnsureConnection; EvUpdateBorderOverlay false;
   EvUpdateBorderOverlay false].

(** The turns a run of [runTask] from [st0] comes to: [Reaches n ls st] says
    that the loop arrives at its test with [n] iterations left, the loop
    variables [ls] and the state [st]. *)
Inductive Reaches (env : Env) (po : bool) (prompt : string) (st0 : St)
  : nat -> LoopState -> St -> Prop :=
| FirstTurn :
    ensureConnection env (clock st0) = Ok tt ->
    updateBorderOverlay env (S (clock st0)) false = Ok tt ->
    updateBorderOverlay env (S (S (clock st0))) false = Ok tt ->
    Reaches env po prompt st0 MAX_ITERATIONS (initialState prompt)
            (after connectEvents st0)
| NextTurn n ls st ls' st' :
    Reaches env po prompt st0 (S n) ls st ->
    loopBody env po ls st = (Ok (Continue ls'), st') ->
    Reaches env po prompt st0 n ls' st'.

(** ** Dispatch, call by call *)

(** Two states that differ at most in the progress lines received. *)
Definition alike (a b : St) : Prop :=
  clock a = clock b /\ streams a = streams b /\ gens a = gens b
  /\ trace a = trace b.

(** The responses to calls dispatched in order, from a state and the flags
    of the task to the state and the flags they leave.  A call without a
    name is passed over.  A call with a name is answered under that name,
    with what its case of the [switch] gave or, when the case threw, with
    the error text; the call after it is dispatched from the state and the
    flags this one left.  Progress lines apart, nothing else happens. *)
Inductive Answered (env : Env) (po : bool)
  : bool * JsVal -> St -> list FunctionCall -> list Part
    -> bool * JsVal -> St -> Prop :=
| AnsweredAll flags st st' :
    alike st st' ->
    Answered env po flags st [] [] flags st'
| AnsweredNameless flags st call rest parts flags' st' :
    hasName call = false ->
    Answered env po flags st rest parts flags' st' ->
    Answered env po flags st (call :: rest) parts flags' st'
| AnsweredResult flags st s1 call n rest body flags1 st1 parts flags' st' :
    fc_name call = Some n -> n <> "" ->
    alike st s1 ->
    dispatchSwitch env po n (argsOf call) flags s1 = (Ok (body, flags1), st1) ->
    Answered env po flags1 st1 rest parts flags' st' ->
    Answered env po flags st (call :: rest)
             (responsePart (Some n) body :: parts) flags' st'
| AnsweredError flags st s1 call n rest e st1 parts flags' st' :
    fc_name call = Some n -> n <> "" ->
    alike st s1 ->
    dispatchSwitch env po n (argsOf call) flags s1 = (Throw e, st1) ->
    Answered env po flags st1 rest parts flags' st' ->
    Answered env po flags st (call :: rest)
             (responsePart (Some n)
                (TextContent ("Error executing " ^^ n ^^ ": " ^^ errorText e))
              :: parts)
             flags' st'.

(** The snapshot request a dispatched call makes: the [take_snapshot] of
    the model, which goes through [BrowserTools], or a [takeSnapshot]
    reached by name. *)
Definition snapshotRequest (call : FunctionCall) : list Event :=
  match fc_name call with
  | Some n =>
    if n =? "take_snapshot"
    then [EvBrowserTools takeSnapshot [lookup "verbose" (argsOf call)]]
    else if n =? "takeSnapshot"
         then [EvLegacyMethod "takeSnapshot" (map snd (argsOf call))]
         else []
  | None => []
  end.

(** A call whose name has no case of the [switch] and is not declared: it
    is looked up on [BrowserTools] by name. *)
Definition reflective (call : FunctionCall) : bool :=
  match fc_name call with
  | Some n =>
    negb (n =? "") && negb (n =? "complete_task")
    && negb (n =? "delegate_to_visual_agent")
    && match directHandler n with Some _ => false | None => true end
    && negb (existsb (String.eqb n) semanticToolNames)
  | None => false
  end.

(** ** The actions of the visual delegate *)

(** The calls the visual delegate may issue: the five coordinate actions,
    the screenshot with its overlay, the cache invalidation, and the visual
    model. *)
Definition delegateEvent (ev : Event) : bool :=
  match ev with
  | EvBrowserTools m _ =>
    match m with
    | clickAt | typeTextAt | dragAndDrop | pressKey | scrollDocument => true
    | _ => false
    end
  | EvGetPage | EvBringToFront | EvScreenshot | EvUpdateBorderOverlay _
  | EvGetMcpClient | EvGenerateContent _ => true
  | EvCallTool n _ => n =? "evaluate_script"
  | _ => false
  end.

(** Steps that only issue calls the visual delegate may issue. *)
Definition delegateTrace (a b : St) : Prop :=
  exists evs, trace b = trace a ++ evs
              /\ Forall (fun ev => delegateEvent ev = true) evs.

(** The calls of [BrowserTools] methods in a trace, in order. *)
Definition toolEvents (tr : list Event) : list Event :=
  filter (fun ev => match ev with
                    | EvBrowserTools _ _ => true
                    | _ => false
                    end) tr.

(** The driver call of one visual action: none for a tool the visual loop
    does not know and for a call without arguments. *)
Definition visualDriverCall (call : FunctionCall) : list Event :=
  match visualHandler (fc_name call), fc_args call with
  | Some (m, keys), Some a => [EvBrowserTools m (map (fun k => lookup k a) keys)]
  | _, _ => []
  end.

(** The result of a visual action dispatched at instant [t]: what the
    driver gives, or an error result when the driver throws, when the
    call has no arguments, or when the tool is not a visual one. *)
Definition visualResultAt (env : Env) (t : nat) (call : FunctionCall)
  : ToolResult :=
  match visualHandler (fc_name call) with
  | Some (m, keys) =>
    match fc_args call with
    | Some a =>
      match browserTools env t m (map (fun k => lookup k a) keys) with
      | Ok r => r
      | Throw e => errorResult (errorText e)
      end
    | None => errorResult (errorText (undefinedRead (hd "" keys)))
    end
  | None => errorResult ("Unknown visual tool: " ^^ nameText call)
  end.

(** The results of visual actions dispatched one after the other from
    instant [t]: an action that calls the driver takes one instant. *)
Fixpoint visualResults (env : Env) (t : nat) (calls : list FunctionCall)
  : list ToolResult :=
  match calls with
  | [] => []
  | call :: rest =>
    visualResultAt env t call
    :: visualResults env (t + length (visualDriverCall call)) rest
  end.

(** What the report says of one action: the tool, its arguments as
    [key=value], and the result as JSON. *)
Definition actionLine (env : Env) (call : FunctionCall) (res : ToolResult)
  : string :=
  "- " ^^ nameText call ^^ "("
  ^^ join ", "
       (map (fun k => k ^^ "="
                      ^^ match lookup k (argsOf call) with
                         | Some v => js_String (numberToString env) v
                         | None => "undefined"
                         end)
            (map fst (argsOf call)))
  ^^ ") => " ^^ stringifyResult env res.

(** The lines of the report for some actions with their results. *)
Definition historyOf (env : Env) (calls : list FunctionCall)
    (results : list ToolResult) : list string :=
  map (fun cr => actionLine env (fst cr) (snd cr)) (combine calls results).

(** ** Example scripts *)

Module Script.

Definition okResult : ToolResult := {| output := Some "ok"; error := None |}.

Definition treeSnapshot : McpResult :=
  {| content := ContentItems [{| c_type := "text"; c_text := Some (JStr "tree") |}] |}.

(** The host's printer of numbers, scripted for the numbers the examples
    print (10, 20 and 42); no example prints another one. *)
Definition decimal (n : float) : string :=
  if PrimFloat.eqb n 10 then "10"
  else if PrimFloat.eqb n 20 then "20"
  else if PrimFloat.eqb n 42 then "42"
  else "0".

(** Everything succeeds, the page snapshot is ["tree"], and the model
    answers every request with an empty stream. *)
Definition idle : Env :=
  {| abort_at := None;
     ensureConnection := fun _ => Ok tt;
     getMcpClient := fun _ => Ok tt;
     getPage := fun _ => Ok tt;
     callTool := fun _ _ _ => Ok treeSnapshot;
     bringToFront := fun _ => Ok tt;
     screenshot := fun _ => Ok "iVBORw0KGgo=";
     updateBorderOverlay := fun _ _ => Ok tt;
     browserTools := fun _ _ _ => Ok okResult;
     legacyMethod := fun _ _ _ => Ok None;
     sendMessageStream := fun _ _ => Ok {| events := []; failure := None |};
     generateContent := fun _ _ => Ok None;
     numberToString := decimal;
     parseThought := fun s => s;
     stringifyArgs := fun _ => "{}";
     stringifyResult := fun r => or_else (output r) "{}" |}.

Definition withModel (f : nat -> Outcome Stream) (e : Env) : Env :=
  {| abort_at := abort_at e;
     ensureConnection := ensureConnection e;
     getMcpClient := getMcpClient e;
     getPage := getPage e;
     callTool := callTool e;
     bringToFront := bringToFront e;
     screenshot := screenshot e;
     updateBorderOverlay := updateBorderOverlay e;
     browserTools := browserTools e;
     legacyMethod := legacyMethod e;
     sendMessageStream := fun k _ => f k;
     generateContent := generateContent e;
     numberToString := numberToString e;
     parseThought := parseThought e;
     stringifyArgs := stringifyArgs e;
     stringifyResult := stringifyResult e |}.

Definition withVisualModel (f : nat -> Outcome (option Content)) (e : Env)
  : Env :=
  {| abort_at := abort_at e;
     ensureConnection := ensureConnection e;
     getMcpClient := getMcpClient e;
     getPage := getPage e;
     callTool := callTool e;
     bringToFront := bringToFront e;
     screenshot := screenshot e;
     updateBorderOverlay := updateBorderOverlay e;
     browserTools := browserTools e;
     legacyMethod := legacyMethod e;
     sendMessageStream := sendMessageStream e;
     generateContent := fun k _ => f k;
     numberToString := numberToString e;
     parseThought := parseThought e;
     stringifyArgs := stringifyArgs e;
     stringifyResult := stringifyResult e |}.

Definition withAbort (n : nat) (e : Env) : Env :=
  {| abort_at := Some n;
     ensureConnection := ensureConnection e;
     getMcpClient := getMcpClient e;
     getPage := getPage e;
     callTool := callTool e;
     bringToFront := bringToFront e;
     screenshot := screenshot e;
     updateBorderOverlay := updateBorderOverlay e;
     browserTools := browserTools e;
     legacyMethod := legacyMethod e;
     sendMessageStream := sendMessageStream e;
     generateContent := generateContent e;
     numberToString := numberToString e;
     parseThought := parseThought e;
     stringifyArgs := stringifyArgs e;
     stringifyResult := stringifyResult e |}.

Definition withClient (f : nat -> Outcome unit) (e : Env) : Env :=
  {| abort_at := abort_at e;
     ensureConnection := ensureConnection e;
     getMcpClient := f;
     getPage := getPage e;
     callTool := callTool e;
     bringToFront := bringToFront e;
     screenshot := screenshot e;
     updateBorderOverlay := updateBorderOverlay e;
     browserTools := browserTools e;
     legacyMethod := legacyMethod e;
     sendMessageStream := sendMessageStream e;
     generateContent := generateContent e;
     numberToString := numberToString e;
     parseThought := parseThought e;
     stringifyArgs := stringifyArgs e;
     stringifyResult := stringifyResult e |}.

Definition withOverlay (f : nat -> bool -> Outcome unit) (e : Env) : Env :=
  {| abort_at := abort_at e;
     ensureConnection := ensureConnection e;
     getMcpClient := getMcpClient e;
     getPage := getPage e;
     callTool := callTool e;
     bringToFront := bringToFront e;
     screenshot := screenshot e;
     updateBorderOverlay := f;
     browserTools := browserTools e;
     legacyMethod := legacyMethod e;
     sendMessageStream := sendMessageStream e;
     generateContent := generateContent e;
     numberToString := numberToString e;
     parseThought := parseThought e;
     stringifyArgs := stringifyArgs e;
     stringifyResult := stringifyResult e |}.

Definition withTools
    (f : nat -> Method -> list (option JsVal) -> Outcome ToolResult)
    (e : Env) : Env :=
  {| abort_at := abort_at e;
     ensureConnection := ensureConnection e;
     getMcpClient := getMcpClient e;
     getPage := getPage e;
     callTool := callTool e;
     bringToFront := bringToFront e;
     screenshot := screenshot e;
     updateBorderOverlay := updateBorderOverlay e;
     browserTools := f;
     legacyMethod := legacyMethod e;
     sendMessageStream := sendMessageStream e;
     generateContent := generateContent e;
     numberToString := numberToString e;
     parseThought := parseThought e;
     stringifyArgs := stringifyArgs e;
     stringifyResult := stringifyResult e |}.

Definition call (n : string) (a : Args) : FunctionCall :=
  {| fc_name := Some n; fc_args := Some a |}.

(** A stream of one chunk carrying the given calls. *)
Definition oneChunk (calls : list FunctionCall) : Stream :=
  {| events := [CHUNK {| ch_parts := None; ch_functionCalls := Some calls |}];
     failure := None |}.

(** The payloads sent to the model, in order. *)
Definition payloads (tr : list Event) : list (list Part) :=
  flat_map (fun ev => match ev with
                      | EvSendMessageStream ps => [ps]
                      | _ => []
                      end) tr.

(** The browser tools called, in order. *)
Definition toolCalls (tr : list Event) : list Method :=
  flat_map (fun ev => match ev with
                      | EvBrowserTools m _ => [m]
                      | _ => []
                      end) tr.

End Script.

(** The error the model client raises for a stream that ends with no
    content. *)
Definition emptyStreamError : Thrown :=
  ErrorObj "Model stream ended with empty response text.".

(** The first turn's stream queues two calls, and the caller aborts while
    the end of that stream is awaited. *)
Definition cancelledTurn : Env :=
  Script.withAbort 8
    (Script.withModel
       (fun _ => Ok (Script.oneChunk
                       [Script.call "click" [("uid", JStr "87_4")];
                        Script.call "navigate"
                                    [("url", JStr "https://example.com")]]))
       Script.idle).

(** The driver client cannot be obtained. *)
Definition noClient : Env :=
  Script.withClient (fun _ => Throw (ErrorObj "Not connected")) Script.idle.

(** The model navigates in its first turn and, in its second, clicks,
    completes with ["Done"], and asks for a key press after that. *)
Definition doneInSecondTurn : Env :=
  Script.withModel
    (fun k =>
       Ok (Script.oneChunk
             (if (k =? 0)%nat
              then [Script.call "navigate"
                                [("url", JStr "https://example.com")]]
              else [Script.call "click" [("uid", JStr "87_4")];
                    Script.call "complete_task" [("summary", JStr "Done")];
                    Script.call "press_key" [("key", JStr "Enter")]])))
    Script.idle.

(** The model completes in its first turn without a summary. *)
Definition bareCompletion : Env :=
  Script.withModel
    (fun _ => Ok (Script.oneChunk
                    [Script.call "hover" [("uid", JStr "1_2")];
                     {| fc_name := Some "complete_task"; fc_args := None |}]))
    Script.idle.

(** The model asks for a snapshot of its own, then clicks. *)
Definition snapshotAsked : Env :=
  Script.withModel
    (fun _ => Ok (Script.oneChunk
                    [Script.call "take_snapshot" [("verbose", JBool true)];
                     Script.call "click" [("uid", JStr "87_4")]]))
    Script.idle.

(** The model completes with a number for a summary. *)
Definition numericSummary : Env :=
  Script.withModel
    (fun _ => Ok (Script.oneChunk
                    [Script.call "complete_task" [("summary", JNum 42)]]))
    Script.idle.

Definition nameless : FunctionCall :=
  {| fc_name := None; fc_args := Some [("uid", JStr "87_4")] |}.

(** A response of the visual model: a remark and one click. *)
Definition clickResponse : Content :=
  {| role := Some "model";
     parts := Some [textPart "Clicking.";
                    callPart (Script.call "click_at"
                                [("x", JNum 10); ("y", JNum 20)])] |}.

(** The visual model asks for a click at every step. *)
Definition alwaysClicking : Env :=
  Script.withVisualModel (fun _ => Ok (Some clickResponse)) Script.idle.

(** * Further vocabulary *)

(** The calls of [captureScreenshot], in order. *)
Definition screenshotEvents : list Event :=
  [EvGetPage; EvBringToFront; EvUpdateBorderOverlay true; EvScreenshot;
   EvUpdateBorderOverlay false].

(** Whether call [i] of [captureScreenshot], entered at instant [t],
    succeeds; the calls are numbered from 0 in the order of
    [screenshotEvents]. *)
Definition screenshotCallOk (env : Env) (t i : nat) : bool :=
  match i with
  | 0 => match getPage env t with Ok _ => true | Throw _ => false end
  | 1 => match bringToFront env (t + 1) with Ok _ => true | Throw _ => false end
  | 2 => match updateBorderOverlay env (t + 2) true with
         | Ok _ => true
         | Throw _ => false
         end
  | 3 => match screenshot env (t + 3) with Ok _ => true | Throw _ => false end
  | 4 => match updateBorderOverlay env (t + 4) false with
         | Ok _ => true
         | Throw _ => false
         end
  | _ => false
  end.

(** A stretch of a run of the visual delegate, from [st] to [st'], in
    which the actions [calls] were executed with the results [results]:
    the driver methods called are those of the actions, in order, and each
    result is what the driver gave its action at an instant of the
    stretch, or the error result of an action that reaches no method. *)
Definition visualRun (env : Env) (st st' : St) (calls : list FunctionCall)
    (results : list ToolResult) : Prop :=
  clock st <= clock st' /\
  (exists evs, trace st' = trace st ++ evs
               /\ toolEvents evs = flat_map visualDriverCall calls) /\
  Forall2 (fun call res =>
             exists t, clock st <= t <= clock st'
                       /\ res = visualResultAt env t call)
          calls results.

(** No completion recorded so far. *)
Definition unfinished (ls : LoopState) : Prop :=
  taskCompleted ls = false /\ taskSummary ls = "".

(** Model call [k] fails with [e], when the stream is opened or while it is
    read. *)
Definition streamFails (env : Env) (k : nat) (e : Thrown) : Prop :=
  forall parts,
    sendMessageStream env k parts = Throw e
    \/ exists s, sendMessageStream env k parts = Ok s /\ failure s = Some e.

(** The responses of some visual actions with their results. *)
Definition visualResponses (calls : list FunctionCall)
    (results : list ToolResult) : list Part :=
  map (fun cr => responsePart (fc_name (fst cr)) (ResultObject (snd cr)))
      (combine calls results).

(** A call made on behalf of the visual agent only: the page and its
    screenshot, the overlay in capturing mode, the visual model, and the
    coordinate actions, which the orchestrator's [switch] has no case for.
    A member of [BrowserTools] reached by name counts as one: it may be
    any of them. *)
Definition visualEvent (ev : Event) : bool :=
  match ev with
  | EvGetPage | EvBringToFront | EvScreenshot | EvGenerateContent _ => true
  | EvUpdateBorderOverlay capturing => capturing
  | EvBrowserTools m _ =>
    match m with
    | clickAt | typeTextAt | dragAndDrop => true
    | _ => false
    end
  | EvLegacyMethod _ _ => true
  | _ => false
  end.

(** A call of [delegate_to_visual_agent]. *)
Definition isDelegation (call : FunctionCall) : bool :=
  match fc_name call with
  | Some n => n =? "delegate_to_visual_agent"
  | None => false
  end.

(** Steps that involve the visual agent in no way. *)
Definition plain (a b : St) : Prop :=
  gens b = gens a /\
  exists evs, trace b = trace a ++ evs
              /\ Forall (fun ev => visualEvent ev = false) evs.

(** Two computations that go the same way from states that are alike. *)
Definition sameRun {A} (m1 m2 : M A) : Prop :=
  forall a b, alike a b ->
              fst (m1 a) = fst (m2 b) /\ alike (snd (m1 a)) (snd (m2 b)).

(** A computation that at most reports progress. *)
Definition unobserved (m : M unit) : Prop :=
  forall a, fst (m a) = Ok tt /\ alike (snd (m a)) a.

(** ** Further example scripts *)

Module Scenario.

Definition withConnection (f : nat -> Outcome unit) (e : Env) : Env :=
  {| abort_at := abort_at e;
     ensureConnection := f;
     getMcpClient := getMcpClient e;
     getPage := getPage e;
     callTool := callTool e;
     bringToFront := bringToFront e;
     screenshot := screenshot e;
     updateBorderOverlay := updateBorderOverlay e;
     browserTools := browserTools e;
     legacyMethod := legacyMethod e;
     sendMessageStream := sendMessageStream e;
     generateContent := generateContent e;
     numberToString := numberToString e;
     parseThought := parseThought e;
     stringifyArgs := stringifyArgs e;
     stringifyResult := stringifyResult e |}.

Definition withLegacy
    (f : nat -> string -> list JsVal -> Outcome (option ToolResult))
    (e : Env) : Env :=
  {| abort_at := abort_at e;
     ensureConnection := ensureConnection e;
     getMcpClient := getMcpClient e;
     getPage := getPage e;
     callTool := callTool e;
     bringToFront := bringToFront e;
     screenshot := screenshot e;
     updateBorderOverlay := updateBorderOverlay e;
     browserTools := browserTools e;
     legacyMethod := f;
     sendMessageStream := sendMessageStream e;
     generateContent := generateContent e;
     numberToString := numberToString e;
     parseThought := parseThought e;
     stringifyArgs := stringifyArgs e;
     stringifyResult := stringifyResult e |}.

(** The browser cannot be reached. *)
Definition refused : Env :=
  withConnection (fun _ => Throw (ErrorObj "connect ECONNREFUSED"))
                 Script.idle.

(** The model clicks for ever and never completes. *)
Definition clicking : Env :=
  Script.withModel
    (fun _ => Ok (Script.oneChunk [Script.call "click" [("uid", JStr "87_4")]]))
    Script.idle.

(** The last word of the visual model. *)
Definition doneResponse : Content :=
  {| role := Some "model"; parts := Some [textPart "Clicked it."] |}.

(** The visual model clicks once and then reports. *)
Definition clickThenDone : Env :=
  Script.withVisualModel
    (fun k => if (k =? 0)%nat then Ok (Some clickResponse)
              else Ok (Some doneResponse))
    Script.idle.

(** The visual model clicks once and then gives no response. *)
Definition clickThenSilent : Env :=
  Script.withVisualModel
    (fun k => if (k =? 0)%nat then Ok (Some clickResponse) else Ok None)
    Script.idle.

(** The second model call is refused. *)
Definition quotaOnSecondCall : Env :=
  Script.withModel
    (fun k => if (k =? 1)%nat then Throw (ErrorObj "429 quota exceeded")
              else Ok (Script.oneChunk
                         [Script.call "click" [("uid", JStr "87_4")]]))
    Script.idle.

End Scenario.

(** * Reasoning about the loops *)

(** ** The monad *)

Lemma bind_ok {A B} (m : M A) (f : A -> M B) st a st' :
  m st = (Ok a, st') -> bind m f st = f a st'.
Proof. intros H. unfold bind. rewrite H. reflexivity. Qed.

Lemma bind_throw {A B} (m : M A) (f : A -> M B) st e st' :
  m st = (Throw e, st') -> bind m f st = (Throw e, st').
Proof. intros H. unfold bind. rewrite H. reflexivity. Qed.

Lemma safe_ret {A} (a : A) : safe (ret a).
Proof. intros st. exists a. reflexivity. Qed.

Lemma safe_bind {A B} (m : M A) (f : A -> M B) :
  safe m -> (forall a, safe (f a)) -> safe (bind m f).
Proof.
  intros Hm Hf st. unfold bind.
  destruct (Hm st) as [a Ha]. destruct (m st) as [r st']. simpl in Ha.
  subst r. apply Hf.
Qed.

Lemma safe_tryCatch {A} (m : M A) (h : Thrown -> M A) :
  (forall e, safe (h e)) -> safe (tryCatch m h).
Proof.
  intros Hh st. unfold tryCatch.
  destruct (m st) as [[a | e] st'].
  - exists a. reflexivity.
  - apply Hh.
Qed.

Create HintDb frame.

Section Frame.

Variable R : St -> St -> Prop.
Hypothesis R_refl : forall st, R st st.
Hypothesis R_trans : forall a b c, R a b -> R b c -> R a c.

Lemma always_ret {A} (a : A) : always R (ret a).
Proof. intros st. apply R_refl. Qed.

Lemma always_throw {A} (e : Thrown) : always R (@throw A e).
Proof. intros st. apply R_refl. Qed.

Lemma always_bind {A B} (m : M A) (f : A -> M B) :
  always R m -> (forall a, always R (f a)) -> always R (bind m f).
Proof.
  intros Hm Hf st. unfold bind.
  specialize (Hm st). destruct (m st) as [[a | e] st']; simpl in *.
  - eapply R_trans; [exact Hm | apply Hf].
  - exact Hm.
Qed.

Lemma always_tryCatch {A} (m : M A) (h : Thrown -> M A) :
  always R m -> (forall e, always R (h e)) -> always R (tryCatch m h).
Proof.
  intros Hm Hh st. unfold tryCatch.
  specialize (Hm st). destruct (m st) as [[a | e] st']; simpl in *.
  - exact Hm.
  - eapply R_trans; [exact Hm | apply Hh].
Qed.

Lemma always_if {A} (c : bool) (m1 m2 : M A) :
  always R m1 -> always R m2 -> always R (if c then m1 else m2).
Proof. destruct c; auto. Qed.

Lemma always_debugLog msg : always R (debugLog msg).
Proof. apply always_ret. Qed.

Variable env : Env.
Variable po : bool.

Lemma always_signalAborted : always R (signalAborted env).
Proof. intros st. apply R_refl. Qed.

(** The steps a computation is made of. *)
Hypothesis R_emit : forall msg st, R st (snd (emit msg st)).
Hypothesis R_next : forall st, R st (snd (awaitNext st)).
Hypothesis R_gen : forall st, R st (countGen st).

Hypothesis R_tick :
  forall ev st, dispatchEvent ev = true -> R st (ticked ev st).

Lemma always_printOutput msg : always R (printOutput po msg).
Proof.
  unfold printOutput. destruct po; [intros st; apply R_emit | apply always_ret].
Qed.

Lemma always_await {A} ev (script : nat -> Outcome A) :
  dispatchEvent ev = true -> always R (await ev script).
Proof. intros H st. apply R_tick, H. Qed.

Lemma always_awaitNext : always R awaitNext.
Proof. intros st. apply R_next. Qed.

Lemma always_awaitGenerateContent contents :
  always R (awaitGenerateContent env contents).
Proof.
  intros st. unfold awaitGenerateContent. simpl.
  eapply R_trans;
    [apply (R_tick (EvGenerateContent contents)); reflexivity | apply R_gen].
Qed.

Ltac frame :=
  repeat first
    [ solve [ auto with frame ]
    | apply always_ret
    | apply always_throw
    | apply always_debugLog
    | apply always_signalAborted
    | apply always_printOutput
    | apply always_awaitNext
    | apply always_awaitGenerateContent
    | apply always_await; reflexivity
    | apply always_bind; [ | intros ? ]
    | apply always_tryCatch; [ | intros ? ]
    | progress cbv zeta
    | apply always_if
    | match goal with
      | |- always _ (match ?x with _ => _ end) => destruct x
      end ].

Lemma always_captureScreenshot : always R (captureScreenshot env).
Proof. unfold captureScreenshot. frame. Qed.
#[local] Hint Resolve always_captureScreenshot : frame.

Lemma always_visualDispatch call : always R (visualDispatch env call).
Proof. unfold visualDispatch. frame. Qed.
#[local] Hint Resolve always_visualDispatch : frame.

Lemma always_visualActions calls rs h :
  always R (visualActions env calls rs h).
Proof.
  revert rs h. induction calls as [| call rest IH]; intros rs h; simpl; frame.
Qed.
#[local] Hint Resolve always_visualActions : frame.

Lemma always_invalidateCache : always R (invalidateCache env).
Proof. unfold invalidateCache. frame. Qed.
#[local] Hint Resolve always_invalidateCache : frame.

Lemma always_visualLog i response : always R (visualLog env po i response).
Proof. unfold visualLog. frame. Qed.
#[local] Hint Resolve always_visualLog : frame.

Lemma always_visualLoop remaining contents h :
  always R (visualLoop env po remaining contents h).
Proof.
  revert contents h.
  induction remaining as [| n IH]; intros contents h; simpl; frame.
Qed.
#[local] Hint Resolve always_visualLoop : frame.

Lemma always_runVisualDelegate instruction shot :
  always R (runVisualDelegate env po instruction shot).
Proof. unfold runVisualDelegate. frame. Qed.
#[local] Hint Resolve always_runVisualDelegate : frame.

Lemma always_announceCalls calls : always R (announceCalls env po calls).
Proof.
  induction calls as [| call rest IH]; simpl; [frame |].
  apply always_bind; [unfold announceCall; frame | intros _; exact IH].
Qed.
#[local] Hint Resolve always_announceCalls : frame.

Lemma always_onChunk chunk acc : always R (onChunk env po chunk acc).
Proof. unfold onChunk. frame. Qed.
#[local] Hint Resolve always_onChunk : frame.

Lemma always_forAwait evs ending acc :
  always R (forAwait env po evs ending acc).
Proof.
  revert acc. induction evs as [| event rest IH]; intros acc; simpl; frame.
Qed.

Lemma directHandler_not_snapshot fnName :
  directHandler fnName = None -> (fnName =? "take_snapshot") = false.
Proof.
  unfold directHandler.
  repeat match goal with
         | |- context [if ?c then _ else _] =>
           destruct c eqn:?; try discriminate
         end.
  intros _. reflexivity.
Qed.

Lemma always_dispatchSwitch fnName fnArgs flags :
  always R (dispatchSwitch env po fnName fnArgs flags).
Proof.
  unfold dispatchSwitch.
  destruct (fnName =? "complete_task"); [frame |].
  destruct (fnName =? "delegate_to_visual_agent"); [frame |].
  destruct (directHandler fnName) as [[[m keys] orError] |] eqn:Hd; [frame |].
  destruct (existsb (String.eqb fnName) semanticToolNames); [| frame].
  apply always_bind; [frame | intros _].
  apply always_bind; [| intros res; frame].
  apply always_await. unfold dispatchEvent. simpl.
  rewrite (directHandler_not_snapshot _ Hd). reflexivity.
Qed.
#[local] Hint Resolve always_dispatchSwitch : frame.

Lemma always_guardedDispatch fnName fnArgs flags :
  always R (guardedDispatch env po fnName fnArgs flags).
Proof. unfold guardedDispatch. frame. Qed.
#[local] Hint Resolve always_guardedDispatch : frame.

Lemma always_executeTools calls inputParts flags :
  always R (executeTools env po calls inputParts flags).
Proof.
  revert inputParts flags.
  induction calls as [| call rest IH]; intros inputParts flags; simpl; frame.
Qed.
#[local] Hint Resolve always_executeTools : frame.

Lemma always_executePhase ls calls :
  always R (executePhase env po ls calls).
Proof.
  unfold executePhase. destruct calls as [| c cs]; [frame |].
  apply always_bind; [frame | intros [inputParts [completed summary]]].
  destruct completed; frame.
Qed.

End Frame.

(** ** Nothing escapes the loop *)

Create HintDb safety.

Lemma safe_if {A} (c : bool) (m1 m2 : M A) :
  safe m1 -> safe m2 -> safe (if c then m1 else m2).
Proof. destruct c; auto. Qed.

Lemma safe_signalAborted env : safe (signalAborted env).
Proof. intros st. eexists. reflexivity. Qed.

Lemma safe_printOutput po msg : safe (printOutput po msg).
Proof. intros st. exists tt. unfold printOutput. destruct po; reflexivity. Qed.

Lemma safe_debugLog msg : safe (debugLog msg).
Proof. apply safe_ret. Qed.

#[global] Hint Resolve safe_signalAborted safe_printOutput safe_debugLog
  : safety.

Ltac safety :=
  repeat first
    [ solve [ auto with safety ]
    | apply safe_ret
    | apply safe_bind; [ | intros ? ]
    | apply safe_tryCatch; intros ?
    | progress cbv zeta
    | apply safe_if
    | match goal with
      | |- safe (match ?x with _ => _ end) => destruct x
      end ].

Lemma safe_captureState env : safe (captureState env).
Proof. unfold captureState. safety. Qed.

Lemma safe_callModel env po parts : safe (callModel env po parts).
Proof. unfold callModel. safety. Qed.

Lemma safe_guardedDispatch env po fnName fnArgs flags :
  safe (guardedDispatch env po fnName fnArgs flags).
Proof. unfold guardedDispatch. safety. Qed.
#[global] Hint Resolve safe_guardedDispatch : safety.

Lemma safe_executeTools env po calls inputParts flags :
  safe (executeTools env po calls inputParts flags).
Proof.
  revert inputParts flags.
  induction calls as [| call rest IH]; intros inputParts flags; simpl; safety.
Qed.

#[global] Hint Resolve safe_captureState safe_callModel safe_executeTools
  : safety.

Lemma safe_executePhase env po ls calls : safe (executePhase env po ls calls).
Proof.
  unfold executePhase. destruct calls as [| c cs]; [safety |].
  apply safe_bind; [safety | intros [inputParts [completed summary]]].
  destruct completed; safety.
Qed.
#[global] Hint Resolve safe_executePhase : safety.

Lemma safe_loopBody env po ls : safe (loopBody env po ls).
Proof. unfold loopBody. safety. Qed.
#[global] Hint Resolve safe_loopBody : safety.

Lemma safe_whileFrom env po remaining c : safe (whileFrom env po remaining c).
Proof.
  revert c. induction remaining as [| n IH]; intros [ls | ls | msg]; simpl;
    safety.
Qed.
#[global] Hint Resolve safe_whileFrom : safety.

(** Once the task loop is entered, [runTask] returns a string. *)
Lemma safe_taskLoop env po prompt : safe (taskLoop env po prompt).
Proof. unfold taskLoop. safety. Qed.

(** ** The pieces of a turn *)

(** State capture always yields a snapshot text; it asks for the client,
    and for the snapshot if the client was obtained. *)
Lemma captureState_run env st :
  exists dom evs,
    captureState env st = (Ok dom, after evs st) /\
    (evs = [EvGetMcpClient; EvCallTool "take_snapshot" captureArgs] /\
     getMcpClient env (clock st) = Ok tt
     \/ evs = [EvGetMcpClient] /\
        exists e, getMcpClient env (clock st) = Throw e).
Proof.
  unfold captureState, tryCatch, bind, await, ret. simpl.
  destruct (getMcpClient env (clock st)) as [[] | e] eqn:Hc.
  - destruct (callTool env (S (clock st)) "take_snapshot" captureArgs)
      as [res | e'];
      eexists; exists [EvGetMcpClient; EvCallTool "take_snapshot" captureArgs];
      (split; [| left; split; reflexivity]);
      unfold after, ticked; simpl; rewrite <- app_assoc; simpl;
      repeat f_equal; lia.
  - exists "", [EvGetMcpClient]. split; [| right; split; eauto].
    unfold after, ticked; simpl. repeat f_equal; lia.
Qed.

Lemma silent_refl st : silent st st.
Proof. repeat split. Qed.

Lemma silent_trans a b c : silent a b -> silent b c -> silent a c.
Proof. unfold silent. intuition congruence. Qed.

Lemma onChunk_run env po chunk acc st :
  exists text st',
    onChunk env po chunk acc st
    = (Ok (fst acc ^^ text, snd acc ++ chunkCalls (CHUNK chunk)), st') /\
    silent st st' /\ clock st' = clock st.
Proof.
  assert (Hp : forall msg s, exists s',
             printOutput po msg s = (Ok tt, s') /\ silent s s'
             /\ clock s' = clock s).
  { intros msg s. unfold printOutput. destruct po; eexists;
      (split; [reflexivity | repeat split]). }
  assert (Ha : forall calls s, exists s',
             announceCalls env po calls s = (Ok tt, s') /\ silent s s'
             /\ clock s' = clock s).
  { induction calls as [| call rest IH]; intros s; simpl.
    - exists s. repeat split.
    - assert (Hc : exists s1, announceCall env po call s = (Ok tt, s1)
                              /\ silent s s1 /\ clock s1 = clock s).
      { unfold announceCall.
        repeat match goal with
               | |- context [match ?x with _ => _ end] => destruct x
               end; apply Hp. }
      destruct Hc as (s1 & H1 & Hs1 & Hk1).
      destruct (IH s1) as (s2 & H2 & Hs2 & Hk2).
      exists s2. rewrite (bind_ok _ _ _ H1). split; [exact H2 |].
      split; [eapply silent_trans; eauto | congruence]. }
  unfold onChunk. cbv zeta.
  match goal with
  | |- context [bind ?m _] =>
    assert (Ht : exists s1, m st = (Ok tt, s1) /\ silent st s1
                            /\ clock s1 = clock st)
  end.
  { destruct (find p_thought _).
    - destruct (_ =? ""); [exists st; repeat split | apply Hp].
    - exists st. repeat split. }
  destruct Ht as (s1 & H1 & Hs1 & Hk1).
  rewrite (bind_ok _ _ _ H1). simpl.
  destruct (ch_functionCalls chunk) as [calls |].
  - assert (Hb : exists s2,
               (if po then announceCalls env po calls else ret tt) s1 = (Ok tt, s2)
               /\ silent s1 s2 /\ clock s2 = clock s1).
    { destruct po; [apply Ha | exists s1; repeat split]. }
    destruct Hb as (s2 & H2 & Hs2 & Hk2).
    rewrite (bind_ok _ _ _ H2). eexists; exists s2.
    split; [reflexivity |].
    split; [eapply silent_trans; eauto | congruence].
  - eexists; exists s1. rewrite app_nil_r. split; [reflexivity |].
    split; [assumption | congruence].
Qed.

Lemma forAwait_run env po evs ending acc st :
  exists r st',
    forAwait env po evs ending acc st = (r, st') /\
    silent st st' /\ clock st < clock st' /\
    match r with
    | Ok acc' =>
      (snd acc' = snd acc ++ flat_map chunkCalls evs /\ ending = None)
      \/ abortedAt env (clock st') = true
    | Throw e => ending = Some e
    end.
Proof.
  revert acc st. induction evs as [| event rest IH]; intros acc st.
  - simpl. unfold bind, awaitNext. destruct ending as [e |]; simpl.
    + eexists; eexists. split; [reflexivity |].
      repeat split; simpl; auto.
    + eexists; eexists. split; [reflexivity |].
      repeat split; simpl; auto. left. rewrite app_nil_r. auto.
  - simpl. unfold bind at 1. unfold awaitNext at 1.
    unfold bind at 1. unfold signalAborted at 1. simpl.
    match goal with
    | |- context [abortedAt env ?t] => destruct (abortedAt env t) eqn:Hab
    end.
    + eexists; eexists. split; [reflexivity |].
      repeat split; simpl; auto.
    + assert (He : exists acc1 s1,
                 match event with
                 | CHUNK chunk => onChunk env po chunk acc
                 | OtherEvent => ret acc
                 end
                   {| clock := S (clock st); streams := streams st;
                      gens := gens st; trace := trace st;
                      printed := printed st |} = (Ok acc1, s1) /\
                 snd acc1 = snd acc ++ chunkCalls event /\
                 silent st s1 /\ clock s1 = S (clock st)).
      { destruct event as [chunk |].
        - match goal with
          | |- context [onChunk env po chunk acc ?s] =>
            destruct (onChunk_run env po chunk acc s)
              as (text & s1 & H1 & Hs & Hk)
          end.
          eexists; exists s1. split; [exact H1 |]. simpl in *.
          split; [reflexivity |]. split; assumption.
        - exists acc; eexists. split; [reflexivity |]. simpl.
          rewrite app_nil_r. repeat split. }
      destruct He as (acc1 & s1 & H1 & Hcalls & Hs1 & Hk1).
      rewrite (bind_ok _ _ _ H1).
      destruct (IH acc1 s1) as (r & st' & Hr & Hs & Hk & Hres).
      exists r, st'. split; [exact Hr |].
      split; [eapply silent_trans; eauto |].
      split; [lia |].
      destruct r as [acc' | e]; [| exact Hres].
      destruct Hres as [[Hc He] | Ha]; [left | right; exact Ha].
      split; [| exact He]. rewrite Hc, Hcalls, <- app_assoc. reflexivity.
Qed.

(** The model call of a turn: it is counted and traced once, never throws,
    and leaves the calls of the whole stream unless the stream failed or
    the signal was seen aborted at its end. *)
Lemma callModel_run env po messageParts st :
  exists turn st',
    callModel env po messageParts st = (Ok turn, st') /\
    streams st' = S (streams st) /\ gens st' = gens st /\
    trace st' = trace st ++ [EvSendMessageStream messageParts] /\
    clock st < clock st' /\
    match turn with
    | Collected _ calls =>
      exists s, sendMessageStream env (streams st) messageParts = Ok s /\
                failure s = None /\ calls = streamCalls s /\
                abortedAt env (clock st') = false
    | CancelledAfterStream => abortedAt env (clock st') = true
    | ModelFailed msg =>
      exists e, msg = "Error calling model: " ^^ errorText e /\
                (sendMessageStream env (streams st) messageParts = Throw e
                 \/ exists s,
                      sendMessageStream env (streams st) messageParts = Ok s
                      /\ failure s = Some e)
    end.
Proof.
  assert (Hp : forall msg s, exists s',
             printOutput po msg s = (Ok tt, s') /\ silent s s'
             /\ clock s' = clock s).
  { intros msg s. unfold printOutput. destruct po; eexists;
      (split; [reflexivity | repeat split]). }
  assert (Hh : forall e s, exists s',
             (let msg := "Error calling model: " ^^ errorText e in
              (if includes "Model stream ended with empty response text" msg
               then debugLog "Warning: Caught empty stream error from model. Continuing..."
               else ret tt) ;;
              debugLog msg ;; printOutput po msg ;; ret (ModelFailed msg)) s
             = (Ok (ModelFailed ("Error calling model: " ^^ errorText e)), s')
             /\ silent s s' /\ clock s' = clock s).
  { intros e s. cbv zeta.
    destruct (Hp ("Error calling model: " ^^ errorText e) s)
      as (s' & H1 & Hs & Hk).
    exists s'. split; [| split; assumption].
    unfold bind, debugLog, ret.
    destruct (includes _ _); rewrite H1; reflexivity. }
  unfold callModel, tryCatch.
  unfold bind at 1. unfold awaitSendMessageStream at 1.
  set (s0 := countStream (ticked (EvSendMessageStream messageParts) st)).
  destruct (sendMessageStream env (streams st) messageParts) as [s | e] eqn:Hs.
  - destruct (forAwait_run env po (events s) (failure s) ("", []) s0)
      as (r & s1 & Hr & Hsil & Hk & Hres).
    unfold bind at 1. rewrite Hr.
    destruct Hsil as (Ht1 & Hst1 & Hg1).
    destruct r as [acc | e].
    + unfold bind at 1. unfold signalAborted at 1. simpl.
      destruct (abortedAt env (clock s1)) eqn:Hab.
      * destruct (Hp cancelNotice s1) as (s2 & H2 & (Ht2 & Hst2 & Hg2) & Hk2).
        exists CancelledAfterStream, s2.
        rewrite (bind_ok _ _ _ H2). split; [reflexivity |].
        repeat split; try (simpl in *; congruence); simpl in *; lia.
      * exists (Collected (fst acc) (snd acc)), s1.
        split; [reflexivity |].
        repeat split; try (simpl in *; congruence); try (simpl in *; lia).
        destruct Hres as [[Hc He] | Ha]; [| congruence].
        exists s. simpl in Hc. repeat split; auto.
    + destruct (Hh e s1) as (s2 & H2 & (Ht2 & Hst2 & Hg2) & Hk2).
      exists (ModelFailed ("Error calling model: " ^^ errorText e)), s2.
      split; [exact H2 |].
      repeat split; try (simpl in *; congruence); try (simpl in *; lia).
      exists e. split; [reflexivity |]. right. exists s. auto.
  - destruct (Hh e s0) as (s2 & H2 & (Ht2 & Hst2 & Hg2) & Hk2).
    exists (ModelFailed ("Error calling model: " ^^ errorText e)), s2.
    split; [exact H2 |].
    repeat split; try (simpl in *; congruence); try (simpl in *; lia).
    exists e. split; [reflexivity |]. left. reflexivity.
Qed.

Lemma printOutput_run po msg st :
  printOutput po msg st = (Ok tt, snd (printOutput po msg st)).
Proof. unfold printOutput. destruct po; reflexivity. Qed.

Lemma printOutput_silent po msg st :
  silent st (snd (printOutput po msg st))
  /\ clock (snd (printOutput po msg st)) = clock st.
Proof. unfold printOutput. destruct po; repeat split. Qed.

(** ** Dispatching the calls of a turn *)

Lemma keeps_ret {A} (a : A) flags : keeps flags (ret (a, flags)).
Proof. intros st r st' H. inversion H. reflexivity. Qed.

Lemma keeps_throw {A} flags (e : Thrown) :
  keeps flags (@throw (A * (bool * JsVal)) e).
Proof. intros st r st' H. discriminate. Qed.

Lemma keeps_bind {A B} flags (m : M A) (f : A -> M (B * (bool * JsVal))) :
  (forall a, keeps flags (f a)) -> keeps flags (bind m f).
Proof.
  intros Hf st r st'. unfold bind.
  destruct (m st) as [[a | e] s1]; [apply Hf | discriminate].
Qed.

Lemma keeps_tryCatch {A} flags (m : M (A * (bool * JsVal))) h :
  keeps flags m -> (forall e, keeps flags (h e)) -> keeps flags (tryCatch m h).
Proof.
  intros Hm Hh st r st'. unfold tryCatch.
  destruct (m st) as [[a | e] s1] eqn:E.
  - intros H. inversion H; subst. eapply Hm; eauto.
  - apply Hh.
Qed.

Lemma dispatchSwitch_other env po fnName fnArgs flags :
  (fnName =? "complete_task") = false ->
  keeps flags (dispatchSwitch env po fnName fnArgs flags).
Proof.
  intros Hn. unfold dispatchSwitch. rewrite Hn.
  repeat first
    [ apply keeps_ret
    | apply keeps_throw
    | apply keeps_bind; intros ?
    | apply keeps_tryCatch; [ | intros ? ]
    | match goal with
      | |- keeps _ (match ?x with _ => _ end) => destruct x
      end ].
Qed.

Lemma dispatchSwitch_complete env po fnArgs flags st :
  let summary := or_value (lookup "summary" fnArgs) "Task completed" in
  dispatchSwitch env po "complete_task" fnArgs flags st
  = (Ok (TextContent summary, (true, summary)),
     snd (printOutput po
            ("✅ " ^^ js_String (numberToString env) summary) st)).
Proof.
  unfold dispatchSwitch. simpl.
  rewrite (bind_ok _ _ _ (printOutput_run _ _ _)). reflexivity.
Qed.

(** What one guarded dispatch leaves: always a response, and the flags of
    a completion exactly when the call is [complete_task]. *)
Lemma guardedDispatch_run env po call flags st :
  exists body st',
    guardedDispatch env po
      (match fc_name call with Some n => n | None => "" end)
      (argsOf call) flags st
    = (Ok (body, if isCompletion call then (true, summaryOf call) else flags),
       st') /\
    (isCompletion call = true -> body = TextContent (summaryOf call)).
Proof.
  unfold isCompletion, summaryOf.
  destruct (fc_name call) as [n |].
  - destruct (n =? "complete_task") eqn:Hn.
    + apply String.eqb_eq in Hn. subst n.
      unfold guardedDispatch, tryCatch. rewrite dispatchSwitch_complete.
      eexists; eexists. split; [reflexivity | reflexivity].
    + destruct (safe_guardedDispatch env po n (argsOf call) flags st)
        as [[body flags'] Hs].
      destruct (guardedDispatch env po n (argsOf call) flags st)
        as [r st'] eqn:E.
      simpl in Hs. subst r. exists body, st'.
      split; [| discriminate].
      assert (Hk : keeps flags (guardedDispatch env po n (argsOf call) flags)).
      { apply keeps_tryCatch;
          [apply dispatchSwitch_other, Hn | intros e; apply keeps_ret]. }
      apply Hk in E. simpl in E. subst flags'. reflexivity.
  - destruct (safe_guardedDispatch env po "" (argsOf call) flags st)
      as [[body flags'] Hs].
    destruct (guardedDispatch env po "" (argsOf call) flags st)
      as [r st'] eqn:E.
    simpl in Hs. subst r. exists body, st'.
    split; [| discriminate].
    assert (Hk : keeps flags (guardedDispatch env po "" (argsOf call) flags)).
    { apply keeps_tryCatch;
        [apply dispatchSwitch_other; reflexivity | intros e; apply keeps_ret]. }
    apply Hk in E. simpl in E. subst flags'. reflexivity.
Qed.

Ltac sameStreams_frame :=
  unfold sameStreams; intros; simpl; solve [reflexivity | congruence].

Lemma guardedDispatch_streams env po n a flags st :
  streams (snd (guardedDispatch env po n a flags st)) = streams st.
Proof.
  apply always_guardedDispatch with (R := sameStreams); sameStreams_frame.
Qed.

(** The dispatch loop of a turn.  Some prefix of the calls is dispatched,
    all of them unless the signal was seen aborted; each dispatched call
    that has a name is answered, in order; the flags are those of the
    dispatched calls. *)
Lemma executeTools_run env po calls inputParts flags st :
  exists dispatched skipped responses st',
    executeTools env po calls inputParts flags st
    = (Ok (inputParts ++ responses, flagsAfter dispatched flags), st') /\
    calls = dispatched ++ skipped /\
    Forall2 answers (filter hasName dispatched) responses /\
    (skipped = [] \/ abortedAt env (clock st') = true) /\
    streams st' = streams st.
Proof.
  revert inputParts flags st.
  induction calls as [| call rest IH]; intros inputParts flags st.
  - exists [], [], [], st. simpl. rewrite app_nil_r.
    repeat split; auto.
  - simpl. unfold bind at 1. unfold signalAborted at 1. simpl.
    destruct (abortedAt env (clock st)) eqn:Hab.
    + exists [], (call :: rest), [], (snd (printOutput po cancelNotice st)).
      rewrite (bind_ok _ _ _ (printOutput_run _ _ _)).
      destruct (printOutput_silent po cancelNotice st) as ((_ & Hs & _) & Hk).
      simpl. rewrite app_nil_r.
      repeat split; auto. right. rewrite Hk. exact Hab.
    + destruct (match fc_name call with Some n => n | None => "" end =? "")
        eqn:Hname.
      * rewrite (bind_ok _ _ _ (printOutput_run _ _ _)).
        match goal with
        | |- context [executeTools env po rest inputParts flags ?s] =>
          destruct (IH inputParts flags s)
            as (d & k & rs & st' & Hrun & Hcalls & Hans & Hskip & Hst);
          destruct (printOutput_silent po
                      "❌ Warning: Received function call without name" st)
            as ((_ & Hs & _) & _)
        end.
        exists (call :: d), k, rs, st'.
        assert (Hc : isCompletion call = false).
        { unfold isCompletion. destruct (fc_name call) as [n |]; auto.
          apply String.eqb_eq in Hname. subst n. reflexivity. }
        assert (Hh : hasName call = false).
        { unfold hasName. destruct (fc_name call) as [n |]; auto.
          rewrite Hname. reflexivity. }
        simpl. rewrite Hc, Hh. rewrite Hrun.
        repeat split; auto; congruence.
      * rewrite (bind_ok _ _ _ (printOutput_run _ _ _)).
        match goal with
        | |- context [bind (guardedDispatch env po _ _ flags) _ ?s] =>
          destruct (guardedDispatch_run env po call flags s)
            as (body & s1 & Hg & _);
          pose proof (guardedDispatch_streams env po
                        (match fc_name call with Some n => n | None => "" end)
                        (argsOf call) flags s) as Hfr
        end.
        rewrite (bind_ok _ _ _ Hg). simpl fst. simpl snd.
        rewrite Hg in Hfr. simpl in Hfr.
        match goal with
        | |- context [executeTools env po rest ?ps ?fl s1] =>
          destruct (IH ps fl s1)
            as (d & k & rs & st' & Hrun & Hcalls & Hans & Hskip & Hst)
        end.
        destruct (printOutput_silent po
                    ("🔧 Executing "
                     ^^ match fc_name call with Some n => n | None => "" end
                     ^^ "(" ^^ stringifyArgs env (argsOf call) ^^ ")") st)
          as ((_ & Hs & _) & _).
        assert (Hh : hasName call = true).
        { unfold hasName. destruct (fc_name call) as [n |];
            [rewrite Hname; reflexivity | discriminate]. }
        assert (Hn : fc_name call
                     = Some match fc_name call with Some n => n | None => "" end).
        { destruct (fc_name call); [reflexivity | discriminate]. }
        eexists (call :: d), k, (_ :: rs), st'.
        rewrite Hrun. simpl. rewrite Hh, <- app_assoc. simpl.
        repeat split; auto; try congruence;
          try (rewrite Hst, Hfr; exact Hs).
        constructor; [| exact Hans].
        eexists. rewrite Hn at 2. reflexivity.
Qed.

Lemma or_value_truthy x d : truthy d = true -> truthy (or_value x d) = true.
Proof.
  intros Hd. unfold or_value. destruct x as [v |]; [| exact Hd].
  destruct (truthy v) eqn:E; [exact E | exact Hd].
Qed.

Lemma summaryOf_truthy call : truthy (summaryOf call) = true.
Proof. apply or_value_truthy. reflexivity. Qed.

Lemma flagsAfter_app a b flags :
  flagsAfter (a ++ b) flags = flagsAfter b (flagsAfter a flags).
Proof.
  revert flags. induction a as [| c a IH]; intros flags; simpl; auto.
Qed.

Lemma flagsAfter_none calls flags :
  forallb (fun c => negb (isCompletion c)) calls = true ->
  flagsAfter calls flags = flags.
Proof.
  revert flags. induction calls as [| c rest IH]; intros flags H; simpl in *.
  - reflexivity.
  - apply andb_prop in H. destruct H as [Hc Hr].
    destruct (isCompletion c); [discriminate | auto].
Qed.

(** The flags stay as they were, or record a completion with its text. *)
Lemma flagsAfter_cases calls flags :
  flagsAfter calls flags = flags
  \/ fst (flagsAfter calls flags) = true
     /\ truthy (snd (flagsAfter calls flags)) = true.
Proof.
  revert flags. induction calls as [| c rest IH]; intros flags; simpl.
  - left. reflexivity.
  - destruct (isCompletion c).
    + destruct (IH (true, summaryOf c)) as [H | H]; [| right; exact H].
      right. rewrite H. split; [reflexivity | apply summaryOf_truthy].
    + apply IH.
Qed.

(** The dispatch phase of a turn, and the turn count after it. *)
Lemma executePhase_run env po ls calls st :
  exists c st',
    executePhase env po ls calls st = (Ok c, st') /\
    streams st' = streams st /\
    match calls with
    | [] =>
      c = Continue {| currentInputParts := [textPart rePrompt];
                      iterationCount := S (iterationCount ls);
                      taskCompleted := taskCompleted ls;
                      taskSummary := taskSummary ls |}
    | _ :: _ =>
      exists dispatched skipped responses,
        calls = dispatched ++ skipped /\
        Forall2 answers (filter hasName dispatched) responses /\
        (skipped = [] \/ abortedAt env (clock st') = true) /\
        let flags :=
          flagsAfter dispatched (taskCompleted ls, taskSummary ls) in
        c = if fst flags
            then Break {| currentInputParts := responses;
                          iterationCount := iterationCount ls;
                          taskCompleted := fst flags;
                          taskSummary := snd flags |}
            else Continue {| currentInputParts := responses;
                             iterationCount := S (iterationCount ls);
                             taskCompleted := fst flags;
                             taskSummary := snd flags |}
    end.
Proof.
  unfold executePhase. destruct calls as [| call rest].
  - rewrite (bind_ok _ _ _ (printOutput_run _ _ _)).
    eexists; eexists. split; [reflexivity |].
    split; [apply printOutput_silent | reflexivity].
  - destruct (executeTools_run env po (call :: rest) []
                (taskCompleted ls, taskSummary ls) st)
      as (d & k & rs & st' & Hrun & Hcalls & Hans & Hskip & Hst).
    rewrite (bind_ok _ _ _ Hrun). simpl app.
    destruct (flagsAfter d (taskCompleted ls, taskSummary ls))
      as [completed summary] eqn:Hf.
    exists (if completed
            then Break {| currentInputParts := rs;
                          iterationCount := iterationCount ls;
                          taskCompleted := completed;
                          taskSummary := summary |}
            else Continue {| currentInputParts := rs;
                             iterationCount := S (iterationCount ls);
                             taskCompleted := completed;
                             taskSummary := summary |}), st'.
    split; [destruct completed; reflexivity |].
    split; [exact Hst |].
    exists d, k, rs. rewrite Hf. simpl. auto.
Qed.

Lemma bind_signalAborted {B} env (f : bool -> M B) st :
  bind (signalAborted env) f st = f (abortedAt env (clock st)) st.
Proof. reflexivity. Qed.

(** ** One pass through the body of the loop *)

Lemma loopBody_run env po ls st :
  TurnRun env po ls st (fst (loopBody env po ls st))
          (snd (loopBody env po ls st)).
Proof.
  unfold loopBody. rewrite bind_signalAborted.
  destruct (abortedAt env (clock st)) eqn:H0.
  - rewrite (bind_ok _ _ _ (printOutput_run _ _ _)).
    apply CancelledAtTop, H0.
  - destruct (captureState_run env st) as (dom & evs & Hc & _).
    rewrite (bind_ok _ _ _ Hc), bind_signalAborted.
    destruct (abortedAt env (clock (after evs st))) eqn:H1.
    + rewrite (bind_ok _ _ _ (printOutput_run _ _ _)).
      eapply CancelledAfterCapture; eauto.
    + destruct (callModel_run env po (messagePartsOf dom ls) (after evs st))
        as (turn & st2 & Hm & _).
      rewrite (bind_ok _ _ _ Hm).
      eapply ModelCalled; eauto.
      destruct turn as [text calls | | msg]; simpl; auto.
      apply surjective_pairing.
Qed.

(** What a turn does to the counters and the flags, when it starts with no
    completion recorded. *)
Lemma loopBody_step env po ls st :
  taskCompleted ls = false -> taskSummary ls = "" ->
  exists c st',
    loopBody env po ls st = (Ok c, st') /\
    streams st <= streams st' <= S (streams st) /\
    match c with
    | Continue ls' =>
      iterationCount ls' = S (iterationCount ls) /\
      taskCompleted ls' = false /\ taskSummary ls' = ""
    | Break ls' =>
      iterationCount ls' = iterationCount ls /\
      (taskCompleted ls' = true /\ truthy (taskSummary ls') = true
       \/ taskCompleted ls' = false /\ taskSummary ls' = "")
    | Return _ => True
    end.
Proof.
  intros Hc0 Hs0.
  pose proof (loopBody_run env po ls st) as H.
  destruct (loopBody env po ls st) as [r st'] eqn:E. simpl in H.
  inversion H; subst; clear H.
  - eexists; eexists. split; [reflexivity |].
    destruct (printOutput_silent po cancelNotice st) as ((_ & Hs & _) & _).
    split; [lia | auto].
  - eexists; eexists. split; [reflexivity |].
    destruct (printOutput_silent po cancelNotice (after evs st))
      as ((_ & Hs & _) & _).
    split; [simpl in *; lia | auto].
  - match goal with
    | Hm : callModel _ _ _ _ = _ |- _ =>
      destruct (callModel_run env po (messagePartsOf dom ls) (after evs st))
        as (turn' & st2' & Hm' & Hst & _);
      rewrite Hm in Hm'; inversion Hm'; subst turn' st2'; clear Hm'
    end.
    simpl in Hst.
    destruct turn as [text calls | | msg].
    + destruct (executePhase_run env po ls calls st2)
        as (c & st3 & He & Hst3 & Hshape).
      match goal with
      | Hx : executePhase _ _ _ _ _ = _ |- _ => rewrite He in Hx;
          inversion Hx; subst r st'; clear Hx
      end.
      exists c, st3. split; [reflexivity |]. split; [lia |].
      destruct calls as [| call rest].
      * subst c. simpl. auto.
      * destruct Hshape as (d & k & rs & _ & _ & _ & Hc). cbv zeta in Hc.
        rewrite Hc0, Hs0 in Hc.
        destruct (flagsAfter_cases d (false, JStr "")) as [Hf | [Hf1 Hf2]].
        -- rewrite Hf in Hc. subst c. simpl. auto.
        -- rewrite Hf1 in Hc. subst c. simpl. auto.
    + match goal with
      | Hx : _ /\ _ |- _ => destruct Hx as [-> ->]
      end.
      eexists; eexists. split; [reflexivity |]. split; [lia | auto].
    + match goal with
      | Hx : _ /\ _ |- _ => destruct Hx as [-> ->]
      end.
      eexists; eexists. split; [reflexivity |]. split; [lia | auto].
Qed.

(** The recursion of [whileFrom] is the loop's own: the turn count goes up
    by one with each pass that reaches the end of the body. *)
Lemma whileFrom_count env po ls st ls' st' :
  loopBody env po ls st = (Ok (Continue ls'), st') ->
  iterationCount ls' = S (iterationCount ls).
Proof.
  intros E.
  pose proof (loopBody_run env po ls st) as H. rewrite E in H. simpl in H.
  inversion H; subst; clear H.
  destruct turn as [text calls | | msg];
    try match goal with
        | Hx : _ /\ _ |- _ => destruct Hx as [Hx _]; discriminate
        end.
  destruct (executePhase_run env po ls calls st2)
    as (c & st3 & He & _ & Hshape).
  match goal with
  | Hx : executePhase _ _ _ _ _ = _ |- _ =>
    rewrite He in Hx; inversion Hx; subst c st3; clear Hx
  end.
  destruct calls as [| call rest].
  - inversion Hshape. reflexivity.
  - destruct Hshape as (d & k & rs & _ & _ & _ & Hc). cbv zeta in Hc.
    destruct (fst (flagsAfter d (taskCompleted ls, taskSummary ls)));
      inversion Hc. reflexivity.
Qed.

Lemma whileFrom_run env po remaining ls st :
  taskCompleted ls = false -> taskSummary ls = "" ->
  exists exit st',
    whileFrom env po remaining (Continue ls) st = (Ok exit, st') /\
    streams st <= streams st' <= streams st + remaining /\
    forall ls', exit = Exited ls' ->
      iterationCount ls <= iterationCount ls'
      /\ iterationCount ls' <= iterationCount ls + remaining /\
      (taskCompleted ls' = true ->
       iterationCount ls' < iterationCount ls + remaining
       /\ truthy (taskSummary ls') = true) /\
      (taskCompleted ls' = false -> taskSummary ls' = "").
Proof.
  revert ls st. induction remaining as [| n IH]; intros ls st Hc0 Hs0.
  - exists (Exited ls), st. simpl. split; [reflexivity |].
    split; [lia |]. intros ls' E. inversion E; subst ls'.
    repeat split; try lia; try congruence.
  - destruct (@loopBody_step env po ls st Hc0 Hs0) as (c & st1 & Hb & Hst & Hc).
    simpl. rewrite (bind_ok _ _ _ Hb).
    destruct c as [ls1 | ls1 | msg].
    + destruct Hc as (Hi & Hc1 & Hs1).
      destruct (IH ls1 st1 Hc1 Hs1) as (exit & st' & Hw & Hst' & Hexit).
      exists exit, st'. split; [exact Hw |]. split; [lia |].
      intros ls' E. destruct (Hexit ls' E) as (H1 & H2 & H3 & H4).
      split; [lia |]. split; [lia |].
      split; [| exact H4].
      intros Ht. destruct (H3 Ht). split; [lia | assumption].
    + exists (Exited ls1), st1. destruct n; (split; [reflexivity |]);
        (split; [lia |]); intros ls' E; inversion E; subst ls';
        destruct Hc as (Hi & [[Ht Hs] | [Ht Hs]]);
        repeat split; try lia; try congruence.
    + exists (Returned msg), st1. destruct n; (split; [reflexivity |]);
        (split; [lia |]); intros ls' E; discriminate.
Qed.

(** ** What a turn adds to the trace *)

Lemma quietTrace_refl st : quietTrace st st.
Proof. exists []. rewrite app_nil_r. auto. Qed.

Lemma quietTrace_trans a b c : quietTrace a b -> quietTrace b c -> quietTrace a c.
Proof.
  intros (e1 & H1 & F1) (e2 & H2 & F2). exists (e1 ++ e2).
  rewrite H2, H1, app_assoc. split; [reflexivity | apply Forall_app; auto].
Qed.

Lemma executePhase_trace env po ls calls st :
  quietTrace st (snd (executePhase env po ls calls st)).
Proof.
  apply always_executePhase with (R := quietTrace);
    first
      [ apply quietTrace_refl
      | apply quietTrace_trans
      | intros;
        match goal with
        | |- quietTrace ?a (ticked ?ev ?a) =>
          exists [ev]; split; [reflexivity | auto]
        | |- quietTrace _ _ =>
          exists []; simpl; rewrite app_nil_r; auto
        end ].
Qed.

(** The calls of one pass through the body, in order: those of the state
    capture, then the model call with the payload built from the captured
    snapshot, then what dispatching issues. *)
Lemma loopBody_trace env po ls st :
  exists capture rest,
    trace (snd (loopBody env po ls st)) = trace st ++ capture ++ rest /\
    (abortedAt env (clock st) = true /\ capture = [] /\ rest = []
     \/ abortedAt env (clock st) = false /\
        (capture = captureEvents /\ getMcpClient env (clock st) = Ok tt
         \/ capture = [EvGetMcpClient]
            /\ exists e, getMcpClient env (clock st) = Throw e) /\
        (rest = []
         \/ exists dom tools,
              fst (captureState env st) = Ok dom /\
              rest = EvSendMessageStream (messagePartsOf dom ls) :: tools /\
              Forall (fun ev => dispatchEvent ev = true) tools)).
Proof.
  pose proof (loopBody_run env po ls st) as H.
  destruct (loopBody env po ls st) as [r st'] eqn:E. simpl in H. simpl.
  inversion H; subst; clear H.
  - exists [], []. split; [| left; auto].
    destruct (printOutput_silent po cancelNotice st) as ((Ht & _) & _).
    rewrite Ht, app_nil_r. reflexivity.
  - destruct (captureState_run env st) as (dom' & evs' & Hc' & Hev).
    assert (evs' = evs) as ->.
    { assert (Ha : after evs st = after evs' st) by congruence.
      apply (f_equal trace) in Ha. simpl in Ha.
      apply app_inv_head in Ha. auto. }
    exists evs, []. split.
    + destruct (printOutput_silent po cancelNotice (after evs st))
        as ((Ht & _) & _).
      rewrite Ht, app_nil_r. reflexivity.
    + right. split; [assumption |]. split; [exact Hev | left; reflexivity].
  - destruct (captureState_run env st) as (dom' & evs' & Hc' & Hev).
    assert (evs' = evs) as ->.
    { assert (Ha : after evs st = after evs' st) by congruence.
      apply (f_equal trace) in Ha. simpl in Ha.
      apply app_inv_head in Ha. auto. }
    assert (Hcap : fst (captureState env st) = Ok dom).
    { match goal with
      | Hc : captureState env st = (Ok dom, _) |- _ => rewrite Hc
      end. reflexivity. }
    match goal with
    | Hm : callModel _ _ _ _ = _ |- _ =>
      destruct (callModel_run env po (messagePartsOf dom ls) (after evs st))
        as (turn' & st2' & Hm' & _ & _ & Htr & _);
      rewrite Hm in Hm'; inversion Hm'; subst turn' st2'; clear Hm'
    end.
    simpl in Htr.
    assert (Hq : quietTrace st2 st').
    { destruct turn as [text calls | | msg].
      - match goal with
        | Hx : executePhase _ _ _ _ _ = _ |- _ =>
          pose proof (executePhase_trace env po ls calls st2) as Hq;
            rewrite Hx in Hq; exact Hq
        end.
      - match goal with
        | Hx : _ /\ _ |- _ => destruct Hx as [_ ->]
        end. apply quietTrace_refl.
      - match goal with
        | Hx : _ /\ _ |- _ => destruct Hx as [_ ->]
        end. apply quietTrace_refl. }
    destruct Hq as (tools & Ht & Hf).
    exists evs, (EvSendMessageStream (messagePartsOf dom ls) :: tools).
    split.
    + rewrite Ht, Htr, <- !app_assoc. reflexivity.
    + right. split; [assumption |]. split; [exact Hev |].
      right. exists dom, tools. auto.
Qed.

(** ** A task that is never cancelled *)

Lemma never_aborted env t : abort_at env = None -> abortedAt env t = false.
Proof. intros H. unfold abortedAt. rewrite H. reflexivity. Qed.

(** With no cancellation a pass calls the model, and goes on to dispatch
    all the calls of its stream if the stream ends normally. *)
Lemma loopBody_uncancelled env po ls st :
  abort_at env = None ->
  exists dom st1 st2 st',
    captureState env st = (Ok dom, st1) /\
    streams st2 = S (streams st) /\ streams st' = S (streams st) /\
    snd (loopBody env po ls st) = st' /\
    match sendMessageStream env (streams st) (messagePartsOf dom ls) with
    | Ok s =>
      match failure s with
      | None => executePhase env po ls (streamCalls s) st2
                = (fst (loopBody env po ls st), st')
      | Some e => exists msg, fst (loopBody env po ls st) = Ok (Return msg)
      end
    | Throw e => exists msg, fst (loopBody env po ls st) = Ok (Return msg)
    end.
Proof.
  intros Hab.
  pose proof (loopBody_run env po ls st) as H.
  destruct (loopBody env po ls st) as [r st'] eqn:E. simpl in H. simpl.
  inversion H; subst; clear H;
    try match goal with
        | Hx : abortedAt _ _ = true |- _ =>
          rewrite (never_aborted _ _ Hab) in Hx; discriminate
        end.
  match goal with
  | Hm : callModel _ _ _ _ = _ |- _ =>
    destruct (callModel_run env po (messagePartsOf dom ls) (after evs st))
      as (turn' & st2' & Hm' & Hst & _ & _ & _ & Hturn);
    rewrite Hm in Hm'; inversion Hm'; subst turn' st2'; clear Hm'
  end.
  simpl in Hst, Hturn.
  exists dom, (after evs st), st2, st'.
  split; [assumption |]. split; [assumption |].
  destruct turn as [text calls | | msg].
  - destruct Hturn as (s & Hs & Hf & Hcalls & _).
    match goal with
    | Hx : executePhase _ _ _ _ _ = _ |- _ =>
      destruct (executePhase_run env po ls calls st2)
        as (c & st3 & He & Hst3 & _);
      pose proof Hx as Hx'; rewrite He in Hx; inversion Hx; subst r st';
        clear Hx
    end.
    split; [congruence |]. split; [reflexivity |].
    rewrite Hs, Hf. subst calls. exact Hx'.
  - rewrite (never_aborted _ _ Hab) in Hturn. discriminate.
  - match goal with
    | Hx : _ /\ _ |- _ => destruct Hx as [-> ->]
    end.
    split; [assumption |]. split; [reflexivity |].
    destruct Hturn as (e & _ & [Hs | (s & Hs & Hf)]).
    + rewrite Hs. eauto.
    + rewrite Hs, Hf. eauto.
Qed.

(** ** States and steps *)

Lemma printOutput_streams po msg st :
  streams (snd (printOutput po msg st)) = streams st.
Proof. apply printOutput_silent. Qed.

Lemma newEvents_app st st' evs :
  trace st' = trace st ++ evs -> newEvents st st' = evs.
Proof.
  intros H. unfold newEvents. rewrite H, skipn_app, skipn_all, Nat.sub_diag.
  reflexivity.
Qed.

Lemma after_nil st : after [] st = st.
Proof.
  destruct st. unfold after. simpl. rewrite Nat.add_0_r, app_nil_r.
  reflexivity.
Qed.

Lemma ticked_after ev evs st :
  ticked ev (after evs st) = after (evs ++ [ev]) st.
Proof.
  unfold ticked, after. simpl. rewrite length_app, <- app_assoc. simpl.
  f_equal. lia.
Qed.

Lemma ticked_first ev st : ticked ev st = after [ev] st.
Proof. rewrite <- (after_nil st) at 1. apply ticked_after. Qed.

Lemma after_after evs1 evs2 st :
  after evs2 (after evs1 st) = after (evs1 ++ evs2) st.
Proof.
  unfold after. simpl. rewrite length_app, <- app_assoc. f_equal. lia.
Qed.

(** Nested steps, as one list of calls. *)
Ltac flatten_steps :=
  rewrite ?ticked_first, ?after_after; cbn [app].

Lemma clock_ticked ev st : clock (ticked ev st) = S (clock st).
Proof. reflexivity. Qed.

Lemma newEvents_after evs st : newEvents st (after evs st) = evs.
Proof. apply newEvents_app. reflexivity. Qed.

Lemma abortedAt_mono env t t' :
  abortedAt env t = true -> t <= t' -> abortedAt env t' = true.
Proof.
  unfold abortedAt. destruct (abort_at env) as [n |]; [| discriminate].
  intros H Hle. apply Nat.leb_le in H. apply Nat.leb_le. lia.
Qed.

Lemma printOutput_printed po msg st :
  printed (snd (printOutput po msg st))
  = printed st ++ (if po then [msg] else []).
Proof. unfold printOutput. destruct po; simpl; [| rewrite app_nil_r]; auto. Qed.

Lemma printOutput_trace po msg st :
  trace (snd (printOutput po msg st)) = trace st.
Proof. apply printOutput_silent. Qed.

Lemma runTask_refused env po prompt st e :
  ensureConnection env (clock st) = Throw e ->
  runTask env po prompt st
  = (Ok (JStr ("Error: Failed to connect to browser: " ^^ errorText e)),
     snd (printOutput po
            ("Error: Failed to connect to browser: " ^^ errorText e)
            (ticked EvEnsureConnection st))).
Proof.
  intros H. unfold runTask, tryCatch, bind, await, ret. rewrite H.
  rewrite (printOutput_run po _ _). reflexivity.
Qed.

Lemma runTask_overlay_refused env po prompt st e :
  ensureConnection env (clock st) = Ok tt ->
  updateBorderOverlay env (S (clock st)) false = Throw e ->
  runTask env po prompt st
  = (Ok (JStr ("Error: Failed to connect to browser: " ^^ errorText e)),
     snd (printOutput po
            ("Error: Failed to connect to browser: " ^^ errorText e)
            (ticked (EvUpdateBorderOverlay false)
                    (ticked EvEnsureConnection st)))).
Proof.
  intros H1 H2. unfold runTask, tryCatch, bind, await, ret. rewrite H1.
  cbn [clock ticked]. rewrite H2.
  rewrite (printOutput_run po _ _). reflexivity.
Qed.

(** The task loop, reached when the connection and both overlay updates
    succeed. *)
Lemma runTask_loop env po prompt st :
  ensureConnection env (clock st) = Ok tt ->
  updateBorderOverlay env (S (clock st)) false = Ok tt ->
  updateBorderOverlay env (S (S (clock st))) false = Ok tt ->
  runTask env po prompt st
  = taskLoop env po prompt
      (after [EvEnsureConnection; EvUpdateBorderOverlay false;
              EvUpdateBorderOverlay false] st).
Proof.
  intros H1 H2 H3. unfold runTask, tryCatch, bind, await, ret. rewrite H1.
  cbv beta iota. rewrite !clock_ticked, H2.
  cbv beta iota. rewrite !clock_ticked, H3.
  flatten_steps. reflexivity.
Qed.

Lemma runTask_connected env po prompt st :
  ensureConnection env (clock st) = Ok tt ->
  (forall t, updateBorderOverlay env t false = Ok tt) ->
  runTask env po prompt st
  = taskLoop env po prompt
      (after [EvEnsureConnection; EvUpdateBorderOverlay false;
              EvUpdateBorderOverlay false] st).
Proof. intros H1 H2. apply runTask_loop; auto. Qed.

Lemma whileFrom_aborted env po n ls st :
  abortedAt env (clock st) = true ->
  whileFrom env po (S n) (Continue ls) st
  = (Ok (Exited ls), snd (printOutput po cancelNotice st)).
Proof.
  intros H. simpl. unfold loopBody.
  unfold bind at 1. rewrite bind_signalAborted, H.
  rewrite (bind_ok _ _ _ (printOutput_run _ _ _)). unfold ret.
  destruct n; reflexivity.
Qed.

Lemma flagsAfter_source calls flags :
  flagsAfter calls flags = flags
  \/ exists c, In c calls /\ isCompletion c = true
               /\ flagsAfter calls flags = (true, summaryOf c).
Proof.
  revert flags. induction calls as [| c rest IH]; intros flags; simpl.
  - left. reflexivity.
  - destruct (isCompletion c) eqn:Hc.
    + destruct (IH (true, summaryOf c)) as [H | (c' & Hin & Hc' & H)].
      * right. exists c. auto.
      * right. exists c'. auto.
    + destruct (IH flags) as [H | (c' & Hin & Hc' & H)].
      * left. exact H.
      * right. exists c'. auto.
Qed.


(** ** The ways a pass ends *)

Lemma callModel_notice env po messageParts st st' :
  callModel env po messageParts st = (Ok CancelledAfterStream, st') ->
  po = true -> exists pre, printed st' = pre ++ [cancelNotice].
Proof.
  intros H Hpo. subst po. revert H.
  unfold callModel, tryCatch.
  unfold bind at 1. unfold awaitSendMessageStream at 1.
  set (s0 := countStream (ticked (EvSendMessageStream messageParts) st)).
  assert (Hh : forall e s r s',
             (let msg := "Error calling model: " ^^ errorText e in
              (if includes "Model stream ended with empty response text" msg
               then debugLog "Warning: Caught empty stream error from model. Continuing..."
               else ret tt) ;;
              debugLog msg ;; printOutput true msg ;; ret (ModelFailed msg)) s
             = (Ok r, s') -> r <> CancelledAfterStream).
  { intros e s r s'. cbv zeta. unfold bind, debugLog, ret, printOutput, emit.
    destruct (includes _ _); intros Hx; inversion Hx; discriminate. }
  destruct (sendMessageStream env (streams st) messageParts) as [s | e].
  - destruct (forAwait_run env true (events s) (failure s) ("", []) s0)
      as (r & s1 & Hr & _).
    unfold bind at 1. rewrite Hr.
    destruct r as [acc | e].
    + unfold bind at 1. unfold signalAborted at 1. cbn [fst snd].
      destruct (abortedAt env (clock s1)).
      * rewrite (bind_ok _ _ _ (printOutput_run _ _ _)). unfold ret.
        intros Hx.
        assert (Hst : st' = snd (printOutput true cancelNotice s1))
          by congruence.
        subst st'. exists (printed s1).
        rewrite printOutput_printed. reflexivity.
      * unfold ret. intros Hx. inversion Hx.
    + intros Hx. apply Hh in Hx. contradiction.
  - intros Hx. apply Hh in Hx. contradiction.
Qed.

(** How a pass that starts with no completion recorded ends, and which
    model call decides it. *)
Lemma loopBody_result env po ls st :
  unfinished ls ->
  exists c st',
    loopBody env po ls st = (Ok c, st') /\
    match c with
    | Continue ls' =>
      unfinished ls' /\ iterationCount ls' = S (iterationCount ls) /\
      streams st' = S (streams st)
    | Break ls' =>
      iterationCount ls' = iterationCount ls /\
      (unfinished ls' /\ streams st <= streams st' <= S (streams st)
       /\ abortedAt env (clock st') = true
       \/ exists parts s c,
            streams st' = S (streams st) /\
            sendMessageStream env (streams st) parts = Ok s /\
            failure s = None /\ In c (streamCalls s) /\
            isCompletion c = true /\
            taskCompleted ls' = true /\ taskSummary ls' = summaryOf c)
    | Return msg =>
      streams st' = S (streams st) /\
      exists parts e,
        msg = "Error calling model: " ^^ errorText e /\
        (sendMessageStream env (streams st) parts = Throw e
         \/ exists s, sendMessageStream env (streams st) parts = Ok s
                      /\ failure s = Some e)
    end.
Proof.
  intros [Hc0 Hs0].
  pose proof (loopBody_run env po ls st) as H.
  destruct (loopBody env po ls st) as [r st'] eqn:E. simpl in H.
  inversion H; subst; clear H.
  - eexists; eexists. split; [reflexivity |].
    destruct (printOutput_silent po cancelNotice st) as ((_ & Hs & _) & Hk).
    split; [reflexivity |]. left. split; [split; assumption |].
    split; [lia | congruence].
  - eexists; eexists. split; [reflexivity |].
    destruct (printOutput_silent po cancelNotice (after evs st))
      as ((_ & Hs & _) & Hk).
    split; [reflexivity |]. left.
    split; [split; assumption |].
    split; [simpl in *; lia | congruence].
  - match goal with
    | Hm : callModel _ _ _ _ = _ |- _ =>
      destruct (callModel_run env po (messagePartsOf dom ls) (after evs st))
        as (turn' & st2' & Hm' & Hst & _ & _ & _ & Hturn);
      rewrite Hm in Hm'; inversion Hm'; subst turn' st2'; clear Hm'
    end.
    simpl in Hst, Hturn.
    destruct turn as [text calls | | msg].
    + destruct Hturn as (s & Hsend & Hfail & Hcalls & _).
      destruct (executePhase_run env po ls calls st2)
        as (c & st3 & He & Hst3 & Hshape).
      match goal with
      | Hx : executePhase _ _ _ _ _ = _ |- _ => rewrite He in Hx;
          inversion Hx; subst r st'; clear Hx
      end.
      exists c, st3. split; [reflexivity |].
      destruct calls as [| call rest].
      * subst c. simpl. repeat split; auto; lia.
      * destruct Hshape as (d & k & rs & Hd & _ & _ & Hc). cbv zeta in Hc.
        rewrite Hc0, Hs0 in Hc.
        destruct (flagsAfter_source d (false, JStr ""))
          as [Hf | (c' & Hin & Hc' & Hf)]; rewrite Hf in Hc; subst c; simpl.
        -- repeat split; auto; lia.
        -- split; [reflexivity |]. right.
           exists (messagePartsOf dom ls), s, c'.
           repeat split; auto; try lia.
           rewrite <- Hcalls, Hd. apply in_or_app. left. exact Hin.
    + match goal with
      | Hx : _ /\ _ |- _ => destruct Hx as [-> ->]
      end.
      eexists; eexists. split; [reflexivity |].
      split; [reflexivity |]. left. split; [split; assumption |].
      split; [lia | exact Hturn].
    + match goal with
      | Hx : _ /\ _ |- _ => destruct Hx as [-> ->]
      end.
      eexists; eexists. split; [reflexivity |].
      split; [assumption |].
      destruct Hturn as (e & -> & Hsrc).
      exists (messagePartsOf dom ls), e. split; [reflexivity | exact Hsrc].
Qed.

Lemma finish_unfinished ls : unfinished ls -> finish ls = "Task finished".
Proof. intros [_ H]. unfold finish. rewrite H. reflexivity. Qed.

Lemma finish_summary ls c :
  taskSummary ls = summaryOf c -> finish ls = summaryOf c.
Proof.
  intros H. unfold finish, or_value. rewrite H, summaryOf_truthy. reflexivity.
Qed.

(** What the loop gives [runTask] to return, and which model call decides
    it: the last one. *)
Lemma whileFrom_result env po n ls st :
  unfinished ls ->
  exists exit st',
    whileFrom env po n (Continue ls) st = (Ok exit, st') /\
    streams st <= streams st' <= streams st + n /\
    (returned exit = "Task finished"
     /\ (streams st' = streams st + n \/ abortedAt env (clock st') = true)
     \/ (exists k parts e,
           streams st' = S k /\ streams st <= k /\
           returned exit = JStr ("Error calling model: " ^^ errorText e) /\
           (sendMessageStream env k parts = Throw e
            \/ exists s, sendMessageStream env k parts = Ok s
                         /\ failure s = Some e))
     \/ (exists k parts s c,
           streams st' = S k /\ streams st <= k /\
           sendMessageStream env k parts = Ok s /\ failure s = None /\
           In c (streamCalls s) /\ isCompletion c = true /\
           returned exit = summaryOf c)).
Proof.
  revert ls st. induction n as [| n IH]; intros ls st Hu.
  - exists (Exited ls), st. simpl. split; [reflexivity |]. split; [lia |].
    left. split; [apply finish_unfinished, Hu | left; lia].
  - destruct (@loopBody_result env po ls st Hu) as (c & st1 & Hb & Hc).
    simpl. rewrite (bind_ok _ _ _ Hb).
    destruct c as [ls1 | ls1 | msg].
    + destruct Hc as (Hu1 & _ & Hst1).
      destruct (IH ls1 st1 Hu1) as (exit & st' & Hw & Hst' & Hres).
      exists exit, st'. split; [exact Hw |]. split; [lia |].
      destruct Hres as [H | [(k & parts & e & H1 & H2 & H3) |
                             (k & parts & s & c & H1 & H2 & H3)]].
      * left. destruct H as [Hv [Hcap | Hab]];
          (split; [exact Hv |]); [left; lia | right; exact Hab].
      * right. left. exists k, parts, e. repeat split; auto; try lia.
        apply H3. apply H3.
      * right. right. exists k, parts, s, c. repeat split; try apply H3; lia.
    + exists (Exited ls1), st1.
      assert (Hw : whileFrom env po n (Break ls1) st1 = (Ok (Exited ls1), st1))
        by (destruct n; reflexivity).
      split; [exact Hw |].
      destruct Hc as (_ & [(Hu1 & Hst1 & Hab) |
                           (parts & s & c & Hst1 & Hs & Hf & Hin & Hc & _ & Hsum)]).
      * split; [lia |]. left.
        split; [apply finish_unfinished, Hu1 | right; exact Hab].
      * split; [lia |]. right. right.
        exists (streams st), parts, s, c. repeat split; auto.
        apply finish_summary, Hsum.
    + exists (Returned msg), st1.
      assert (Hw : whileFrom env po n (Return msg) st1
                   = (Ok (Returned msg), st1)) by (destruct n; reflexivity).
      split; [exact Hw |].
      destruct Hc as (Hst1 & parts & e & -> & Hsrc).
      split; [lia |]. right. left.
      exists (streams st), parts, e. repeat split; auto.
Qed.

(** ** The turns of a run *)

Lemma reaches_unfinished env po prompt st0 n ls st :
  Reaches env po prompt st0 n ls st ->
  unfinished ls /\ iterationCount ls + n = MAX_ITERATIONS /\
  streams st = streams st0 + iterationCount ls.
Proof.
  induction 1 as [H1 H2 H3 | n ls st ls' st' Hr IH Hb].
  - repeat split. simpl. lia.
  - destruct IH as (Hu & Hn & Hs).
    destruct (@loopBody_result env po ls st Hu) as (c & st1 & Hb' & Hc).
    rewrite Hb in Hb'. inversion Hb'; subst c st1.
    destruct Hc as (Hu' & Hi & Hst). split; [exact Hu' |]. lia.
Qed.

(** From a turn a run comes to, [runTask] returns what the rest of the
    loop gives. *)
Lemma reaches_run env po prompt st0 n ls st :
  Reaches env po prompt st0 n ls st ->
  runTask env po prompt st0
  = (exit <- whileFrom env po n (Continue ls) ;; ret (returned exit)) st.
Proof.
  induction 1 as [H1 H2 H3 | n ls st ls' st' Hr IH Hb].
  - rewrite (runTask_loop env po prompt st0 H1 H2 H3). reflexivity.
  - rewrite IH.
    assert (Hw : whileFrom env po (S n) (Continue ls) st
                 = whileFrom env po n (Continue ls') st')
      by (cbn [whileFrom]; apply (bind_ok _ _ _ Hb)).
    unfold bind. rewrite Hw. reflexivity.
Qed.

(** ** The calls of the visual delegate *)

Section VisualFrame.

Variable R : St -> St -> Prop.
Hypothesis R_refl : forall st, R st st.
Hypothesis R_trans : forall a b c, R a b -> R b c -> R a c.
Variable env : Env.
Variable po : bool.
Hypothesis R_emit : forall msg st, R st (snd (emit msg st)).
Hypothesis R_gen : forall st, R st (countGen st).
Hypothesis R_tick :
  forall ev st, delegateEvent ev = true -> R st (ticked ev st).

Lemma delegate_await {A} ev (script : nat -> Outcome A) :
  delegateEvent ev = true -> always R (await ev script).
Proof. intros H st. apply R_tick, H. Qed.

Lemma delegate_awaitGenerateContent contents :
  always R (awaitGenerateContent env contents).
Proof.
  intros st. unfold awaitGenerateContent. simpl.
  eapply R_trans;
    [apply (R_tick (EvGenerateContent contents)); reflexivity | apply R_gen].
Qed.

Lemma visualHandler_delegate n m keys a :
  visualHandler n = Some (m, keys) ->
  delegateEvent (EvBrowserTools m a) = true.
Proof.
  unfold visualHandler. destruct n as [n |]; [| discriminate].
  repeat match goal with
         | |- context [if ?c then _ else _] => destruct c
         end;
    intros H; inversion H; reflexivity.
Qed.

Ltac delegate_frame :=
  repeat first
    [ assumption
    | apply always_ret; exact R_refl
    | apply always_throw; exact R_refl
    | apply always_printOutput; [exact R_refl | exact R_emit]
    | apply delegate_awaitGenerateContent
    | apply delegate_await; reflexivity
    | apply always_bind; [ exact R_trans | | intros ? ]
    | apply always_tryCatch; [ exact R_trans | | intros ? ]
    | progress cbv zeta
    | apply always_if
    | match goal with
      | |- always _ (match ?x with _ => _ end) => destruct x
      end ].

Lemma delegate_captureScreenshot : always R (captureScreenshot env).
Proof. unfold captureScreenshot. delegate_frame. Qed.

Lemma delegate_visualDispatch call : always R (visualDispatch env call).
Proof.
  unfold visualDispatch.
  apply always_tryCatch; [exact R_trans | | intros ?; delegate_frame].
  destruct (visualHandler (fc_name call)) as [[m keys] |] eqn:Hv;
    [| delegate_frame].
  destruct (fc_args call) as [a |]; [| delegate_frame].
  apply delegate_await. eapply visualHandler_delegate, Hv.
Qed.

Lemma delegate_visualActions calls rs h :
  always R (visualActions env calls rs h).
Proof.
  revert rs h. induction calls as [| call rest IH]; intros rs h; simpl.
  - delegate_frame.
  - apply always_bind; [exact R_trans | apply delegate_visualDispatch |].
    intros r. apply IH.
Qed.

Lemma delegate_invalidateCache : always R (invalidateCache env).
Proof. unfold invalidateCache. delegate_frame. Qed.

Lemma delegate_visualLog i response : always R (visualLog env po i response).
Proof. unfold visualLog. delegate_frame. Qed.

Lemma delegate_visualLoop remaining contents h :
  always R (visualLoop env po remaining contents h).
Proof.
  revert contents h.
  induction remaining as [| n IH]; intros contents h; simpl.
  - delegate_frame.
  - apply always_bind;
      [exact R_trans | apply delegate_awaitGenerateContent | intros result].
    destruct result as [response |]; [| delegate_frame].
    apply always_bind;
      [exact R_trans | apply delegate_visualLog | intros _].
    destruct (functionCallsOf response) as [| c cs].
    + apply always_bind;
        [exact R_trans | apply delegate_invalidateCache | intros _].
      delegate_frame.
    + apply always_bind;
        [exact R_trans | apply (delegate_visualActions (c :: cs) [] h)
         | intros [rs h1]].
      apply always_bind; [exact R_trans | | intros shot; apply IH].
      apply always_tryCatch;
        [exact R_trans | apply delegate_captureScreenshot | intros ?].
      delegate_frame.
Qed.

Lemma delegate_runVisualDelegate instruction shot :
  always R (runVisualDelegate env po instruction shot).
Proof.
  unfold runVisualDelegate. cbv zeta.
  apply always_bind;
    [exact R_trans | apply delegate_visualLoop | intros [out | h]].
  - delegate_frame.
  - apply always_bind;
      [exact R_trans | apply delegate_invalidateCache | intros _].
    delegate_frame.
Qed.

End VisualFrame.

Lemma delegateTrace_refl st : delegateTrace st st.
Proof. exists []. rewrite app_nil_r. auto. Qed.

Lemma delegateTrace_trans a b c :
  delegateTrace a b -> delegateTrace b c -> delegateTrace a c.
Proof.
  intros (e1 & H1 & F1) (e2 & H2 & F2). exists (e1 ++ e2).
  rewrite H2, H1, app_assoc. split; [reflexivity | apply Forall_app; auto].
Qed.

Ltac delegateTrace_frame :=
  first
    [ apply delegateTrace_refl
    | apply delegateTrace_trans
    | intros;
      match goal with
      | |- delegateTrace ?a (ticked ?ev ?a) =>
        exists [ev]; split; [reflexivity | auto]
      | |- delegateTrace _ _ =>
        exists []; simpl; rewrite app_nil_r; auto
      end ].

(** The visual delegate and the screenshot before it issue calls of their
    own kinds only. *)
Lemma captureScreenshot_delegate env st :
  delegateTrace st (snd (captureScreenshot env st)).
Proof.
  apply delegate_captureScreenshot with (R := delegateTrace);
    delegateTrace_frame.
Qed.

Lemma runVisualDelegate_delegate env po instruction shot st :
  delegateTrace st (snd (runVisualDelegate env po instruction shot st)).
Proof.
  apply delegate_runVisualDelegate with (R := delegateTrace);
    delegateTrace_frame.
Qed.

Lemma delegate_not_snapshot ev :
  delegateEvent ev = true -> isSnapshotCall ev = false.
Proof.
  destruct ev as [| c | | n a | | | | m a | n a | ps | cs]; simpl;
    try reflexivity; try discriminate.
  - intros H. apply String.eqb_eq in H. subst n. reflexivity.
  - destruct m; try reflexivity; discriminate.
Qed.

Lemma delegate_dispatch ev :
  delegateEvent ev = true -> dispatchEvent ev = true.
Proof.
  destruct ev as [| c | | n a | | | | m a | n a | ps | cs]; simpl;
    try reflexivity; try discriminate.
  intros H. apply String.eqb_eq in H. subst n. reflexivity.
Qed.

(** ** The snapshot requests of a turn *)

(** Among the cases of the [switch] that call one method, [take_snapshot]
    alone reaches [takeSnapshot]. *)
Lemma directHandler_method n m keys orError :
  directHandler n = Some (m, keys, orError) ->
  (n =? "takeSnapshot") = false /\
  (if n =? "take_snapshot" then m = takeSnapshot /\ keys = ["verbose"]
   else m <> takeSnapshot).
Proof.
  unfold directHandler.
  repeat match goal with
         | |- context [if ?c then Some _ else _] =>
           let E := fresh "E" in
           destruct c eqn:E;
             [apply String.eqb_eq in E; subst n; intros H; inversion H;
              split; [reflexivity | simpl; first [split; reflexivity
                                                  | discriminate]]
             |]
         end.
  discriminate.
Qed.

Lemma declared_not_snapshot n :
  existsb (String.eqb n) semanticToolNames = true ->
  directHandler n = None ->
  (n =? "take_snapshot") = false /\ (n =? "takeSnapshot") = false.
Proof.
  intros Hd Hn. split; [apply directHandler_not_snapshot, Hn |].
  destruct (n =? "takeSnapshot") eqn:E; [| reflexivity].
  apply String.eqb_eq in E. subst n. discriminate.
Qed.

(** What one case of the [switch] asks of the driver: calls that dispatch
    may issue, among which the snapshot request of the call, if it makes
    one. *)
Lemma dispatchSwitch_snapshots env po call n flags st :
  fc_name call = Some n ->
  exists evs,
    trace (snd (dispatchSwitch env po n (argsOf call) flags st))
    = trace st ++ evs /\
    Forall (fun ev => dispatchEvent ev = true) evs /\
    filter isSnapshotCall evs = snapshotRequest call.
Proof.
  intros Hname. unfold snapshotRequest. rewrite Hname.
  unfold dispatchSwitch.
  destruct (n =? "complete_task") eqn:Hc.
  { apply String.eqb_eq in Hc. subst n. exists [].
    rewrite (bind_ok _ _ _ (printOutput_run _ _ _)). unfold ret. cbn [snd].
    rewrite printOutput_trace, app_nil_r. repeat split. constructor. }
  destruct (n =? "delegate_to_visual_agent") eqn:Hv.
  { apply String.eqb_eq in Hv. subst n.
    assert (Hq : delegateTrace st
                   (snd ((screen <- captureScreenshot env ;;
                          visualRes <- runVisualDelegate env po
                                         (or_value (lookup "instruction"
                                                           (argsOf call)) "")
                                         screen ;;
                          ret (DelegateContent visualRes, flags)) st))).
    { unfold bind.
      pose proof (captureScreenshot_delegate env st) as H1.
      destruct (captureScreenshot env st) as [[screen | e] s1];
        [| exact H1].
      cbn [snd] in H1.
      pose proof (runVisualDelegate_delegate env po
                    (or_value (lookup "instruction" (argsOf call)) "")
                    screen s1) as H2.
      destruct (runVisualDelegate env po _ screen s1) as [[out | e] s2];
        cbn [snd] in *; eapply delegateTrace_trans; eauto;
        apply delegateTrace_refl. }
    destruct Hq as (evs & Ht & Hf). exists evs.
    split; [exact Ht |]. split.
    - eapply Forall_impl; [| exact Hf]. intros ev. apply delegate_dispatch.
    - cbn [String.eqb Ascii.eqb Bool.eqb andb].
      clear Ht. induction Hf as [| ev evs Hev Hf IH]; [reflexivity |].
      cbn [filter]. rewrite (delegate_not_snapshot _ Hev). exact IH. }
  destruct (directHandler n) as [[[m keys] orError] |] eqn:Hd.
  { destruct (directHandler_method _ Hd) as [Hlegacy Hm].
    exists [EvBrowserTools m (map (fun k => lookup k (argsOf call)) keys)].
    split.
    - cbv zeta. unfold bind, await, ret.
      destruct (browserTools env (clock st) m _); reflexivity.
    - split; [repeat constructor |].
      rewrite Hlegacy. destruct (n =? "take_snapshot").
      + destruct Hm as [-> ->]. reflexivity.
      + cbn [filter isSnapshotCall]. destruct m; try reflexivity.
        contradiction Hm. reflexivity. }
  destruct (existsb (String.eqb n) semanticToolNames) eqn:Hdecl.
  { destruct (declared_not_snapshot _ Hdecl Hd) as [H1 H2].
    rewrite H1, H2.
    unfold bind at 1. unfold await at 1.
    destruct (getMcpClient env (clock st)) as [[] | e].
    - exists [EvGetMcpClient; EvCallTool n (argsOf call)].
      split; [| split].
      + unfold bind, await.
        destruct (callTool env _ n (argsOf call)) as [res | e];
          [destruct (content res) |]; unfold ret, throw;
          cbn [snd trace ticked]; rewrite <- app_assoc; reflexivity.
      + constructor; [reflexivity |]. constructor; [| constructor].
        unfold dispatchEvent. cbn [isModelCall isStateCapture]. rewrite H1.
        reflexivity.
      + cbn [filter isSnapshotCall]. rewrite H1. reflexivity.
    - exists [EvGetMcpClient]. repeat split. repeat constructor. }
  pose proof (directHandler_not_snapshot _ Hd) as H1. rewrite H1.
  exists [EvLegacyMethod n (map snd (argsOf call))].
  split; [| split].
  - cbv zeta. unfold tryCatch, bind, await, ret.
    destruct (legacyMethod env (clock st) n _); reflexivity.
  - repeat constructor.
  - cbn [filter isSnapshotCall].
    destruct (n =? "takeSnapshot") eqn:E; [| reflexivity].
    apply String.eqb_eq in E. subst n. reflexivity.
Qed.

Lemma guardedDispatch_state env po n a flags st :
  snd (guardedDispatch env po n a flags st)
  = snd (dispatchSwitch env po n a flags st).
Proof.
  unfold guardedDispatch, tryCatch.
  destruct (dispatchSwitch env po n a flags st) as [[r | e] s]; reflexivity.
Qed.

Lemma nameless_no_snapshot call :
  hasName call = false -> snapshotRequest call = [].
Proof.
  unfold hasName, snapshotRequest. destruct (fc_name call) as [n |]; auto.
  intros H. apply negb_false_iff, String.eqb_eq in H. subst n. reflexivity.
Qed.

(** The calls the dispatch loop issues: those of the calls dispatched, and
    of snapshot requests exactly those the dispatched calls make. *)
Lemma executeTools_snapshots env po calls inputParts flags st :
  exists dispatched skipped evs,
    calls = dispatched ++ skipped /\
    (skipped = []
     \/ abortedAt env
          (clock (snd (executeTools env po calls inputParts flags st)))
        = true) /\
    trace (snd (executeTools env po calls inputParts flags st))
    = trace st ++ evs /\
    Forall (fun ev => dispatchEvent ev = true) evs /\
    filter isSnapshotCall evs = flat_map snapshotRequest dispatched.
Proof.
  revert inputParts flags st.
  induction calls as [| call rest IH]; intros inputParts flags st.
  - exists [], [], []. simpl. rewrite app_nil_r. repeat split; auto.
  - cbn [executeTools]. rewrite bind_signalAborted.
    destruct (abortedAt env (clock st)) eqn:Hab.
    + exists [], (call :: rest), [].
      rewrite (bind_ok _ _ _ (printOutput_run _ _ _)). unfold ret.
      cbn [snd]. rewrite printOutput_trace, app_nil_r.
      destruct (printOutput_silent po cancelNotice st) as (_ & Hk).
      rewrite Hk. repeat split; auto.
    + cbv zeta.
      destruct (match fc_name call with Some n => n | None => "" end =? "")
        eqn:Hname.
      * rewrite (bind_ok _ _ _ (printOutput_run _ _ _)).
        match goal with
        | |- context [executeTools env po rest inputParts flags ?s] =>
          destruct (IH inputParts flags s)
            as (d & k & evs & Hcalls & Hskip & Ht & Hf & Hsnap)
        end.
        rewrite printOutput_trace in Ht.
        assert (Hh : hasName call = false).
        { unfold hasName. destruct (fc_name call) as [n |]; auto.
          rewrite Hname. reflexivity. }
        exists (call :: d), k, evs. cbn [flat_map].
        rewrite (nameless_no_snapshot _ Hh). cbn [app].
        repeat split; auto. rewrite Hcalls. reflexivity.
      * rewrite (bind_ok _ _ _ (printOutput_run _ _ _)).
        assert (Hn : fc_name call
                     = Some match fc_name call with Some n => n | None => "" end).
        { destruct (fc_name call); [reflexivity | discriminate]. }
        set (n := match fc_name call with Some n => n | None => "" end) in *.
        set (s0 := snd (printOutput po
                          ("🔧 Executing " ^^ n ^^ "("
                           ^^ stringifyArgs env (argsOf call) ^^ ")") st)).
        destruct (dispatchSwitch_snapshots env po call flags s0 Hn)
          as (evs1 & Ht1 & Hf1 & Hsnap1).
        rewrite <- guardedDispatch_state in Ht1.
        unfold s0 in Ht1 at 2. rewrite printOutput_trace in Ht1.
        destruct (safe_guardedDispatch env po n (argsOf call) flags s0)
          as [r Hr].
        destruct (guardedDispatch env po n (argsOf call) flags s0)
          as [r' s1] eqn:Hg.
        cbn [fst snd] in Hr, Ht1. subst r'.
        rewrite (bind_ok _ _ _ Hg).
        match goal with
        | |- context [executeTools env po rest ?ps ?fl s1] =>
          destruct (IH ps fl s1)
            as (d & k & evs & Hcalls & Hskip & Ht & Hf & Hsnap)
        end.
        exists (call :: d), k, (evs1 ++ evs). cbn [flat_map].
        rewrite filter_app, Hsnap1, Hsnap.
        repeat split; auto.
        -- rewrite Hcalls. reflexivity.
        -- rewrite Ht, Ht1, app_assoc. reflexivity.
        -- apply Forall_app. auto.
Qed.

Lemma executePhase_state env po ls call rest st :
  snd (executePhase env po ls (call :: rest) st)
  = snd (executeTools env po (call :: rest) []
           (taskCompleted ls, taskSummary ls) st).
Proof.
  unfold executePhase, bind.
  destruct (executeTools env po (call :: rest) []
              (taskCompleted ls, taskSummary ls) st)
    as [[[ps [completed summary]] | e] s]; [| reflexivity].
  destruct completed; reflexivity.
Qed.

(** ** The responses of a turn *)

Lemma alike_refl st : alike st st.
Proof. repeat split. Qed.

Lemma alike_trans a b c : alike a b -> alike b c -> alike a c.
Proof. unfold alike. intuition congruence. Qed.

Lemma printOutput_alike po msg st : alike st (snd (printOutput po msg st)).
Proof. unfold printOutput. destruct po; repeat split. Qed.

Lemma answered_alike env po flags st s calls parts flags' st' :
  alike st s ->
  Answered env po flags s calls parts flags' st' ->
  Answered env po flags st calls parts flags' st'.
Proof.
  intros Ha H. revert st Ha.
  induction H as [flags s st' Hs
                 | flags s call rest parts flags' st' Hn H IH
                 | flags s s1 call n rest body flags1 st1 parts flags' st'
                     Hn Hne Hs Hd H IH
                 | flags s s1 call n rest e st1 parts flags' st'
                     Hn Hne Hs Hd H IH];
    intros st Ha.
  - apply AnsweredAll. eapply alike_trans; eauto.
  - apply AnsweredNameless; auto.
  - apply AnsweredResult with (s1 := s1) (flags1 := flags1) (st1 := st1);
      auto. eapply alike_trans; eauto.
  - apply AnsweredError with (s1 := s1) (st1 := st1); auto.
    eapply alike_trans; eauto.
Qed.

Lemma answered_answers env po flags st calls parts flags' st' :
  Answered env po flags st calls parts flags' st' ->
  Forall2 answers (filter hasName calls) parts.
Proof.
  induction 1 as [flags s st' Hs
                 | flags s call rest parts flags' st' Hn H IH
                 | flags s s1 call n rest body flags1 st1 parts flags' st'
                     Hn Hne Hs Hd H IH
                 | flags s s1 call n rest e st1 parts flags' st'
                     Hn Hne Hs Hd H IH];
    cbn [filter].
  - constructor.
  - rewrite Hn. exact IH.
  - assert (Hh : hasName call = true).
    { unfold hasName. rewrite Hn. apply negb_true_iff, String.eqb_neq, Hne. }
    rewrite Hh. constructor; [| exact IH]. eexists. rewrite Hn. reflexivity.
  - assert (Hh : hasName call = true).
    { unfold hasName. rewrite Hn. apply negb_true_iff, String.eqb_neq, Hne. }
    rewrite Hh. constructor; [| exact IH]. eexists. rewrite Hn. reflexivity.
Qed.

(** The dispatch loop answers the calls it dispatches, one after the
    other. *)
Lemma executeTools_answered env po calls inputParts flags st :
  exists dispatched skipped parts flags' st',
    executeTools env po calls inputParts flags st
    = (Ok (inputParts ++ parts, flags'), st') /\
    calls = dispatched ++ skipped /\
    (skipped = [] \/ abortedAt env (clock st') = true) /\
    Answered env po flags st dispatched parts flags' st'.
Proof.
  revert inputParts flags st.
  induction calls as [| call rest IH]; intros inputParts flags st.
  - exists [], [], [], flags, st. simpl. rewrite app_nil_r.
    repeat split; auto. apply AnsweredAll, alike_refl.
  - cbn [executeTools]. rewrite bind_signalAborted.
    destruct (abortedAt env (clock st)) eqn:Hab.
    + exists [], (call :: rest), [], flags,
        (snd (printOutput po cancelNotice st)).
      rewrite (bind_ok _ _ _ (printOutput_run _ _ _)). unfold ret.
      rewrite app_nil_r.
      destruct (printOutput_silent po cancelNotice st) as (_ & Hk).
      rewrite Hk. repeat split; auto.
      apply AnsweredAll, printOutput_alike.
    + cbv zeta.
      destruct (match fc_name call with Some n => n | None => "" end =? "")
        eqn:Hname.
      * rewrite (bind_ok _ _ _ (printOutput_run _ _ _)).
        match goal with
        | |- context [executeTools env po rest inputParts flags ?s] =>
          destruct (IH inputParts flags s)
            as (d & k & parts & flags' & st' & Hrun & Hcalls & Hskip & Hans)
        end.
        assert (Hh : hasName call = false).
        { unfold hasName. destruct (fc_name call) as [n |]; auto.
          rewrite Hname. reflexivity. }
        exists (call :: d), k, parts, flags', st'.
        split; [exact Hrun |]. split; [rewrite Hcalls; reflexivity |].
        split; [exact Hskip |].
        apply AnsweredNameless; [exact Hh |].
        eapply answered_alike; [apply printOutput_alike | exact Hans].
      * rewrite (bind_ok _ _ _ (printOutput_run _ _ _)).
        assert (Hn : fc_name call
                     = Some match fc_name call with Some n => n | None => "" end).
        { destruct (fc_name call); [reflexivity | discriminate]. }
        set (n := match fc_name call with Some n => n | None => "" end) in *.
        assert (Hne : n <> "") by (apply String.eqb_neq, Hname).
        set (s0 := snd (printOutput po
                          ("🔧 Executing " ^^ n ^^ "("
                           ^^ stringifyArgs env (argsOf call) ^^ ")") st)).
        assert (Ha : alike st s0) by apply printOutput_alike.
        destruct (dispatchSwitch env po n (argsOf call) flags s0)
          as [[[body flags1] | e] s1] eqn:Hd.
        -- assert (Hg : guardedDispatch env po n (argsOf call) flags s0
                        = (Ok (body, flags1), s1)).
           { unfold guardedDispatch, tryCatch. rewrite Hd. reflexivity. }
           rewrite (bind_ok _ _ _ Hg). cbn [fst snd].
           match goal with
           | |- context [executeTools env po rest ?ps ?fl s1] =>
             destruct (IH ps fl s1)
               as (d & k & parts & flags' & st' & Hrun & Hcalls & Hskip & Hans)
           end.
           exists (call :: d), k, (responsePart (Some n) body :: parts),
             flags', st'.
           split; [rewrite Hrun, <- app_assoc; reflexivity |].
           split; [rewrite Hcalls; reflexivity |].
           split; [exact Hskip |].
           eapply AnsweredResult; eauto.
        -- assert (Hg : guardedDispatch env po n (argsOf call) flags s0
                        = (Ok (TextContent
                                 ("Error executing " ^^ n ^^ ": "
                                  ^^ errorText e), flags), s1)).
           { unfold guardedDispatch, tryCatch. rewrite Hd. reflexivity. }
           rewrite (bind_ok _ _ _ Hg). cbn [fst snd].
           match goal with
           | |- context [executeTools env po rest ?ps ?fl s1] =>
             destruct (IH ps fl s1)
               as (d & k & parts & flags' & st' & Hrun & Hcalls & Hskip & Hans)
           end.
           exists (call :: d), k,
             (responsePart (Some n)
                (TextContent ("Error executing " ^^ n ^^ ": " ^^ errorText e))
              :: parts),
             flags', st'.
           split; [rewrite Hrun, <- app_assoc; reflexivity |].
           split; [rewrite Hcalls; reflexivity |].
           split; [exact Hskip |].
           eapply AnsweredError; eauto.
Qed.

(** ** The steps of the visual delegate *)

Ltac sameGens_frame :=
  unfold sameGens, always; intros; simpl; solve [reflexivity | congruence].

Lemma run_safe {A} (m : M A) st :
  safe m -> exists a, m st = (Ok a, snd (m st)).
Proof.
  intros H. destruct (H st) as [a Ha]. exists a.
  rewrite <- Ha. apply surjective_pairing.
Qed.

Lemma safe_visualDispatch env call : safe (visualDispatch env call).
Proof. unfold visualDispatch. safety. Qed.

Lemma safe_captureScreenshot env : safe (captureScreenshot env).
Proof. unfold captureScreenshot. safety. Qed.

Lemma safe_invalidateCache env : safe (invalidateCache env).
Proof. unfold invalidateCache. safety. Qed.

Lemma safe_visualLog env po i response : safe (visualLog env po i response).
Proof. unfold visualLog. safety. Qed.

Lemma combine_append {A B} (l1 l2 : list A) (r1 r2 : list B) :
  length l1 = length r1 ->
  combine (l1 ++ l2) (r1 ++ r2) = combine l1 r1 ++ combine l2 r2.
Proof.
  revert r1. induction l1 as [| a l1 IH]; intros [| b r1] H;
    simpl in *; try discriminate; [reflexivity |].
  f_equal. apply IH. lia.
Qed.

(** The line of the report is the one the loop pushes on its history. *)
Lemma actionLine_historyEntry env call res :
  historyEntry env call res = actionLine env call res.
Proof. reflexivity. Qed.

(** One action: its result, and the driver call it makes. *)
Lemma visualDispatch_exact env call st :
  visualDispatch env call st
  = (Ok (visualResultAt env (clock st) call),
     after (visualDriverCall call) st).
Proof.
  unfold visualDispatch, visualResultAt, visualDriverCall, tryCatch.
  destruct (visualHandler (fc_name call)) as [[m keys] |].
  - destruct (fc_args call) as [a |].
    + unfold await, ret. rewrite ticked_first.
      destruct (browserTools env (clock st) m _); reflexivity.
    + unfold throw, ret. rewrite after_nil. reflexivity.
  - unfold ret. rewrite after_nil. reflexivity.
Qed.

(** The actions of one step: every call is executed and answered, and
    leaves one line of history, in order. *)
Lemma visualActions_exact env calls rs h st :
  visualActions env calls rs h st
  = (Ok (rs ++ visualResponses calls (visualResults env (clock st) calls),
         h ++ historyOf env calls (visualResults env (clock st) calls)),
     after (flat_map visualDriverCall calls) st).
Proof.
  revert rs h st. induction calls as [| call rest IH]; intros rs h st.
  - simpl. unfold visualResponses, historyOf, ret. simpl.
    rewrite !app_nil_r, after_nil. reflexivity.
  - cbn [visualActions]. rewrite (bind_ok _ _ _ (visualDispatch_exact _ _ _)).
    rewrite IH. cbn [visualResults flat_map clock after].
    unfold visualResponses, historyOf. cbn [combine map fst snd].
    rewrite <- !app_assoc, after_after. reflexivity.
Qed.

Lemma visualResults_length env t calls :
  length (visualResults env t calls) = length calls.
Proof.
  revert t. induction calls as [| call rest IH]; intros t; simpl; auto.
Qed.

Lemma visualResults_at env t calls :
  Forall2 (fun call res =>
             exists t', t <= t' <= t + length (flat_map visualDriverCall calls)
                        /\ res = visualResultAt env t' call)
          calls (visualResults env t calls).
Proof.
  revert t. induction calls as [| call rest IH]; intros t; simpl.
  - constructor.
  - constructor.
    + exists t. split; [lia | reflexivity].
    + eapply Forall2_impl; [| apply IH].
      intros c r (t' & Ht & Hr). exists t'. split; [| exact Hr].
      rewrite length_app. lia.
Qed.

Lemma toolEvents_app a b : toolEvents (a ++ b) = toolEvents a ++ toolEvents b.
Proof. apply filter_app. Qed.

Lemma toolEvents_driver calls :
  toolEvents (flat_map visualDriverCall calls)
  = flat_map visualDriverCall calls.
Proof.
  induction calls as [| call rest IH]; [reflexivity |].
  cbn [flat_map]. rewrite toolEvents_app, IH. f_equal.
  unfold visualDriverCall.
  destruct (visualHandler (fc_name call)) as [[m keys] |]; [| reflexivity].
  destruct (fc_args call); reflexivity.
Qed.

Lemma visualRun_actions env calls st :
  visualRun env st (after (flat_map visualDriverCall calls) st) calls
            (visualResults env (clock st) calls).
Proof.
  split; [simpl; lia |]. split.
  - eexists. split; [reflexivity | apply toolEvents_driver].
  - apply visualResults_at.
Qed.

(** Stretches follow one another. *)
Lemma visualRun_app env a b c calls1 results1 calls2 results2 :
  visualRun env a b calls1 results1 ->
  visualRun env b c calls2 results2 ->
  visualRun env a c (calls1 ++ calls2) (results1 ++ results2).
Proof.
  intros (Hk1 & (e1 & Ht1 & He1) & Hr1) (Hk2 & (e2 & Ht2 & He2) & Hr2).
  split; [lia |]. split.
  - exists (e1 ++ e2). rewrite Ht2, Ht1, app_assoc. split; [reflexivity |].
    rewrite toolEvents_app, flat_map_app, He1, He2. reflexivity.
  - apply Forall2_app.
    + eapply Forall2_impl; [| exact Hr1].
      intros call res (t & Ht & Hres). exists t. split; [lia | exact Hres].
    + eapply Forall2_impl; [| exact Hr2].
      intros call res (t & Ht & Hres). exists t. split; [lia | exact Hres].
Qed.

Lemma visualRun_before env a b c calls results :
  visualRun env a b [] [] -> visualRun env b c calls results ->
  visualRun env a c calls results.
Proof. intros H1 H2. apply (visualRun_app H1 H2). Qed.

Lemma visualRun_then env a b c calls results :
  visualRun env a b calls results -> visualRun env b c [] [] ->
  visualRun env a c calls results.
Proof.
  intros H1 H2. pose proof (visualRun_app H1 H2) as H.
  rewrite !app_nil_r in H. exact H.
Qed.

Lemma visualRun_after env evs st :
  toolEvents evs = [] -> visualRun env st (after evs st) [] [].
Proof.
  intros H. split; [simpl; lia |]. split; [| constructor].
  exists evs. split; [reflexivity | exact H].
Qed.

Lemma visualRun_alike env a b : alike a b -> visualRun env a b [] [].
Proof.
  intros (Hk & _ & _ & Ht). split; [lia |]. split; [| constructor].
  exists []. rewrite app_nil_r. split; [congruence | reflexivity].
Qed.

(** The screenshot at the end of a step: some of its calls, in order. *)
Lemma captureScreenshot_run env st :
  exists n shot,
    captureScreenshot env st = (Ok shot, after (firstn n screenshotEvents) st).
Proof.
  unfold captureScreenshot, tryCatch, bind, await, ret.
  destruct (getPage env (clock st)) as [[] | e];
    [| exists 1, ""; cbn [firstn screenshotEvents]; flatten_steps;
       reflexivity].
  cbn [clock ticked].
  destruct (bringToFront env (S (clock st))) as [[] | e];
    [| exists 2, ""; cbn [firstn screenshotEvents]; flatten_steps;
       reflexivity].
  cbn [clock ticked].
  destruct (updateBorderOverlay env (S (S (clock st))) true) as [[] | e];
    [| exists 3, ""; cbn [firstn screenshotEvents]; flatten_steps;
       reflexivity].
  cbn [clock ticked].
  destruct (screenshot env (S (S (S (clock st))))) as [shot | e];
    [| exists 4, ""; cbn [firstn screenshotEvents]; flatten_steps;
       reflexivity].
  cbn [clock ticked].
  destruct (updateBorderOverlay env (S (S (S (S (clock st))))) false)
    as [[] | e]; [exists 5, shot | exists 5, ""];
    cbn [firstn screenshotEvents]; flatten_steps; reflexivity.
Qed.

Lemma toolEvents_screenshot n : toolEvents (firstn n screenshotEvents) = [].
Proof. do 6 (destruct n as [| n]; [reflexivity |]). reflexivity. Qed.

Lemma visualRun_screenshot env st :
  exists shot st',
    tryCatch (captureScreenshot env) (fun _ => ret "") st = (Ok shot, st') /\
    visualRun env st st' [] [] /\ gens st' = gens st.
Proof.
  destruct (captureScreenshot_run env st) as (n & shot & H).
  exists shot, (after (firstn n screenshotEvents) st).
  unfold tryCatch. rewrite H. split; [reflexivity |].
  split; [apply visualRun_after, toolEvents_screenshot | reflexivity].
Qed.

Lemma invalidateCache_steps env st :
  exists evs,
    invalidateCache env st = (Ok tt, after evs st) /\
    (evs = [EvGetMcpClient]
     \/ evs = [EvGetMcpClient;
               EvCallTool "evaluate_script"
                 [("function", JStr "() => { return true; }")]]).
Proof.
  unfold invalidateCache, tryCatch, bind, await, ret. cbv zeta.
  destruct (getMcpClient env (clock st)) as [[] | e].
  - eexists. split; [| right; reflexivity].
    cbn [clock ticked].
    destruct (callTool env (S (clock st)) "evaluate_script" _);
      flatten_steps; reflexivity.
  - eexists. split; [| left; reflexivity]. flatten_steps. reflexivity.
Qed.

Lemma invalidateCache_run env st :
  exists st', invalidateCache env st = (Ok tt, st') /\ gens st' = gens st.
Proof.
  destruct (invalidateCache_steps env st) as (evs & H & _).
  eexists. split; [exact H | reflexivity].
Qed.

Lemma visualRun_invalidateCache env st :
  exists st',
    invalidateCache env st = (Ok tt, st') /\
    visualRun env st st' [] [] /\ gens st' = gens st.
Proof.
  destruct (invalidateCache_steps env st) as (evs & H & Hev).
  exists (after evs st). split; [exact H |]. split; [| reflexivity].
  apply visualRun_after. destruct Hev as [-> | ->]; reflexivity.
Qed.

Lemma visualLog_run env po i response st :
  exists st',
    visualLog env po i response st = (Ok tt, st') /\ alike st st'.
Proof.
  assert (Hp : forall msg, exists st',
             printOutput po msg st = (Ok tt, st') /\ alike st st').
  { intros msg. eexists. split; [apply printOutput_run |].
    apply printOutput_alike. }
  unfold visualLog. cbv zeta.
  match goal with
  | |- context [match ?x with _ => _ end] => destruct x
  end; [exists st; split; [reflexivity | apply alike_refl] | apply Hp].
Qed.

(** A step whose response carries calls: the calls are executed, a
    screenshot is attempted, and the loop goes on. *)
Lemma visualLoop_step env po n contents h st response :
  generateContent env (gens st) contents = Ok (Some response) ->
  functionCallsOf response <> [] ->
  exists results contents' st',
    visualLoop env po (S n) contents h st
    = visualLoop env po n contents'
        (h ++ historyOf env (functionCallsOf response) results) st' /\
    visualRun env st st' (functionCallsOf response) results /\
    gens st' = S (gens st).
Proof.
  intros Hgen Hne.
  cbn [visualLoop]. unfold bind at 1. unfold awaitGenerateContent at 1.
  rewrite Hgen.
  set (s1 := countGen (ticked (EvGenerateContent contents) st)).
  assert (H1 : visualRun env st s1 [] []).
  { split; [simpl; lia |]. split; [| constructor].
    exists [EvGenerateContent contents]. split; reflexivity. }
  destruct (visualLog_run env po (VISUAL_MAX_STEPS - S n) response s1)
    as (s2 & Hl & Ha2).
  rewrite (bind_ok _ _ _ Hl).
  destruct (functionCallsOf response) as [| c cs] eqn:Hcalls;
    [contradiction |].
  rewrite (bind_ok _ _ _ (visualActions_exact env (c :: cs) [] h s2)).
  set (s3 := after (flat_map visualDriverCall (c :: cs)) s2).
  destruct (visualRun_screenshot env s3) as (shot & s4 & Hshot & H4 & Hg4).
  rewrite (bind_ok _ _ _ Hshot).
  eexists (visualResults env (clock s2) (c :: cs)), _, s4.
  split; [reflexivity |]. split.
  - eapply visualRun_before; [exact H1 |].
    eapply visualRun_before; [apply visualRun_alike, Ha2 |].
    eapply visualRun_then; [apply visualRun_actions | exact H4].
  - rewrite Hg4. destruct Ha2 as (_ & _ & Hg2 & _). simpl. rewrite <- Hg2.
    reflexivity.
Qed.

(** Steps whose responses all carry calls, one after the other. *)
Lemma visualLoop_prefix env po responses n contents h st :
  (forall i response cs,
     nth_error responses i = Some response ->
     generateContent env (gens st + i) cs = Ok (Some response)) ->
  Forall (fun r => functionCallsOf r <> []) responses ->
  exists results contents' st',
    visualLoop env po (length responses + n) contents h st
    = visualLoop env po n contents'
        (h ++ historyOf env (flat_map functionCallsOf responses) results)
        st' /\
    visualRun env st st' (flat_map functionCallsOf responses) results /\
    gens st' = gens st + length responses.
Proof.
  revert contents h st.
  induction responses as [| response rest IH]; intros contents h st Hgen Hne.
  - exists [], contents, st. simpl. rewrite app_nil_r, Nat.add_0_r.
    split; [reflexivity |]. split; [| reflexivity].
    apply visualRun_alike, alike_refl.
  - inversion Hne as [| ? ? Hne1 Hne2]; subst.
    pose proof (Hgen 0 response contents eq_refl) as Hfirst.
    rewrite Nat.add_0_r in Hfirst.
    destruct (@visualLoop_step env po (length rest + n) contents h st
                response Hfirst Hne1)
      as (results1 & contents1 & s1 & Hstep & Hrun1 & Hg1).
    destruct (IH contents1
                (h ++ historyOf env (functionCallsOf response) results1) s1)
      as (results2 & contents2 & s2 & Hrun & Hrun2 & Hg2).
    + intros i r cts Hnth.
      replace (gens s1 + i) with (gens st + S i) by (rewrite Hg1; lia).
      apply Hgen. exact Hnth.
    + exact Hne2.
    + exists (results1 ++ results2), contents2, s2.
      change (length (response :: rest) + n) with (S (length rest + n)).
      rewrite Hstep, Hrun. split; [| split].
      * f_equal. unfold historyOf. cbn [flat_map].
        rewrite <- app_assoc, <- map_app. repeat f_equal.
        symmetry. apply combine_append.
        destruct Hrun1 as (_ & _ & Hf). apply (Forall2_length Hf).
      * cbn [flat_map]. apply (visualRun_app Hrun1 Hrun2).
      * rewrite Hg2, Hg1. simpl. lia.
Qed.

(** ** What [runTask] gives back *)

Lemma runTask_escapes env po prompt st e :
  ensureConnection env (clock st) = Ok tt ->
  updateBorderOverlay env (S (clock st)) false = Ok tt ->
  updateBorderOverlay env (S (S (clock st))) false = Throw e ->
  runTask env po prompt st = (Throw e, after connectEvents st).
Proof.
  intros Hc H1 H2. unfold runTask, tryCatch, bind, await, ret.
  rewrite Hc. cbv beta iota. rewrite !clock_ticked, H1.
  cbv beta iota. rewrite !clock_ticked, H2.
  unfold connectEvents. flatten_steps. reflexivity.
Qed.

(** Every way the task loop ends, with the number of model calls made and
    the model call that decided the value returned. *)
Lemma taskLoop_result env po prompt st :
  exists v st',
    taskLoop env po prompt st = (Ok v, st') /\
    streams st <= streams st' <= streams st + MAX_ITERATIONS /\
    (v = "Task finished"
     /\ (streams st' = streams st + MAX_ITERATIONS
         \/ abortedAt env (clock st') = true)
     \/ (exists k parts e,
           streams st' = S k /\
           v = JStr ("Error calling model: " ^^ errorText e) /\
           (sendMessageStream env k parts = Throw e
            \/ exists s, sendMessageStream env k parts = Ok s
                         /\ failure s = Some e))
     \/ (exists k parts s c,
           streams st' = S k /\
           sendMessageStream env k parts = Ok s /\ failure s = None /\
           In c (streamCalls s) /\ isCompletion c = true /\
           v = summaryOf c)).
Proof.
  unfold taskLoop.
  destruct (@whileFrom_result env po MAX_ITERATIONS (initialState prompt) st
              (conj eq_refl eq_refl))
    as (exit & st' & Hw & Hst & Hres).
  exists (returned exit), st'. rewrite (bind_ok _ _ _ Hw).
  split; [reflexivity |]. split; [exact Hst |].
  destruct Hres as [[Hv Hhow] | [(k & parts & e & Hk & _ & Hv & Hsrc) |
                                 (k & parts & s & c & Hk & _ & Hrest)]].
  - left. split; [exact Hv | exact Hhow].
  - right. left. exists k, parts, e. auto.
  - right. right. exists k, parts, s, c. split; [exact Hk | exact Hrest].
Qed.

(** * The claims *)

Lemma runTask_cases env po prompt st :
  exists s1,
    streams s1 = streams st /\
    (runTask env po prompt st = taskLoop env po prompt s1
     \/ exists r, runTask env po prompt st = (r, s1)).
Proof.
  unfold runTask, tryCatch, bind, await. simpl.
  destruct (ensureConnection env (clock st)) as [[] | e].
  - destruct (updateBorderOverlay env (S (clock st)) false) as [[] | e].
    + simpl.
      destruct (updateBorderOverlay env (S (S (clock st))) false) as [[] | e].
      * eexists. split; [| left; reflexivity]. reflexivity.
      * eexists. split; [| right; eexists; reflexivity]. reflexivity.
    + rewrite (printOutput_run po _ _). simpl.
      eexists. split; [| right; eexists; reflexivity].
      rewrite printOutput_streams. reflexivity.
  - rewrite (printOutput_run po _ _). simpl.
    eexists. split; [| right; eexists; reflexivity].
    rewrite printOutput_streams. reflexivity.
Qed.

(** C1.  The model stream of the first turn raises the empty-response
    error.  The [catch] recognises the message, yet [runTask] returns the
    error text after that one turn: the turn is not taken as one with no
    text and no calls, and the loop does not go on. *)
Theorem empty_stream_error_ends_task :
  let env :=
    Script.withModel
      (fun _ => Ok {| events := []; failure := Some emptyStreamError |})
      Script.idle in
  let r := runTask env true "go" st0 in
  includes "Model stream ended with empty response text"
           ("Error calling model: " ^^ errorText emptyStreamError) = true /\
  fst r
  = Ok "Error calling model: Model stream ended with empty response text." /\
  streams (snd r) = 1.
Proof. vm_compute. repeat split. Qed.

(** Whatever a model stream raises, the turn ends the task with the error
    text. *)
Lemma stream_error_returns env po ls st e :
  (forall t, abortedAt env t = false) ->
  (forall parts, sendMessageStream env (streams st) parts = Throw e) ->
  fst (loopBody env po ls st)
  = Ok (Return ("Error calling model: " ^^ errorText e)).
Proof.
  intros Hn Hs.
  pose proof (loopBody_run env po ls st) as H.
  destruct (loopBody env po ls st) as [r st'] eqn:E. simpl in H. simpl.
  inversion H; subst; clear H; try congruence.
  match goal with
  | Hm : callModel _ _ _ _ = _ |- _ =>
    destruct (callModel_run env po (messagePartsOf dom ls) (after evs st))
      as (turn' & st2' & Hm' & _ & _ & _ & _ & Hturn);
    rewrite Hm in Hm'; inversion Hm'; subst turn' st2'; clear Hm'
  end.
  simpl in Hturn. rewrite Hs in Hturn.
  destruct turn as [text calls | | msg].
  - destruct Hturn as (s & Hx & _). discriminate.
  - rewrite Hn in Hturn. discriminate.
  - destruct Hturn as (e' & -> & [Hx | (s & Hx & _)]); [| discriminate].
    inversion Hx; subst e'.
    match goal with
    | Hx : _ /\ _ |- _ => destruct Hx as [-> _]
    end. reflexivity.
Qed.

(** C2.  The second call of [updateBorderOverlay] stands outside every
    [try]: when it rejects, [runTask] rejects with it and the caller gets
    no string. *)
Theorem overlay_failure_escapes :
  let env :=
    Script.withOverlay
      (fun t _ => if (t =? 2)%nat then Throw (ErrorObj "Target closed")
                  else Ok tt)
      Script.idle in
  fst (runTask env false "go" st0) = Throw (ErrorObj "Target closed").
Proof. vm_compute. reflexivity. Qed.

(** Everywhere else [runTask] returns: if the overlay updates succeed, a
    value comes back, never an exception. *)
Lemma runTask_returns env po prompt st :
  (forall t, updateBorderOverlay env t false = Ok tt) ->
  exists s, fst (runTask env po prompt st) = Ok s.
Proof.
  intros Hov. unfold runTask, tryCatch, bind, await, ret. simpl.
  rewrite !Hov.
  destruct (ensureConnection env (clock st)) as [[] | e].
  - rewrite Hov. apply (safe_taskLoop env po prompt).
  - rewrite (printOutput_run po _ _). simpl. eauto.
Qed.

(** C3, as stated, fails: the model emits no call in the first turn and the
    task is not completed, and the second payload is the fresh snapshot
    followed by the re-prompt, not the re-prompt alone. *)
Lemma reprompt_payload_counterexample :
  let r := runTask Script.idle false "go" st0 in
  let tree := textPart ("<accessibility_tree>" ^^ LF ^^ "tree" ^^ LF
                        ^^ "</accessibility_tree>") in
  (forall k parts s,
     sendMessageStream Script.idle k parts = Ok s -> streamCalls s = []) /\
  nth_error (Script.payloads (trace (snd r))) 1
  = Some [tree; textPart rePrompt] /\
  [tree; textPart rePrompt] <> [textPart rePrompt].
Proof.
  split; [| split].
  - intros k parts s H. inversion H. reflexivity.
  - vm_compute. reflexivity.
  - discriminate.
Qed.

(** C3, amended.  After a turn in which the model emitted no function call
    and that reached its end, the input carried to the next turn is the
    re-prompt alone, the earlier tool responses being dropped; the payload
    the next turn sends is the part of the snapshot it has just captured,
    if that is not empty, followed by the re-prompt. *)
Theorem reprompt_after_snapshot (env : Env) (po : bool) (ls ls' : LoopState)
    (st st' : St) :
  loopBody env po ls st = (Ok (Continue ls'), st') ->
  (forall parts s,
     sendMessageStream env (streams st) parts = Ok s -> streamCalls s = []) ->
  currentInputParts ls' = [textPart rePrompt] /\
  forall st2 parts,
    In (EvSendMessageStream parts)
       (newEvents st2 (snd (loopBody env po ls' st2))) ->
    exists dom,
      fst (captureState env st2) = Ok dom /\
      parts = stateParts dom ++ [textPart rePrompt] /\
      Forall (fun p => p_functionResponse p = None) parts.
Proof.
  intros E Hnone.
  assert (Hparts : currentInputParts ls' = [textPart rePrompt]).
  { pose proof (loopBody_run env po ls st) as H. rewrite E in H. simpl in H.
    inversion H; subst; clear H.
    match goal with
    | Hm : callModel _ _ _ _ = _ |- _ =>
      destruct (callModel_run env po (messagePartsOf dom ls) (after evs st))
        as (turn' & st2' & Hm' & _ & _ & _ & _ & Hturn);
      rewrite Hm in Hm'; inversion Hm'; subst turn' st2'; clear Hm'
    end.
    destruct turn as [text calls | | msg];
      try match goal with
          | Hx : _ /\ _ |- _ => destruct Hx as [Hx _]; discriminate
          end.
    destruct Hturn as (s & Hs & _ & Hcalls & _). simpl in Hs.
    apply Hnone in Hs. rewrite Hs in Hcalls. subst calls.
    match goal with
    | Hx : executePhase _ _ _ _ _ = _ |- _ =>
      unfold executePhase in Hx;
        rewrite (bind_ok _ _ _ (printOutput_run _ _ _)) in Hx;
        inversion Hx
    end.
    reflexivity. }
  split; [exact Hparts |].
  intros st2 parts Hin.
  destruct (loopBody_trace env po ls' st2) as (capture & rest & Ht & Hcase).
  rewrite (@newEvents_app _ _ _ Ht) in Hin.
  destruct Hcase as [(_ & -> & ->) | (_ & Hcap & Hrest)]; [contradiction |].
  apply in_app_or in Hin. destruct Hin as [Hin | Hin].
  - destruct Hcap as [[-> _] | [-> _]]; simpl in Hin;
      repeat (destruct Hin as [Hin | Hin]; [discriminate |]); contradiction.
  - destruct Hrest as [-> | (dom & tools & Hdom & -> & Hf)]; [contradiction |].
    destruct Hin as [Hin | Hin].
    + inversion Hin; subst parts. exists dom. split; [exact Hdom |].
      unfold messagePartsOf. rewrite Hparts. split; [reflexivity |].
      apply Forall_app. split.
      * unfold stateParts. destruct (dom =? ""); repeat constructor.
      * repeat constructor.
    + rewrite Forall_forall in Hf. apply Hf in Hin. discriminate.
Qed.

Lemma reprompt_after_snapshot_witness :
  currentInputParts
    {| currentInputParts := [textPart rePrompt]; iterationCount := 1;
       taskCompleted := false; taskSummary := "" |}
  = [textPart rePrompt] /\
  forall st2 parts,
    In (EvSendMessageStream parts)
       (newEvents st2
          (snd (loopBody Script.idle false
                  {| currentInputParts := [textPart rePrompt];
                     iterationCount := 1;
                     taskCompleted := false; taskSummary := "" |} st2))) ->
    exists dom,
      fst (captureState Script.idle st2) = Ok dom /\
      parts = stateParts dom ++ [textPart rePrompt] /\
      Forall (fun p => p_functionResponse p = None) parts.
Proof.
  apply (@reprompt_after_snapshot Script.idle false (initialState "go") _ st0
           (snd (loopBody Script.idle false (initialState "go") st0))).
  - vm_compute. reflexivity.
  - intros parts s H. inversion H. reflexivity.
Defined.

(** C4, as stated, fails: with two calls queued and the signal seen aborted
    before the first dispatch, neither call is executed and the loop is
    left, but the value returned is ["Task finished"]; the cancellation
    notice only goes to [printOutput]. *)
Lemma cancel_returns_task_finished :
  let r := runTask cancelledTurn true "go" st0 in
  fst r = Ok "Task finished" /\
  includes "cancel" "Task finished" = false /\
  Script.toolCalls (trace (snd r)) = [] /\
  streams (snd r) = 1 /\
  printed (snd r)
  = ["🔧 Generating tool call: click...";
     "🔧 Generating tool call: navigate..."; cancelNotice].
Proof. vm_compute. repeat split. Qed.

(** C4, amended.  Between the check that follows the model stream and the
    check before the first dispatch nothing is awaited, so a signal that is
    seen aborted before any dispatch is seen so at the end of the model
    call.  In a turn a run comes to, whose stream ends normally with two
    calls queued, the signal being seen aborted then: neither call is
    executed, the turn issues the calls of the state capture and the model
    call and nothing else, the loop is left, [runTask] returns
    ["Task finished"], and the cancellation notice is the last line
    [printOutput] gets. *)
Theorem cancelled_before_dispatch (env : Env) (po : bool) (prompt : string)
    (st0 : St) (n : nat) (ls : LoopState) (st : St) (dom : string)
    (evs : list Event) (s : Stream) (c1 c2 : FunctionCall) :
  Reaches env po prompt st0 (S n) ls st ->
  captureState env st = (Ok dom, after evs st) ->
  abortedAt env (clock (after evs st)) = false ->
  sendMessageStream env (streams st) (messagePartsOf dom ls) = Ok s ->
  failure s = None ->
  streamCalls s = [c1; c2] ->
  abortedAt env
    (clock (snd (callModel env po (messagePartsOf dom ls) (after evs st))))
  = true ->
  let r := runTask env po prompt st0 in
  fst r = Ok "Task finished" /\
  newEvents st (snd r) = evs ++ [EvSendMessageStream (messagePartsOf dom ls)] /\
  (evs = captureEvents \/ evs = [EvGetMcpClient]) /\
  (po = true -> exists pre, printed (snd r) = pre ++ [cancelNotice]).
Proof.
  intros Hr Hcap Hab1 Hs Hf _ Hab2. cbv zeta.
  destruct (reaches_unfinished Hr) as (Hu & _ & _).
  rewrite (reaches_run Hr).
  assert (Hab0 : abortedAt env (clock st) = false).
  { destruct (abortedAt env (clock st)) eqn:E; [| reflexivity].
    rewrite (@abortedAt_mono env _ (clock (after evs st)) E) in Hab1;
      [discriminate | simpl; lia]. }
  destruct (callModel_run env po (messagePartsOf dom ls) (after evs st))
    as (turn & st2 & Hm & _ & _ & Htr & _ & Hturn).
  rewrite Hm in Hab2. cbn [snd] in Hab2. cbn [streams after] in Hturn.
  assert (Ht : turn = CancelledAfterStream).
  { destruct turn as [text calls | | msg]; [| reflexivity |].
    - destruct Hturn as (_ & _ & _ & _ & Hx). congruence.
    - destruct Hturn as (e & _ & [Hx | (s' & Hx & Hy)]); congruence. }
  subst turn.
  assert (Hb : loopBody env po ls st = (Ok (Break ls), st2)).
  { unfold loopBody. rewrite bind_signalAborted, Hab0.
    rewrite (bind_ok _ _ _ Hcap), bind_signalAborted, Hab1.
    rewrite (bind_ok _ _ _ Hm). reflexivity. }
  assert (Hw : whileFrom env po (S n) (Continue ls) st = (Ok (Exited ls), st2)).
  { cbn [whileFrom]. rewrite (bind_ok _ _ _ Hb). destruct n; reflexivity. }
  rewrite (bind_ok _ _ _ Hw). unfold ret. cbn [fst snd returned].
  assert (He : newEvents st st2
               = evs ++ [EvSendMessageStream (messagePartsOf dom ls)]).
  { apply newEvents_app. rewrite Htr. cbn [trace after].
    rewrite <- app_assoc. reflexivity. }
  split; [rewrite (finish_unfinished Hu); reflexivity |].
  split; [exact He |].
  split.
  - destruct (captureState_run env st) as (dom' & evs' & Hc' & Hev).
    assert (evs' = evs) as ->.
    { assert (Ha : after evs st = after evs' st) by congruence.
      apply (f_equal trace) in Ha. simpl in Ha.
      apply app_inv_head in Ha. auto. }
    destruct Hev as [[-> _] | [-> _]]; auto.
  - intros Hpo. eapply callModel_notice; eassumption.
Qed.

Lemma cancelled_before_dispatch_witness :
  let r := runTask cancelledTurn true "go" st0 in
  fst r = Ok "Task finished" /\
  newEvents (after connectEvents st0) (snd r)
  = captureEvents
    ++ [EvSendMessageStream (messagePartsOf "tree" (initialState "go"))] /\
  (captureEvents = captureEvents \/ captureEvents = [EvGetMcpClient]) /\
  (true = true -> exists pre, printed (snd r) = pre ++ [cancelNotice]).
Proof.
  apply (@cancelled_before_dispatch cancelledTurn true "go" st0 19
           (initialState "go") (after connectEvents st0) "tree" captureEvents
           (Script.oneChunk
              [Script.call "click" [("uid", JStr "87_4")];
               Script.call "navigate" [("url", JStr "https://example.com")]])
           (Script.call "click" [("uid", JStr "87_4")])
           (Script.call "navigate" [("url", JStr "https://example.com")])).
  - apply FirstTurn; reflexivity.
  - reflexivity.
  - reflexivity.
  - reflexivity.
  - reflexivity.
  - reflexivity.
  - vm_compute. reflexivity.
Defined.



(** C6, as stated, fails: when the client cannot be obtained, the turn
    issues no snapshot request at all and still goes on to call the model,
    with an empty snapshot. *)
Lemma turn_without_snapshot_call :
  let r := loopBody noClient false (initialState "go") st0 in
  filter isSnapshotCall (trace (snd r)) = [] /\
  Script.payloads (trace (snd r)) = [[textPart "Task: go"]].
Proof. vm_compute. split; reflexivity. Qed.

(** C6, amended.  A turn that is not cancelled at its top begins with one
    attempt to capture the state: the client is asked for and, when it is
    obtained, exactly one snapshot request follows, none otherwise.  The
    model is called after that, at most once, with the snapshot this very
    attempt produced.  Nothing later in the turn is a state capture or a
    model call; the snapshot requests that do follow are those the model
    asked for, one for each dispatched call of [take_snapshot] (or of
    [takeSnapshot], reached by name), in order. *)
Theorem capture_once_per_turn (env : Env) (po : bool) (ls : LoopState)
    (st : St) :
  abortedAt env (clock st) = false ->
  exists capture rest,
    newEvents st (snd (loopBody env po ls st)) = capture ++ rest /\
    (capture = captureEvents /\ getMcpClient env (clock st) = Ok tt
     \/ capture = [EvGetMcpClient]
        /\ exists e, getMcpClient env (clock st) = Throw e) /\
    Forall (fun ev => isStateCapture ev = false) rest /\
    (rest = []
     \/ exists dom tools dispatched,
          fst (captureState env st) = Ok dom /\
          rest = EvSendMessageStream (messagePartsOf dom ls) :: tools /\
          Forall (fun ev => isModelCall ev = false) tools /\
          filter isSnapshotCall tools = flat_map snapshotRequest dispatched /\
          (dispatched = []
           \/ exists s skipped,
                sendMessageStream env (streams st) (messagePartsOf dom ls)
                = Ok s /\
                failure s = None /\
                streamCalls s = dispatched ++ skipped /\
                (skipped = []
                 \/ abortedAt env (clock (snd (loopBody env po ls st)))
                    = true))).
Proof.
  intros Hab.
  assert (Hd : forall tools,
             Forall (fun ev => dispatchEvent ev = true) tools ->
             Forall (fun ev => isStateCapture ev = false) tools
             /\ Forall (fun ev => isModelCall ev = false) tools).
  { intros tools Hf. split; eapply Forall_impl; try exact Hf;
      intros ev Hev; unfold dispatchEvent in Hev;
      apply andb_prop in Hev; destruct Hev as [H1 H2];
      apply negb_true_iff; assumption. }
  pose proof (loopBody_run env po ls st) as H.
  destruct (loopBody env po ls st) as [r st'] eqn:E. cbn [fst snd] in *.
  inversion H; subst; clear H; [congruence | |];
    destruct (captureState_run env st) as (dom' & evs' & Hc' & Hev);
    (assert (evs' = evs) as ->
       by (assert (Ha : after evs st = after evs' st) by congruence;
           apply (f_equal trace) in Ha; simpl in Ha;
           apply app_inv_head in Ha; auto)).
  - exists evs, []. split; [| split; [exact Hev | split; [constructor | auto]]].
    apply newEvents_app. rewrite printOutput_trace, app_nil_r. reflexivity.
  - assert (Hcap : fst (captureState env st) = Ok dom).
    { match goal with
      | Hc : captureState env st = (Ok dom, _) |- _ => rewrite Hc
      end. reflexivity. }
    match goal with
    | Hm : callModel _ _ _ _ = _ |- _ =>
      destruct (callModel_run env po (messagePartsOf dom ls) (after evs st))
        as (turn' & st2' & Hm' & _ & _ & Htr & _ & Hturn);
      rewrite Hm in Hm'; inversion Hm'; subst turn' st2'; clear Hm'
    end.
    cbn [trace streams after] in Htr, Hturn.
    assert (Hrest : exists tools dispatched,
               trace st' = trace st2 ++ tools /\
               Forall (fun ev => dispatchEvent ev = true) tools /\
               filter isSnapshotCall tools
               = flat_map snapshotRequest dispatched /\
               (dispatched = []
                \/ exists s skipped,
                     sendMessageStream env (streams st) (messagePartsOf dom ls)
                     = Ok s /\
                     failure s = None /\
                     streamCalls s = dispatched ++ skipped /\
                     (skipped = [] \/ abortedAt env (clock st') = true))).
    { destruct turn as [text calls | | msg].
      - destruct Hturn as (s & Hs & Hf & Hcalls & _).
        destruct calls as [| call rest].
        + exists [], []. repeat split; auto.
          match goal with
          | Hx : executePhase _ _ _ _ _ = _ |- _ =>
            apply (f_equal snd) in Hx; cbn [snd] in Hx; rewrite <- Hx
          end.
          unfold executePhase.
          rewrite (bind_ok _ _ _ (printOutput_run _ _ _)). unfold ret.
          cbn [snd]. rewrite printOutput_trace, app_nil_r. reflexivity.
        + match goal with
          | Hx : executePhase _ _ _ _ _ = _ |- _ =>
            apply (f_equal snd) in Hx; cbn [snd] in Hx;
              rewrite executePhase_state in Hx
          end.
          destruct (executeTools_snapshots env po (call :: rest) []
                      (taskCompleted ls, taskSummary ls) st2)
            as (d & k & tools & Hsplit & Hskip & Ht & Hf' & Hsnap).
          match goal with
          | Hx : snd (executeTools _ _ _ _ _ _) = st' |- _ =>
            rewrite Hx in Ht, Hskip
          end.
          exists tools, d. repeat split; auto.
          right. exists s, k. rewrite <- Hcalls. auto.
      - match goal with
        | Hx : _ /\ _ |- _ => destruct Hx as [_ ->]
        end.
        exists [], []. rewrite app_nil_r. repeat split; auto.
      - match goal with
        | Hx : _ /\ _ |- _ => destruct Hx as [_ ->]
        end.
        exists [], []. rewrite app_nil_r. repeat split; auto. }
    destruct Hrest as (tools & dispatched & Ht & Hf & Hsnap & Hsrc).
    destruct (Hd tools Hf) as [Hs Hm'].
    exists evs, (EvSendMessageStream (messagePartsOf dom ls) :: tools).
    split; [| split; [exact Hev | split]].
    + apply newEvents_app. rewrite Ht, Htr, <- !app_assoc. reflexivity.
    + constructor; [reflexivity | exact Hs].
    + right. exists dom, tools, dispatched. auto.
Qed.

Lemma capture_once_per_turn_witness :
  exists capture rest,
    newEvents st0 (snd (loopBody snapshotAsked false (initialState "go") st0))
    = capture ++ rest /\
    (capture = captureEvents /\ getMcpClient snapshotAsked (clock st0) = Ok tt
     \/ capture = [EvGetMcpClient]
        /\ exists e, getMcpClient snapshotAsked (clock st0) = Throw e) /\
    Forall (fun ev => isStateCapture ev = false) rest /\
    (rest = []
     \/ exists dom tools dispatched,
          fst (captureState snapshotAsked st0) = Ok dom /\
          rest = EvSendMessageStream (messagePartsOf dom (initialState "go"))
                 :: tools /\
          Forall (fun ev => isModelCall ev = false) tools /\
          filter isSnapshotCall tools = flat_map snapshotRequest dispatched /\
          (dispatched = []
           \/ exists s skipped,
                sendMessageStream snapshotAsked (streams st0)
                  (messagePartsOf dom (initialState "go"))
                = Ok s /\
                failure s = None /\
                streamCalls s = dispatched ++ skipped /\
                (skipped = []
                 \/ abortedAt snapshotAsked
                      (clock (snd (loopBody snapshotAsked false
                                     (initialState "go") st0)))
                    = true))).
Proof.
  apply (@capture_once_per_turn snapshotAsked false (initialState "go") st0).
  reflexivity.
Defined.

(** The turn of [snapshotAsked]: the capture of the loop, then the
    snapshot the model asked for. *)
Example model_asks_for_snapshot :
  let r := loopBody snapshotAsked false (initialState "go") st0 in
  filter isSnapshotCall (trace (snd r))
  = [EvCallTool "take_snapshot" captureArgs;
     EvBrowserTools takeSnapshot [Some (JBool true)]] /\
  filter isStateCapture (trace (snd r))
  = [EvCallTool "take_snapshot" captureArgs].
Proof. vm_compute. split; reflexivity. Qed.

(** ** Completion *)

(** In a task that is never cancelled, if the stream of model call [k]
    ends normally and the last [complete_task] call it carries is [c], then
    the loop is left right after that turn with the summary of [c]. *)
Lemma whileFrom_completion env po n ls st k s pre c post :
  abort_at env = None ->
  (forall parts, sendMessageStream env k parts = Ok s) ->
  failure s = None ->
  streamCalls s = pre ++ c :: post ->
  isCompletion c = true ->
  forallb (fun x => negb (isCompletion x)) post = true ->
  streams st <= k ->
  k < streams (snd (whileFrom env po n (Continue ls) st)) ->
  exists ls',
    fst (whileFrom env po n (Continue ls) st) = Ok (Exited ls') /\
    taskSummary ls' = summaryOf c /\
    streams (snd (whileFrom env po n (Continue ls) st)) = S k.
Proof.
  intros Hab Hs Hf Hcalls Hc Hpost.
  revert ls st. induction n as [| n IH]; intros ls st Hle Hlt.
  - simpl in Hlt. lia.
  - destruct (@loopBody_uncancelled env po ls st Hab)
      as (dom & st1 & st2 & st' & _ & Hst2 & Hst' & Hsnd & Hturn).
    destruct (safe_loopBody env po ls st) as [c0 Hc0].
    assert (Hb : loopBody env po ls st = (Ok c0, st')).
    { rewrite <- Hsnd, <- Hc0. apply surjective_pairing. }
    simpl in Hlt. simpl. rewrite (bind_ok _ _ _ Hb) in *.
    destruct (Nat.eq_dec (streams st) k) as [Hk | Hk].
    + rewrite Hk, Hs, Hf, Hc0 in Hturn.
      destruct (executePhase_run env po ls (streamCalls s) st2)
        as (c1 & st3 & He & _ & Hshape).
      rewrite He in Hturn. inversion Hturn; subst c1 st3; clear Hturn.
      rewrite Hcalls in Hshape.
      destruct (pre ++ c :: post) as [| x xs] eqn:Hne;
        [destruct pre; discriminate |].
      destruct Hshape as (d & skipped & rs & Hd & _ & Hskip & Hshape).
      destruct Hskip as [-> | Hx];
        [| rewrite (never_aborted _ _ Hab) in Hx; discriminate].
      rewrite app_nil_r in Hd. subst d. rewrite <- Hne in Hshape.
      cbv zeta in Hshape.
      rewrite flagsAfter_app in Hshape. simpl flagsAfter in Hshape.
      rewrite Hc, (flagsAfter_none _ _ Hpost) in Hshape. simpl in Hshape.
      subst c0. eexists. destruct n; simpl; (split; [reflexivity |]);
        (split; [reflexivity | lia]).
    + destruct c0 as [ls1 | ls1 | msg].
      * apply IH; [lia | exact Hlt].
      * destruct n; simpl in Hlt; lia.
      * destruct n; simpl in Hlt; lia.
Qed.

Lemma runTask_completion env po prompt k s pre c post :
  abort_at env = None ->
  (forall parts, sendMessageStream env k parts = Ok s) ->
  failure s = None ->
  streamCalls s = pre ++ c :: post ->
  isCompletion c = true ->
  forallb (fun x => negb (isCompletion x)) post = true ->
  k < streams (snd (runTask env po prompt st0)) ->
  fst (runTask env po prompt st0) = Ok (summaryOf c) /\
  streams (snd (runTask env po prompt st0)) = S k.
Proof.
  intros Hab Hs Hf Hcalls Hc Hpost Hlt.
  destruct (runTask_cases env po prompt st0) as (s1 & Hs1 & [Hr | [r Hr]]).
  - rewrite Hr in *. unfold taskLoop in *.
    destruct (safe_whileFrom env po MAX_ITERATIONS
                (Continue (initialState prompt)) s1) as [exit Hexit].
    destruct (whileFrom env po MAX_ITERATIONS
                (Continue (initialState prompt)) s1) as [r s2] eqn:Hw.
    simpl in Hexit. subst r. rewrite (bind_ok _ _ _ Hw) in *.
    assert (Hlt' : k < streams s2).
    { destruct exit; simpl in Hlt; exact Hlt. }
    destruct (@whileFrom_completion env po MAX_ITERATIONS
                (initialState prompt) s1 k s pre c post
                Hab Hs Hf Hcalls Hc Hpost)
      as (ls' & H1 & H2 & H3).
    + simpl in Hs1. lia.
    + rewrite Hw. exact Hlt'.
    + rewrite Hw in H1, H3. simpl in H1, H3. inversion H1; subst exit.
      unfold ret. cbn [fst snd returned]. split; [| exact H3].
      rewrite (@finish_summary ls' c H2). reflexivity.
  - rewrite Hr in Hlt. simpl in Hlt, Hs1. lia.
Qed.

(** C7, as stated, fails: the model emits a [complete_task] call with
    summary ["Done"], and another one after it in the same turn; the
    value returned is the summary of the later call. *)
Lemma later_completion_wins :
  let env :=
    Script.withModel
      (fun _ => Ok (Script.oneChunk
                      [Script.call "complete_task" [("summary", JStr "Done")];
                       Script.call "complete_task"
                                   [("summary", JStr "Later")]]))
      Script.idle in
  let r := runTask env false "go" st0 in
  fst r = Ok "Later" /\ fst r <> Ok "Done" /\ streams (snd r) = 1.
Proof. vm_compute. repeat split. discriminate. Qed.

(** C7, amended.  In a task that is not cancelled, if the stream of some
    turn ends normally and the last [complete_task] call it carries has
    the summary ["Done"], then [runTask] returns ["Done"] and that turn is
    the last one, whatever other calls were queued before or after the
    completion in that turn. *)
Theorem completion_returns_summary (env : Env) (po : bool) (prompt : string)
    (k : nat) (s : Stream) (pre post : list FunctionCall)
    (c : FunctionCall) :
  abort_at env = None ->
  (forall parts, sendMessageStream env k parts = Ok s) ->
  failure s = None ->
  streamCalls s = pre ++ c :: post ->
  fc_name c = Some "complete_task" ->
  lookup "summary" (argsOf c) = Some (JStr "Done") ->
  forallb (fun x => negb (isCompletion x)) post = true ->
  k < streams (snd (runTask env po prompt st0)) ->
  fst (runTask env po prompt st0) = Ok "Done" /\
  streams (snd (runTask env po prompt st0)) = S k.
Proof.
  intros Hab Hs Hf Hcalls Hn Hsum Hpost Hlt.
  assert (Hc : isCompletion c = true).
  { unfold isCompletion. rewrite Hn. reflexivity. }
  destruct (@runTask_completion env po prompt k s pre c post
              Hab Hs Hf Hcalls Hc Hpost Hlt) as [H1 H2].
  split; [| exact H2].
  rewrite H1. unfold summaryOf, or_value. rewrite Hsum. reflexivity.
Qed.

Lemma completion_returns_summary_witness :
  fst (runTask doneInSecondTurn false "go" st0) = Ok "Done" /\
  streams (snd (runTask doneInSecondTurn false "go" st0)) = 2.
Proof.
  apply (@completion_returns_summary doneInSecondTurn false "go" 1
           (Script.oneChunk
              [Script.call "click" [("uid", JStr "87_4")];
               Script.call "complete_task" [("summary", JStr "Done")];
               Script.call "press_key" [("key", JStr "Enter")]])
           [Script.call "click" [("uid", JStr "87_4")]]
           [Script.call "press_key" [("key", JStr "Enter")]]
           (Script.call "complete_task" [("summary", JStr "Done")]));
    try reflexivity.
  vm_compute. lia.
Defined.

(** C10, as stated, fails: a [complete_task] call without a summary is
    answered with the default text, but when another completion follows it
    in the same turn the value returned is the summary of that one. *)
Lemma default_summary_overridden :
  let env :=
    Script.withModel
      (fun _ => Ok (Script.oneChunk
                      [Script.call "complete_task" [];
                       Script.call "complete_task"
                                   [("summary", JStr "Later")]]))
      Script.idle in
  let r := runTask env false "go" st0 in
  fst r = Ok "Later" /\ fst r <> Ok "Task completed".
Proof. vm_compute. split; [reflexivity | discriminate]. Qed.

(** C10, amended.  A [complete_task] call whose summary is absent or empty
    is answered with ["Task completed"]; and in a task that is not
    cancelled, if the stream of some turn ends normally and its last
    [complete_task] call is such a call, [runTask] returns
    ["Task completed"], not ["Task finished"], and that turn is the last
    one. *)
Theorem default_completion_summary (env : Env) (po : bool) (prompt : string)
    (k : nat) (s : Stream) (pre post : list FunctionCall)
    (c : FunctionCall) :
  fc_name c = Some "complete_task" ->
  lookup "summary" (argsOf c) = None
  \/ lookup "summary" (argsOf c) = Some (JStr "") ->
  (forall flags st,
     fst (guardedDispatch env po "complete_task" (argsOf c) flags st)
     = Ok (TextContent "Task completed", (true, JStr "Task completed"))) /\
  (abort_at env = None ->
   (forall parts, sendMessageStream env k parts = Ok s) ->
   failure s = None ->
   streamCalls s = pre ++ c :: post ->
   forallb (fun x => negb (isCompletion x)) post = true ->
   k < streams (snd (runTask env po prompt st0)) ->
   fst (runTask env po prompt st0) = Ok "Task completed" /\
   fst (runTask env po prompt st0) <> Ok "Task finished" /\
   streams (snd (runTask env po prompt st0)) = S k).
Proof.
  intros Hn Hsum.
  assert (Hdef : summaryOf c = "Task completed").
  { unfold summaryOf, or_value. destruct Hsum as [-> | ->]; reflexivity. }
  split.
  - intros flags st. unfold guardedDispatch, tryCatch.
    rewrite dispatchSwitch_complete. cbv zeta.
    fold (summaryOf c). rewrite Hdef. reflexivity.
  - intros Hab Hs Hf Hcalls Hpost Hlt.
    assert (Hc : isCompletion c = true).
    { unfold isCompletion. rewrite Hn. reflexivity. }
    destruct (@runTask_completion env po prompt k s pre c post
                Hab Hs Hf Hcalls Hc Hpost Hlt) as [H1 H2].
    rewrite H1, Hdef. repeat split; [discriminate | exact H2].
Qed.

Lemma default_completion_summary_witness :
  (forall flags st,
     fst (guardedDispatch bareCompletion true "complete_task" [] flags st)
     = Ok (TextContent "Task completed", (true, JStr "Task completed"))) /\
  fst (runTask bareCompletion true "go" st0) = Ok "Task completed" /\
  fst (runTask bareCompletion true "go" st0) <> Ok "Task finished" /\
  streams (snd (runTask bareCompletion true "go" st0)) = 1.
Proof.
  destruct (@default_completion_summary bareCompletion true "go" 0
              (Script.oneChunk
                 [Script.call "hover" [("uid", JStr "1_2")];
                  {| fc_name := Some "complete_task"; fc_args := None |}])
              [Script.call "hover" [("uid", JStr "1_2")]] []
              {| fc_name := Some "complete_task"; fc_args := None |}
              eq_refl (or_introl eq_refl)) as [H1 H2].
  split; [exact H1 |].
  apply H2; try reflexivity.
  vm_compute. lia.
Defined.

(** ** Responses to the calls of a turn *)

(** C8, as stated, fails: a call that comes without a name is skipped with
    a warning; it gets no response, and the payload of the next turn
    carries none. *)
Lemma nameless_call_unanswered :
  let env :=
    Script.withModel (fun _ => Ok (Script.oneChunk [nameless])) Script.idle in
  let r := runTask env false "go" st0 in
  let tree := textPart ("<accessibility_tree>" ^^ LF ^^ "tree" ^^ LF
                        ^^ "</accessibility_tree>") in
  fst (executeTools env false [nameless] [] (false, JStr "") st0)
  = Ok ([], (false, JStr "")) /\
  nth_error (Script.payloads (trace (snd r))) 1 = Some [tree].
Proof. vm_compute. split; reflexivity. Qed.

(** C8, amended.  The calls of a turn are dispatched in order, all of them
    unless the signal is seen aborted before one of them.  Each dispatched
    call that has a name gets one function response under that name, in
    the same order, and these responses are the input carried to the next
    turn; a call without a name gets none.  The response holds what the
    call's case of the [switch] gave; when the case throws, the response
    holds ["Error executing <name>: <error text>"], and the calls after it
    are dispatched all the same, from the state the failed one left
    ([Answered]). *)
Theorem responses_pair_with_named_calls (env : Env) (po : bool)
    (ls : LoopState) (call : FunctionCall) (rest : list FunctionCall)
    (st : St) :
  exists dispatched skipped parts (flags' : bool * JsVal) st',
    executePhase env po ls (call :: rest) st
    = (Ok (if fst flags'
           then Break {| currentInputParts := parts;
                         iterationCount := iterationCount ls;
                         taskCompleted := fst flags';
                         taskSummary := snd flags' |}
           else Continue {| currentInputParts := parts;
                            iterationCount := S (iterationCount ls);
                            taskCompleted := fst flags';
                            taskSummary := snd flags' |}), st') /\
    call :: rest = dispatched ++ skipped /\
    (skipped = [] \/ abortedAt env (clock st') = true) /\
    Answered env po (taskCompleted ls, taskSummary ls) st
             dispatched parts flags' st' /\
    Forall2 answers (filter hasName dispatched) parts.
Proof.
  destruct (executeTools_answered env po (call :: rest) []
              (taskCompleted ls, taskSummary ls) st)
    as (d & k & parts & [completed summary] & st' & Hrun & Hcalls & Hskip
        & Hans).
  exists d, k, parts, (completed, summary), st'.
  split; [| split; [exact Hcalls | split; [exact Hskip | split]]].
  - unfold executePhase. rewrite (bind_ok _ _ _ Hrun). cbn [app fst snd].
    destruct completed; reflexivity.
  - exact Hans.
  - eapply answered_answers, Hans.
Qed.

(** A key press that throws is answered with the error text, and the click
    queued after it is still executed and answered. *)
Example press_key_throws_click_runs :
  let env :=
    Script.withTools
      (fun _ m _ => match m with
                    | pressKey => Throw (ErrorObj "No page")
                    | _ => Ok Script.okResult
                    end)
      Script.idle in
  let r := executeTools env false
             [Script.call "press_key" [("key", JStr "Enter")];
              Script.call "click" [("uid", JStr "87_4")]]
             [] (false, JStr "") st0 in
  fst r
  = Ok ([responsePart (Some "press_key")
           (TextContent "Error executing press_key: No page");
         responsePart (Some "click") (TextContent "ok")],
        (false, JStr "")) /\
  Script.toolCalls (trace (snd r)) = [pressKey; click].
Proof. vm_compute. split; reflexivity. Qed.

(** ** The visual delegate *)

(** C9.  When each of the five model responses of the visual delegate
    carries at least one function call, [runVisualDelegate] returns
    normally; its output is the max-steps marker followed by the history
    of all the actions of all the steps, one line per call, in the order
    the calls were emitted.  Each line names the tool and its arguments
    and gives the result of that action, which is what the driver gave it
    during the run (or the error result of an action that reaches no
    driver method); the driver methods called are those of the actions, in
    that same order. *)
Theorem visual_delegate_max_steps (env : Env) (po : bool)
    (instruction : JsVal) (initialScreenshot : string) (st : St)
    (responses : list Content) :
  length responses = VISUAL_MAX_STEPS ->
  (forall i response contents,
     nth_error responses i = Some response ->
     generateContent env (gens st + i) contents = Ok (Some response)) ->
  Forall (fun r => functionCallsOf r <> []) responses ->
  exists results st',
    runVisualDelegate env po instruction initialScreenshot st
    = (Ok ("Visual Agent reached max steps." ^^ LF ^^ "Actions Taken:" ^^ LF
           ^^ join LF (historyOf env (flat_map functionCallsOf responses)
                                 results)),
       st') /\
    Forall2 (fun call res =>
               exists t, clock st <= t <= clock st'
                         /\ res = visualResultAt env t call)
            (flat_map functionCallsOf responses) results /\
    toolEvents (newEvents st st')
    = flat_map visualDriverCall (flat_map functionCallsOf responses) /\
    gens st' = gens st + VISUAL_MAX_STEPS.
Proof.
  intros Hlen Hgen Hne. unfold runVisualDelegate. cbv zeta.
  match goal with
  | |- context [visualLoop env po VISUAL_MAX_STEPS ?cts []] =>
    destruct (@visualLoop_prefix env po responses 0 cts [] st Hgen Hne)
      as (results & contents' & s1 & Hrun & Hr1 & Hg)
  end.
  rewrite Nat.add_0_r, Hlen in Hrun.
  unfold bind at 1. rewrite Hrun. cbn [visualLoop]. unfold ret at 1.
  cbv beta iota. cbn [app].
  destruct (visualRun_invalidateCache env s1) as (s2 & Hi & Hr2 & Hg2).
  rewrite (bind_ok _ _ _ Hi).
  destruct (visualRun_then Hr1 Hr2) as (_ & (evs & Ht & Hev) & Hres).
  exists results, s2.
  split; [reflexivity |]. split; [exact Hres |]. split.
  - rewrite (@newEvents_app _ _ _ Ht). exact Hev.
  - rewrite Hg2, Hg, Hlen. reflexivity.
Qed.

Lemma visual_delegate_max_steps_witness :
  exists results st',
    runVisualDelegate alwaysClicking false "Click the blue button" "" st0
    = (Ok ("Visual Agent reached max steps." ^^ LF ^^ "Actions Taken:" ^^ LF
           ^^ join LF (historyOf alwaysClicking
                         (flat_map functionCallsOf
                                   (repeat clickResponse VISUAL_MAX_STEPS))
                         results)),
       st') /\
    Forall2 (fun call res =>
               exists t, clock st0 <= t <= clock st'
                         /\ res = visualResultAt alwaysClicking t call)
            (flat_map functionCallsOf (repeat clickResponse VISUAL_MAX_STEPS))
            results /\
    toolEvents (newEvents st0 st')
    = flat_map visualDriverCall
        (flat_map functionCallsOf (repeat clickResponse VISUAL_MAX_STEPS)) /\
    gens st' = gens st0 + VISUAL_MAX_STEPS.
Proof.
  apply (@visual_delegate_max_steps alwaysClicking false
           "Click the blue button" "" st0
           (repeat clickResponse VISUAL_MAX_STEPS)).
  - reflexivity.
  - intros i response contents H.
    assert (Hr : response = clickResponse).
    { apply nth_error_In in H. apply repeat_spec in H. exact H. }
    rewrite Hr. reflexivity.
  - repeat constructor; discriminate.
Defined.

(** The summary of that run, and the driver calls behind it. *)
Example visual_delegate_summary :
  let r := runVisualDelegate alwaysClicking false "Click the blue button" ""
             st0 in
  fst r
  = Ok ("Visual Agent reached max steps." ^^ LF ^^ "Actions Taken:" ^^ LF
        ^^ "- click_at(x=10, y=20) => ok" ^^ LF
        ^^ "- click_at(x=10, y=20) => ok" ^^ LF
        ^^ "- click_at(x=10, y=20) => ok" ^^ LF
        ^^ "- click_at(x=10, y=20) => ok" ^^ LF
        ^^ "- click_at(x=10, y=20) => ok") /\
  toolEvents (trace (snd r))
  = repeat (EvBrowserTools clickAt [Some (JNum 10); Some (JNum 20)]) 5.
Proof. vm_compute. split; reflexivity. Qed.

(** * Further properties of the loops *)

(** ** States *)

(** ** Connecting *)

(** X1.  When the connection cannot be established, or the overlay update
    that follows it in the same [try] fails, [runTask] returns the
    connection error text at once: nothing else is asked of the driver, the
    model is not called, and the text is what [printOutput] gets. *)
Theorem connection_failure_returns (env : Env) (po : bool) (prompt : string)
    (st : St) (e : Thrown) :
  ensureConnection env (clock st) = Throw e
  \/ ensureConnection env (clock st) = Ok tt
     /\ updateBorderOverlay env (S (clock st)) false = Throw e ->
  let r := runTask env po prompt st in
  let msg := "Error: Failed to connect to browser: " ^^ errorText e in
  fst r = Ok msg /\
  (newEvents st (snd r) = [EvEnsureConnection]
   \/ newEvents st (snd r)
      = [EvEnsureConnection; EvUpdateBorderOverlay false]) /\
  streams (snd r) = streams st /\
  printed (snd r) = printed st ++ (if po then [msg] else []).
Proof.
  intros H. cbv zeta. destruct H as [H | [H1 H2]].
  - rewrite (runTask_refused env po prompt st H).
    cbn [fst snd]. split; [reflexivity |]. split; [| split].
    + left. apply newEvents_app. rewrite printOutput_trace. reflexivity.
    + rewrite printOutput_streams. reflexivity.
    + rewrite printOutput_printed. reflexivity.
  - rewrite (runTask_overlay_refused env po prompt st H1 H2).
    cbn [fst snd]. split; [reflexivity |]. split; [| split].
    + right. apply newEvents_app. rewrite printOutput_trace.
      cbn [trace ticked]. rewrite <- app_assoc. reflexivity.
    + rewrite printOutput_streams. reflexivity.
    + rewrite printOutput_printed. reflexivity.
Qed.

Lemma connection_failure_returns_witness :
  let r := runTask Scenario.refused true "go" st0 in
  let msg := "Error: Failed to connect to browser: connect ECONNREFUSED" in
  fst r = Ok msg /\
  (newEvents st0 (snd r) = [EvEnsureConnection]
   \/ newEvents st0 (snd r)
      = [EvEnsureConnection; EvUpdateBorderOverlay false]) /\
  streams (snd r) = streams st0 /\
  printed (snd r) = printed st0 ++ [msg].
Proof.
  apply (@connection_failure_returns Scenario.refused true "go" st0
           (ErrorObj "connect ECONNREFUSED")).
  left. reflexivity.
Defined.

(** ** Cancellation *)

(** X2.  A task whose signal is already aborted when [runTask] is called
    still connects to the browser and updates the overlay twice, but then
    leaves the loop at the top of the first turn: no state is captured, the
    model is not called, the notice goes to [printOutput], and the value
    returned is ["Task finished"]. *)
Theorem aborted_on_entry (env : Env) (po : bool) (prompt : string) (st : St) :
  abortedAt env (clock st) = true ->
  ensureConnection env (clock st) = Ok tt ->
  (forall t, updateBorderOverlay env t false = Ok tt) ->
  let r := runTask env po prompt st in
  fst r = Ok "Task finished" /\
  newEvents st (snd r)
  = [EvEnsureConnection; EvUpdateBorderOverlay false;
     EvUpdateBorderOverlay false] /\
  printed (snd r) = printed st ++ (if po then [cancelNotice] else []).
Proof.
  intros Hab Hc Ho. cbv zeta.
  rewrite (runTask_connected env po prompt st Hc Ho).
  unfold taskLoop. change MAX_ITERATIONS with (S 19).
  match goal with
  | |- context [whileFrom env po (S 19) (Continue ?ls)] =>
    match goal with
    | |- context [bind _ _ ?s] =>
      assert (Hw : whileFrom env po (S 19) (Continue ls) s
                   = (Ok (Exited ls), snd (printOutput po cancelNotice s)))
    end
  end.
  { apply whileFrom_aborted. eapply abortedAt_mono; [exact Hab |].
    simpl. lia. }
  rewrite (bind_ok _ _ _ Hw). unfold ret. cbn [fst snd].
  split; [reflexivity |]. split.
  - apply newEvents_app. rewrite printOutput_trace. reflexivity.
  - rewrite printOutput_printed. reflexivity.
Qed.

Lemma aborted_on_entry_witness :
  let r := runTask (Script.withAbort 0 Script.idle) true "go" st0 in
  fst r = Ok "Task finished" /\
  newEvents st0 (snd r)
  = [EvEnsureConnection; EvUpdateBorderOverlay false;
     EvUpdateBorderOverlay false] /\
  printed (snd r) = printed st0 ++ [cancelNotice].
Proof.
  apply (@aborted_on_entry (Script.withAbort 0 Script.idle) true "go" st0);
    reflexivity.
Defined.

(** ** captureScreenshot *)

(** X3.  [captureScreenshot] never throws.  It issues its five calls in
    order and stops at the first one that fails: with [k] the number of
    calls that succeed before the first failure, the calls issued are the
    first [k + 1] (all five when none fails).  It returns the image the
    screenshot gave exactly when all five succeed, the overlay update
    after the screenshot included, and [''] otherwise.  When the
    screenshot itself fails ([k = 3]), the overlay is left in its
    capturing state: the update that ends it is not issued. *)
Theorem captureScreenshot_contained (env : Env) (st : St) :
  exists k,
    k <= 5 /\
    (forall i, i < k -> screenshotCallOk env (clock st) i = true) /\
    (k < 5 -> screenshotCallOk env (clock st) k = false) /\
    captureScreenshot env st
    = (Ok (if (k =? 5)%nat
           then match screenshot env (clock st + 3) with
                | Ok shot => shot
                | Throw _ => ""
                end
           else ""),
       after (firstn (S k) screenshotEvents) st).
Proof.
  assert (Hlt : forall k (P : nat -> Prop),
             (forall i, i < k -> P i) -> P k -> forall i, i < S k -> P i).
  { intros k P Hk Hn i Hi. destruct (Nat.eq_dec i k) as [-> | Hne];
      [exact Hn | apply Hk; lia]. }
  assert (H0 : forall i, i < 0 -> screenshotCallOk env (clock st) i = true)
    by (intros i Hi; lia).
  unfold captureScreenshot, tryCatch, bind, await, ret.
  destruct (getPage env (clock st)) as [[] | e] eqn:E0.
  2:{ exists 0. split; [lia |]. split; [exact H0 |].
      split; [intros _; simpl; rewrite E0; reflexivity |].
      cbn [firstn screenshotEvents Nat.eqb]. flatten_steps. reflexivity. }
  assert (H1 : forall i, i < 1 -> screenshotCallOk env (clock st) i = true).
  { apply Hlt; [exact H0 | simpl; rewrite E0; reflexivity]. }
  cbn [clock ticked].
  destruct (bringToFront env (S (clock st))) as [[] | e] eqn:E1.
  2:{ exists 1. split; [lia |]. split; [exact H1 |].
      split; [intros _; simpl; rewrite Nat.add_1_r, E1; reflexivity |].
      cbn [firstn screenshotEvents Nat.eqb]. flatten_steps. reflexivity. }
  assert (H2 : forall i, i < 2 -> screenshotCallOk env (clock st) i = true).
  { apply Hlt; [exact H1 | simpl; rewrite Nat.add_1_r, E1; reflexivity]. }
  cbn [clock ticked].
  destruct (updateBorderOverlay env (S (S (clock st))) true) as [[] | e]
    eqn:E2.
  2:{ exists 2. split; [lia |]. split; [exact H2 |].
      split; [intros _; simpl;
              replace (clock st + 2) with (S (S (clock st))) by lia;
              rewrite E2; reflexivity |].
      cbn [firstn screenshotEvents Nat.eqb]. flatten_steps. reflexivity. }
  assert (H3 : forall i, i < 3 -> screenshotCallOk env (clock st) i = true).
  { apply Hlt; [exact H2 |]. simpl.
    replace (clock st + 2) with (S (S (clock st))) by lia.
    rewrite E2. reflexivity. }
  cbn [clock ticked].
  destruct (screenshot env (S (S (S (clock st))))) as [shot | e] eqn:E3.
  2:{ exists 3. split; [lia |]. split; [exact H3 |].
      split; [intros _; simpl;
              replace (clock st + 3) with (S (S (S (clock st)))) by lia;
              rewrite E3; reflexivity |].
      cbn [firstn screenshotEvents Nat.eqb]. flatten_steps. reflexivity. }
  assert (H4 : forall i, i < 4 -> screenshotCallOk env (clock st) i = true).
  { apply Hlt; [exact H3 |]. simpl.
    replace (clock st + 3) with (S (S (S (clock st)))) by lia.
    rewrite E3. reflexivity. }
  cbn [clock ticked].
  destruct (updateBorderOverlay env (S (S (S (S (clock st))))) false)
    as [[] | e] eqn:E4.
  - exists 5. split; [lia |]. split.
    + apply Hlt; [exact H4 |]. simpl.
      replace (clock st + 4) with (S (S (S (S (clock st))))) by lia.
      rewrite E4. reflexivity.
    + split; [lia |]. cbn [firstn screenshotEvents Nat.eqb].
      replace (clock st + 3) with (S (S (S (clock st)))) by lia.
      rewrite E3. flatten_steps. reflexivity.
  - exists 4. split; [lia |]. split; [exact H4 |].
    split; [intros _; simpl;
            replace (clock st + 4) with (S (S (S (S (clock st))))) by lia;
            rewrite E4; reflexivity |].
    cbn [firstn screenshotEvents Nat.eqb]. flatten_steps. reflexivity.
Qed.

(** The screenshot fails: no image, and the last call to the overlay is
    the one that set the capturing state. *)
Example screenshot_failure_leaves_overlay :
  let env :=
    {| abort_at := None;
       ensureConnection := ensureConnection Script.idle;
       getMcpClient := getMcpClient Script.idle;
       getPage := getPage Script.idle;
       callTool := callTool Script.idle;
       bringToFront := bringToFront Script.idle;
       screenshot := fun _ => Throw (ErrorObj "Target closed");
       updateBorderOverlay := updateBorderOverlay Script.idle;
       browserTools := browserTools Script.idle;
       legacyMethod := legacyMethod Script.idle;
       sendMessageStream := sendMessageStream Script.idle;
       generateContent := generateContent Script.idle;
       numberToString := numberToString Script.idle;
       parseThought := parseThought Script.idle;
       stringifyArgs := stringifyArgs Script.idle;
       stringifyResult := stringifyResult Script.idle |} in
  captureScreenshot env st0
  = (Ok "", after [EvGetPage; EvBringToFront; EvUpdateBorderOverlay true;
                   EvScreenshot] st0).
Proof. vm_compute. reflexivity. Qed.

(** ** What [runTask] can return *)

(** X4.  Every value [runTask] returns is truthy: it is never the empty
    string.  It is a string in every case but one: the summary of a
    [complete_task] call is returned as the value the call gave, so a
    summary that is truthy and not a string comes back as it is. *)
Theorem runTask_outcomes (env : Env) (po : bool) (prompt : string) (st : St)
    (v : JsVal) :
  fst (runTask env po prompt st) = Ok v ->
  truthy v = true /\
  ((exists s, v = JStr s)
   \/ exists k parts s c,
        sendMessageStream env k parts = Ok s /\ In c (streamCalls s) /\
        isCompletion c = true /\ lookup "summary" (argsOf c) = Some v).
Proof.
  intros Hv.
  assert (Hconn : forall e : Thrown,
             truthy (JStr ("Error: Failed to connect to browser: "
                           ^^ errorText e)) = true) by reflexivity.
  destruct (ensureConnection env (clock st)) as [[] | e] eqn:Hc.
  2:{ rewrite (runTask_refused env po prompt st Hc) in Hv.
      inversion Hv. split; [apply Hconn | left; eauto]. }
  destruct (updateBorderOverlay env (S (clock st)) false) as [[] | e] eqn:H1.
  2:{ rewrite (runTask_overlay_refused env po prompt st Hc H1) in Hv.
      inversion Hv. split; [apply Hconn | left; eauto]. }
  destruct (updateBorderOverlay env (S (S (clock st))) false) as [[] | e]
    eqn:H2.
  2:{ rewrite (runTask_escapes env po prompt st Hc H1 H2) in Hv.
      discriminate. }
  rewrite (runTask_loop env po prompt st Hc H1 H2) in Hv.
  match type of Hv with
  | context [taskLoop env po prompt ?s] =>
    destruct (taskLoop_result env po prompt s) as (v' & st' & Hl & _ & H)
  end.
  rewrite Hl in Hv. inversion Hv; subst v'. clear Hv Hl.
  destruct H as [[-> _]
                | [(k & parts & e & _ & -> & _)
                  | (k & parts & s & c & _ & Hs & _ & Hin & Hcomp & ->)]].
  - split; [reflexivity | left; eauto].
  - split; [reflexivity | left; eauto].
  - split; [apply summaryOf_truthy |].
    unfold summaryOf, or_value.
    destruct (lookup "summary" (argsOf c)) as [x |] eqn:Hx;
      [| left; eauto].
    destruct (truthy x); [| left; eauto].
    right. exists k, parts, s, c. auto.
Qed.

Lemma runTask_outcomes_witness :
  fst (runTask numericSummary false "go" st0) = Ok (JNum 42) /\
  truthy (JNum 42) = true /\
  ((exists s, JNum 42 = JStr s)
   \/ exists k parts s c,
        sendMessageStream numericSummary k parts = Ok s /\
        In c (streamCalls s) /\
        isCompletion c = true /\
        lookup "summary" (argsOf c) = Some (JNum 42)).
Proof.
  split; [vm_compute; reflexivity |].
  apply (@runTask_outcomes numericSummary false "go" st0 (JNum 42)).
  vm_compute. reflexivity.
Defined.

(** ** A model that never completes *)

(** In a task that is not cancelled, a pass whose stream ends normally
    without a [complete_task] call goes on to the next turn. *)
Lemma loopBody_goes_on env po ls st :
  abort_at env = None ->
  taskCompleted ls = false ->
  (forall parts, exists s,
      sendMessageStream env (streams st) parts = Ok s /\ failure s = None /\
      forallb (fun c => negb (isCompletion c)) (streamCalls s) = true) ->
  exists ls' st',
    loopBody env po ls st = (Ok (Continue ls'), st') /\
    streams st' = S (streams st) /\
    taskCompleted ls' = false /\ taskSummary ls' = taskSummary ls /\
    iterationCount ls' = S (iterationCount ls).
Proof.
  intros Hab Hc0 Hstream.
  destruct (@loopBody_uncancelled env po ls st Hab)
    as (dom & st1 & st2 & st' & _ & _ & Hst' & Hsnd & Hturn).
  destruct (Hstream (messagePartsOf dom ls)) as (s & Hs & Hf & Hno).
  rewrite Hs, Hf in Hturn.
  destruct (executePhase_run env po ls (streamCalls s) st2)
    as (c & st3 & He & _ & Hshape).
  rewrite He in Hturn. inversion Hturn as [[Hfst Hst3]]. subst st3.
  assert (Hb : loopBody env po ls st = (Ok c, st')).
  { rewrite Hfst, <- Hsnd. apply surjective_pairing. }
  destruct (streamCalls s) as [| call rest] eqn:Hcalls.
  - subst c. eexists; exists st'. split; [exact Hb |]. simpl. auto.
  - destruct Hshape as (d & k & rs & Hd & _ & Hskip & Hc).
    destruct Hskip as [-> | Hx];
      [| rewrite (never_aborted _ _ Hab) in Hx; discriminate].
    rewrite app_nil_r in Hd. subst d. cbv zeta in Hc.
    rewrite (flagsAfter_none _ _ Hno), Hc0 in Hc. simpl in Hc. subst c.
    eexists; exists st'. split; [exact Hb |]. simpl. auto.
Qed.

Lemma whileFrom_exhausts env po n ls st :
  abort_at env = None ->
  taskCompleted ls = false ->
  (forall k parts, exists s,
      sendMessageStream env k parts = Ok s /\ failure s = None /\
      forallb (fun c => negb (isCompletion c)) (streamCalls s) = true) ->
  exists ls' st',
    whileFrom env po n (Continue ls) st = (Ok (Exited ls'), st') /\
    streams st' = streams st + n /\
    taskCompleted ls' = false /\ taskSummary ls' = taskSummary ls /\
    iterationCount ls' = iterationCount ls + n.
Proof.
  intros Hab Hc0 Hstream. revert ls st Hc0.
  induction n as [| n IH]; intros ls st Hc0.
  - exists ls, st. simpl. repeat split; auto.
  - destruct (@loopBody_goes_on env po ls st Hab Hc0
                (fun parts => Hstream (streams st) parts))
      as (ls1 & st1 & Hb & Hst & Hc1 & Hs1 & Hi1).
    destruct (IH ls1 st1 Hc1) as (ls' & st' & Hw & Hst' & Hc' & Hs' & Hi').
    exists ls', st'. simpl. rewrite (bind_ok _ _ _ Hb).
    split; [exact Hw |]. repeat split; try congruence; lia.
Qed.

(** X5.  Nothing but the cap bounds a model that never completes: when the
    task is not cancelled and every model stream ends normally without a
    [complete_task] call, be it with other calls or with none, the loop
    makes exactly [MAX_ITERATIONS] model calls and [runTask] returns
    ["Task finished"]. *)
Theorem no_completion_exhausts_cap (env : Env) (po : bool) (prompt : string)
    (st : St) :
  abort_at env = None ->
  ensureConnection env (clock st) = Ok tt ->
  (forall t, updateBorderOverlay env t false = Ok tt) ->
  (forall k parts, exists s,
      sendMessageStream env k parts = Ok s /\ failure s = None /\
      forallb (fun c => negb (isCompletion c)) (streamCalls s) = true) ->
  fst (runTask env po prompt st) = Ok "Task finished" /\
  streams (snd (runTask env po prompt st)) = streams st + MAX_ITERATIONS.
Proof.
  intros Hab Hc Ho Hstream.
  rewrite (runTask_connected env po prompt st Hc Ho). unfold taskLoop.
  match goal with
  | |- context [bind (whileFrom env po ?n (Continue ?ls)) _ ?s] =>
    destruct (@whileFrom_exhausts env po n ls s Hab eq_refl Hstream)
      as (ls' & st' & Hw & Hst & _ & Hs & _)
  end.
  rewrite (bind_ok _ _ _ Hw). unfold ret. cbn [fst snd returned].
  split; [| exact Hst].
  unfold finish. rewrite Hs. reflexivity.
Qed.

Lemma no_completion_exhausts_cap_witness :
  fst (runTask Scenario.clicking false "go" st0) = Ok "Task finished" /\
  streams (snd (runTask Scenario.clicking false "go" st0))
  = streams st0 + MAX_ITERATIONS.
Proof.
  apply (@no_completion_exhausts_cap Scenario.clicking false "go" st0);
    try reflexivity.
  intros k parts. eexists. repeat split.
Defined.

(** ** A model stream that fails *)

Lemma loopBody_stream_fails env po ls st e :
  abort_at env = None ->
  streamFails env (streams st) e ->
  fst (loopBody env po ls st)
  = Ok (Return ("Error calling model: " ^^ errorText e)) /\
  streams (snd (loopBody env po ls st)) = S (streams st).
Proof.
  intros Hab Hfail.
  destruct (@loopBody_uncancelled env po ls st Hab)
    as (dom & st1 & st2 & st' & _ & _ & Hst' & Hsnd & _).
  split; [| congruence].
  pose proof (loopBody_run env po ls st) as H.
  destruct (loopBody env po ls st) as [r s'] eqn:E. simpl in H. simpl.
  inversion H; subst; clear H;
    try match goal with
        | Hx : abortedAt _ _ = true |- _ =>
          rewrite (never_aborted _ _ Hab) in Hx; discriminate
        end.
  match goal with
  | Hm : callModel _ _ _ _ = _ |- _ =>
    destruct (callModel_run env po (messagePartsOf dom0 ls) (after evs st))
      as (turn' & st2' & Hm' & _ & _ & _ & _ & Hturn);
    rewrite Hm in Hm'; inversion Hm'; subst turn' st2'; clear Hm'
  end.
  simpl in Hturn.
  destruct (Hfail (messagePartsOf dom0 ls)) as [Hs | (s & Hs & Hf)].
  - destruct turn as [text calls | | msg].
    + destruct Hturn as (sx & Hx & _). congruence.
    + rewrite (never_aborted _ _ Hab) in Hturn. discriminate.
    + match goal with
      | Hx : _ /\ _ |- _ => destruct Hx as [-> _]
      end.
      destruct Hturn as (e' & -> & [Hx | (sx & Hx & _)]); congruence.
  - destruct turn as [text calls | | msg].
    + destruct Hturn as (sx & Hx & Hn & _). congruence.
    + rewrite (never_aborted _ _ Hab) in Hturn. discriminate.
    + match goal with
      | Hx : _ /\ _ |- _ => destruct Hx as [-> _]
      end.
      destruct Hturn as (e' & -> & [Hx | (sx & Hx & Hf')]); congruence.
Qed.

Lemma whileFrom_stream_fails env po n ls st k e :
  abort_at env = None ->
  streamFails env k e ->
  streams st <= k ->
  k < streams (snd (whileFrom env po n (Continue ls) st)) ->
  fst (whileFrom env po n (Continue ls) st)
  = Ok (Returned ("Error calling model: " ^^ errorText e)) /\
  streams (snd (whileFrom env po n (Continue ls) st)) = S k.
Proof.
  intros Hab Hfail. revert ls st.
  induction n as [| n IH]; intros ls st Hle Hlt.
  - simpl in Hlt. lia.
  - destruct (@loopBody_uncancelled env po ls st Hab)
      as (dom & st1 & st2 & st' & _ & _ & Hst' & Hsnd & _).
    destruct (safe_loopBody env po ls st) as [c0 Hc0].
    assert (Hb : loopBody env po ls st = (Ok c0, st')).
    { rewrite <- Hsnd, <- Hc0. apply surjective_pairing. }
    simpl in Hlt. simpl. rewrite (bind_ok _ _ _ Hb) in *.
    destruct (Nat.eq_dec (streams st) k) as [Hk | Hk].
    + subst k.
      destruct (@loopBody_stream_fails env po ls st e Hab Hfail) as [H1 _].
      rewrite Hb in H1. simpl in H1. inversion H1; subst c0.
      destruct n; simpl; split; auto.
    + destruct c0 as [ls1 | ls1 | msg].
      * apply IH; [lia | exact Hlt].
      * destruct n; simpl in Hlt; lia.
      * destruct n; simpl in Hlt; lia.
Qed.

(** X6.  In a task that is not cancelled, an error of the model stream of
    some turn, raised when the stream is opened or while it is read, ends
    the task: [runTask] returns the model error text and no further turn is
    made. *)
Theorem stream_failure_ends_task (env : Env) (po : bool) (prompt : string)
    (k : nat) (e : Thrown) :
  abort_at env = None ->
  streamFails env k e ->
  k < streams (snd (runTask env po prompt st0)) ->
  fst (runTask env po prompt st0)
  = Ok ("Error calling model: " ^^ errorText e) /\
  streams (snd (runTask env po prompt st0)) = S k.
Proof.
  intros Hab Hfail Hlt.
  destruct (runTask_cases env po prompt st0) as (s1 & Hs1 & [Hr | [r Hr]]).
  - rewrite Hr in *. unfold taskLoop in *. unfold bind in *.
    pose proof (@whileFrom_stream_fails env po MAX_ITERATIONS
                  (initialState prompt) s1 k e Hab Hfail) as Hw.
    destruct (whileFrom env po MAX_ITERATIONS
                (Continue (initialState prompt)) s1) as [[exit | e'] s2];
      cbn [fst snd] in *.
    + destruct Hw as [H1 H2].
      * simpl in Hs1. lia.
      * destruct exit; exact Hlt.
      * inversion H1; subst exit. split; [reflexivity | exact H2].
    + destruct Hw as [H1 _]; [simpl in Hs1; lia | exact Hlt | discriminate].
  - rewrite Hr in Hlt. simpl in Hlt, Hs1. lia.
Qed.

Lemma stream_failure_ends_task_witness :
  fst (runTask Scenario.quotaOnSecondCall false "go" st0)
  = Ok "Error calling model: 429 quota exceeded" /\
  streams (snd (runTask Scenario.quotaOnSecondCall false "go" st0)) = 2.
Proof.
  apply (@stream_failure_ends_task Scenario.quotaOnSecondCall false "go" 1
           (ErrorObj "429 quota exceeded")).
  - reflexivity.
  - intros parts. left. reflexivity.
  - vm_compute. lia.
Defined.

(** ** The payload of a turn *)

(** A turn in which the signal is not seen aborted before the model call
    captures the state, sends one payload to the model, and then only
    dispatches. *)
Lemma loopBody_payload env po ls st :
  abortedAt env (clock (snd (captureState env st))) = false ->
  exists dom evs tools,
    captureState env st = (Ok dom, after evs st) /\
    trace (snd (loopBody env po ls st))
    = trace st ++ evs ++ EvSendMessageStream (messagePartsOf dom ls) :: tools
    /\
    Forall (fun ev => dispatchEvent ev = true) tools.
Proof.
  intros Hab.
  pose proof (loopBody_run env po ls st) as H.
  destruct (loopBody env po ls st) as [r st'] eqn:E. simpl in H. simpl.
  inversion H; subst; clear H.
  - destruct (captureState_run env st) as (dom & evs & Hc & _).
    rewrite Hc in Hab. cbn [snd] in Hab.
    match goal with
    | Hx : abortedAt _ _ = true |- _ =>
      rewrite (@abortedAt_mono env _ (clock (after evs st)) Hx) in Hab;
        [discriminate | simpl; lia]
    end.
  - match goal with
    | Hc : captureState env st = _ |- _ => rewrite Hc in Hab
    end. cbn [snd] in Hab. congruence.
  - match goal with
    | Hm : callModel _ _ _ _ = _ |- _ =>
      destruct (callModel_run env po (messagePartsOf dom ls) (after evs st))
        as (turn' & st2' & Hm' & _ & _ & Ht & _ & _);
      rewrite Hm in Hm'; inversion Hm'; subst turn' st2'; clear Hm'
    end.
    assert (Hq : quietTrace st2 st').
    { destruct turn as [text calls | | msg].
      - match goal with
        | Hx : executePhase _ _ _ _ _ = _ |- _ =>
          pose proof (executePhase_trace env po ls calls st2) as Hq;
          rewrite Hx in Hq; exact Hq
        end.
      - match goal with
        | Hx : _ /\ _ |- _ => destruct Hx as [_ ->]
        end. apply quietTrace_refl.
      - match goal with
        | Hx : _ /\ _ |- _ => destruct Hx as [_ ->]
        end. apply quietTrace_refl. }
    destruct Hq as (tools & Htools & Hall).
    exists dom, evs, tools. split; [assumption | split; [| exact Hall]].
    rewrite Htools, Ht. simpl.
    rewrite <- !app_assoc. reflexivity.
Qed.

(** X7.  A state capture that fails does not end the turn: when the driver
    client cannot be obtained, or the snapshot request is rejected, and
    the signal is not seen aborted by the check that follows the capture,
    the model is still called, once, and its payload is the carried input
    alone, with no accessibility-tree part. *)
Theorem capture_failure_sends_no_tree (env : Env) (po : bool)
    (ls : LoopState) (st : St) (e : Thrown) :
  abortedAt env (clock (snd (captureState env st))) = false ->
  getMcpClient env (clock st) = Throw e
  \/ getMcpClient env (clock st) = Ok tt
     /\ callTool env (S (clock st)) "take_snapshot" captureArgs = Throw e ->
  exists capture tools,
    newEvents st (snd (loopBody env po ls st))
    = capture ++ EvSendMessageStream (currentInputParts ls) :: tools /\
    (capture = [EvGetMcpClient] \/ capture = captureEvents) /\
    Forall (fun ev => isModelCall ev = false) (capture ++ tools).
Proof.
  intros Hab Hfail.
  destruct (@loopBody_payload env po ls st Hab)
    as (dom & evs & tools & Hc & Hn & Hall).
  assert (Hdom : dom = "" /\
                 (evs = [EvGetMcpClient] \/ evs = captureEvents)).
  { destruct (captureState_run env st) as (dom' & evs' & Hc' & Hevs).
    assert (Ha : after evs st = after evs' st) by congruence.
    assert (He : evs = evs').
    { apply (f_equal trace) in Ha. simpl in Ha.
      apply app_inv_head in Ha. exact Ha. }
    clear Hc' Ha.
    subst evs'. split.
    - revert Hc. unfold captureState, tryCatch, bind, await, ret.
      destruct Hfail as [H1 | [H1 H2]].
      + rewrite H1. intros Hx. inversion Hx. reflexivity.
      + rewrite H1. cbn [clock ticked]. rewrite H2.
        intros Hx. inversion Hx. reflexivity.
    - destruct Hevs as [[-> _] | [-> _]]; [right | left]; reflexivity. }
  destruct Hdom as [-> Hevs].
  exists evs, tools.
  split; [apply newEvents_app; exact Hn | split; [exact Hevs |]].
  apply Forall_app. split.
  - destruct Hevs as [-> | ->]; repeat constructor.
  - eapply Forall_impl; [| exact Hall].
    intros ev Hev. unfold dispatchEvent in Hev.
    apply andb_true_iff in Hev. destruct Hev as [Hev _].
    apply negb_true_iff in Hev. exact Hev.
Qed.

Lemma capture_failure_sends_no_tree_witness :
  exists capture tools,
    newEvents st0
      (snd (loopBody (Script.withClient (fun _ => Throw (ErrorObj "closed"))
                        Script.idle)
              false (initialState "go") st0))
    = capture ++ EvSendMessageStream [textPart "Task: go"] :: tools /\
    (capture = [EvGetMcpClient] \/ capture = captureEvents) /\
    Forall (fun ev => isModelCall ev = false) (capture ++ tools).
Proof.
  apply (@capture_failure_sends_no_tree
           (Script.withClient (fun _ => Throw (ErrorObj "closed")) Script.idle)
           false (initialState "go") st0 (ErrorObj "closed")).
  - reflexivity.
  - left. reflexivity.
Defined.

(** ** The dispatch of one call *)

Lemma directHandler_names n x :
  directHandler n = Some x ->
  (n =? "") = false /\ (n =? "complete_task") = false
  /\ (n =? "delegate_to_visual_agent") = false.
Proof.
  unfold directHandler.
  repeat match goal with
         | |- context [if n =? ?l then _ else _] => destruct (n =? l) eqn:?
         end;
    intros H; try discriminate;
    match goal with
    | Hx : (n =? _) = true |- _ => apply String.eqb_eq in Hx; subst n
    end;
    repeat split; reflexivity.
Qed.

Lemma guardedDispatch_direct env po n fnArgs flags st m keys orError :
  directHandler n = Some (m, keys, orError) ->
  guardedDispatch env po n fnArgs flags st
  = (Ok (TextContent
           match browserTools env (clock st) m
                   (map (fun k => lookup k fnArgs) keys) with
           | Ok res =>
             or_else (output res)
                     (if orError then or_else (error res) "" else "")
           | Throw e => "Error executing " ^^ n ^^ ": " ^^ errorText e
           end, flags),
     ticked (EvBrowserTools m (map (fun k => lookup k fnArgs) keys)) st).
Proof.
  intros Hd. destruct (directHandler_names _ Hd) as (_ & H1 & H2).
  unfold guardedDispatch, dispatchSwitch, tryCatch. rewrite H1, H2, Hd.
  unfold bind, await, ret.
  destruct (browserTools env (clock st) m
              (map (fun k => lookup k fnArgs) keys)); reflexivity.
Qed.

Lemma executeTools_trace env po calls inputParts flags st :
  quietTrace st (snd (executeTools env po calls inputParts flags st)).
Proof.
  apply always_executeTools with (R := quietTrace);
    first
      [ apply quietTrace_refl
      | apply quietTrace_trans
      | intros;
        match goal with
        | |- quietTrace ?a (ticked ?ev ?a) =>
          exists [ev]; split; [reflexivity | auto]
        | |- quietTrace _ _ =>
          exists []; simpl; rewrite app_nil_r; auto
        end ].
Qed.

(** A turn that is not cancelled and whose stream ends normally goes on to
    dispatch the calls of the stream. *)
Lemma loopBody_collects env po ls st s :
  abort_at env = None ->
  (forall parts, sendMessageStream env (streams st) parts = Ok s) ->
  failure s = None ->
  exists dom evs st2,
    captureState env st = (Ok dom, after evs st) /\
    trace st2
    = trace st ++ evs ++ [EvSendMessageStream (messagePartsOf dom ls)] /\
    streams st2 = S (streams st) /\
    loopBody env po ls st = executePhase env po ls (streamCalls s) st2.
Proof.
  intros Hab Hsend Hok.
  pose proof (loopBody_run env po ls st) as H.
  destruct (loopBody env po ls st) as [r st'] eqn:E. simpl in H.
  inversion H; subst; clear H;
    try match goal with
        | Hx : abortedAt _ _ = true |- _ =>
          rewrite (never_aborted _ _ Hab) in Hx; discriminate
        end.
  match goal with
  | Hm : callModel _ _ _ _ = _ |- _ =>
    destruct (callModel_run env po (messagePartsOf dom ls) (after evs st))
      as (turn' & st2' & Hm' & Hstr & _ & Ht & _ & Hturn);
    rewrite Hm in Hm'; inversion Hm'; subst turn' st2'; clear Hm'
  end.
  simpl in Hturn, Hstr, Ht.
  destruct turn as [text calls | | msg].
  - destruct Hturn as (sx & Hx & _ & -> & _).
    rewrite Hsend in Hx. inversion Hx; subst sx.
    exists dom, evs, st2. repeat split; auto.
    rewrite Ht, <- app_assoc. reflexivity.
  - rewrite (never_aborted _ _ Hab) in Hturn. discriminate.
  - destruct Hturn as (e' & _ & [Hx | (sx & Hx & Hf)]);
      rewrite Hsend in Hx; [discriminate |].
    inversion Hx; subst sx. congruence.
Qed.

Lemma executeTools_direct env po c rest inputParts flags st n m keys orError :
  abort_at env = None ->
  fc_name c = Some n ->
  directHandler n = Some (m, keys, orError) ->
  exists st1,
    clock st1 = clock st /\ trace st1 = trace st /\
    executeTools env po (c :: rest) inputParts flags st
    = executeTools env po rest
        (inputParts
         ++ [responsePart (Some n)
               (TextContent
                  match browserTools env (clock st) m
                          (map (fun k => lookup k (argsOf c)) keys) with
                  | Ok res =>
                    or_else (output res)
                            (if orError then or_else (error res) "" else "")
                  | Throw e => "Error executing " ^^ n ^^ ": " ^^ errorText e
                  end)])
        flags
        (ticked (EvBrowserTools m (map (fun k => lookup k (argsOf c)) keys))
                st1).
Proof.
  intros Hab Hn Hd. destruct (directHandler_names _ Hd) as (H0 & _ & _).
  eexists. split; [| split]; cycle 2.
  - cbn [executeTools]. rewrite bind_signalAborted, (never_aborted _ _ Hab).
    rewrite Hn, H0.
    rewrite (bind_ok _ _ _ (printOutput_run _ _ _)).
    rewrite (bind_ok _ _ _ (guardedDispatch_direct _ _ _ _ _ _ Hd)).
    cbn [fst snd].
    rewrite (proj2 (printOutput_silent _ _ _)). reflexivity.
  - apply printOutput_silent.
  - apply printOutput_silent.
Qed.

(** X8.  A call of a tool with a handler of its own (navigate, click, fill
    and the like) that opens the calls of a turn is dispatched right after
    the model call, as one call of the handler's driver method on the
    values of the handler's argument keys; its response, under the call's
    name, is the first part carried to the next turn: the result's output,
    or the error text when the driver throws. *)
Theorem direct_tool_call_dispatched (env : Env) (po : bool) (ls : LoopState)
    (st : St) (s : Stream) (c : FunctionCall) (rest : list FunctionCall)
    (n : string) (m : Method) (keys : list string) (orError : bool) :
  abort_at env = None ->
  (forall parts, sendMessageStream env (streams st) parts = Ok s) ->
  failure s = None ->
  streamCalls s = c :: rest ->
  fc_name c = Some n ->
  directHandler n = Some (m, keys, orError) ->
  exists t ctl st' capture payload later more,
    loopBody env po ls st = (Ok ctl, st') /\
    newEvents st st'
    = capture ++ EvSendMessageStream payload
        :: EvBrowserTools m (map (fun k => lookup k (argsOf c)) keys)
        :: later /\
    Forall (fun ev => isModelCall ev = false) later /\
    carried ctl
    = responsePart (Some n)
        (TextContent
           match browserTools env t m
                   (map (fun k => lookup k (argsOf c)) keys) with
           | Ok res =>
             or_else (output res)
                     (if orError then or_else (error res) "" else "")
           | Throw e => "Error executing " ^^ n ^^ ": " ^^ errorText e
           end) :: more.
Proof.
  intros Hab Hsend Hok Hcalls Hn Hd.
  destruct (@loopBody_collects env po ls st s Hab Hsend Hok)
    as (dom & evs & st2 & _ & Ht2 & _ & Hbody).
  rewrite Hcalls in Hbody.
  destruct (@executeTools_direct env po c rest []
              (taskCompleted ls, taskSummary ls) st2 n m keys orError
              Hab Hn Hd) as (st3 & Hclock & Ht3 & Hstep).
  set (actuals := map (fun k => lookup k (argsOf c)) keys) in *.
  set (resp := responsePart (Some n) _) in Hstep.
  destruct (executeTools_run env po rest ([] ++ [resp])
              (taskCompleted ls, taskSummary ls)
              (ticked (EvBrowserTools m actuals) st3))
    as (dispatched & skipped & responses & st4 & Hrun & _).
  pose proof (executeTools_trace env po rest ([] ++ [resp])
                (taskCompleted ls, taskSummary ls)
                (ticked (EvBrowserTools m actuals) st3)) as Hq.
  rewrite Hrun in Hq. destruct Hq as (later & Hlater & Hall).
  simpl in Hlater.
  assert (Hex : executeTools env po (c :: rest) []
                  (taskCompleted ls, taskSummary ls) st2
                = (Ok (resp :: responses,
                       flagsAfter dispatched
                         (taskCompleted ls, taskSummary ls)), st4)).
  { rewrite Hstep, Hrun. reflexivity. }
  unfold executePhase in Hbody. rewrite (bind_ok _ _ _ Hex) in Hbody.
  destruct (flagsAfter dispatched (taskCompleted ls, taskSummary ls))
    as [completed summary].
  exists (clock st2).
  assert (Hnew : newEvents st st4
                 = evs ++ EvSendMessageStream (messagePartsOf dom ls)
                     :: EvBrowserTools m actuals :: later).
  { apply newEvents_app. rewrite Hlater, Ht3, Ht2.
    rewrite <- !app_assoc. reflexivity. }
  assert (Hm : Forall (fun ev => isModelCall ev = false) later).
  { eapply Forall_impl; [| exact Hall].
    intros ev Hev. unfold dispatchEvent in Hev.
    apply andb_true_iff in Hev. destruct Hev as [Hev _].
    apply negb_true_iff in Hev. exact Hev. }
  destruct completed; eexists; exists st4, evs, (messagePartsOf dom ls),
    later, responses; (split; [exact Hbody | split; [exact Hnew |]]);
    (split; [exact Hm | reflexivity]).
Qed.

Lemma direct_tool_call_dispatched_witness :
  exists t ctl st' capture payload later more,
    loopBody Scenario.clicking false (initialState "go") st0 = (Ok ctl, st') /\
    newEvents st0 st'
    = capture ++ EvSendMessageStream payload
        :: EvBrowserTools click [Some (JStr "87_4"); None] :: later /\
    Forall (fun ev => isModelCall ev = false) later /\
    carried ctl
    = responsePart (Some "click")
        (TextContent
           match browserTools Scenario.clicking t click
                   [Some (JStr "87_4"); None] with
           | Ok res => or_else (output res) ""
           | Throw e => "Error executing " ^^ "click" ^^ ": " ^^ errorText e
           end) :: more.
Proof.
  apply (@direct_tool_call_dispatched Scenario.clicking false
           (initialState "go") st0
           (Script.oneChunk [Script.call "click" [("uid", JStr "87_4")]])
           (Script.call "click" [("uid", JStr "87_4")]) []
           "click" click ["uid"; "dblClick"] false); reflexivity.
Defined.

(** X9.  A name that is neither declared nor handled is tried as a method
    of the legacy tool set, with the argument values in order.  A missing
    method and a method that throws both give the same response, that the
    tool is not implemented; the flags of the task are untouched and
    nothing is thrown. *)
Theorem unknown_tool_soft_failure (env : Env) (po : bool) (fnName : string)
    (fnArgs : Args) (flags : bool * JsVal) (st : St) :
  directHandler fnName = None ->
  existsb (String.eqb fnName) semanticToolNames = false ->
  guardedDispatch env po fnName fnArgs flags st
  = (Ok (TextContent
           match legacyMethod env (clock st) fnName (map snd fnArgs) with
           | Ok (Some r) => or_else (output r) (or_else (error r) "")
           | Ok None | Throw _ => notImplemented fnName
           end, flags),
     ticked (EvLegacyMethod fnName (map snd fnArgs)) st).
Proof.
  intros Hd Hn.
  assert (H1 : (fnName =? "complete_task") = false
               /\ (fnName =? "delegate_to_visual_agent") = false).
  { revert Hn. unfold semanticToolNames. cbn [existsb].
    rewrite !orb_false_iff. tauto. }
  destruct H1 as [H1 H2].
  unfold guardedDispatch, dispatchSwitch. rewrite H1, H2, Hd, Hn.
  unfold tryCatch, bind, await, ret.
  destruct (legacyMethod env (clock st) fnName (map snd fnArgs)) as [[r |] | e];
    reflexivity.
Qed.

Lemma unknown_tool_soft_failure_witness :
  guardedDispatch
    (Scenario.withLegacy (fun _ _ _ => Throw (ErrorObj "boom")) Script.idle)
    false "type_text" [("text", JStr "hi")] (false, JStr "") st0
  = (Ok (TextContent "Tool type_text not implemented in agent loop.",
         (false, JStr "")),
     ticked (EvLegacyMethod "type_text" [JStr "hi"]) st0).
Proof.
  apply (@unknown_tool_soft_failure
           (Scenario.withLegacy (fun _ _ _ => Throw (ErrorObj "boom")) Script.idle)
           false "type_text" [("text", JStr "hi")] (false, JStr "") st0);
    reflexivity.
Defined.

(** X10.  Of the declared tools, the ones the dispatch has no case for are
    exactly pagedown, pageup and open_web_browser; a call of one of them
    is forwarded to the driver under the same name with the model's
    arguments unchanged, and the response joins the text of the result's
    content items line by line; a result without content gives the empty
    text.  A failure to obtain the client, or of the forwarded call,
    becomes the error text of the response, and so does a content that is
    not an array, on which the read of the items throws. *)
Theorem undeclared_cases_forwarded (env : Env) (po : bool) :
  (forall n,
     In n semanticToolNames ->
     directHandler n = None ->
     n = "complete_task" \/ n = "delegate_to_visual_agent"
     \/ In n ["pagedown"; "pageup"; "open_web_browser"]) /\
  (forall fnName fnArgs flags st,
     In fnName ["pagedown"; "pageup"; "open_web_browser"] ->
     guardedDispatch env po fnName fnArgs flags st
     = match getMcpClient env (clock st) with
       | Throw e =>
         (Ok (TextContent ("Error executing " ^^ fnName ^^ ": " ^^ errorText e),
              flags),
          ticked EvGetMcpClient st)
       | Ok _ =>
         (Ok (TextContent
                match callTool env (S (clock st)) fnName fnArgs with
                | Ok res =>
                  match content res with
                  | ContentItems cs =>
                    join LF (map (fun c => js_String (numberToString env)
                                              (or_value (c_text c) "")) cs)
                  | ContentMissing => ""
                  | ContentOther =>
                    "Error executing " ^^ fnName ^^ ": "
                    ^^ errorText mapNotAFunction
                  end
                | Throw e => "Error executing " ^^ fnName ^^ ": " ^^ errorText e
                end, flags),
          after [EvGetMcpClient; EvCallTool fnName fnArgs] st)
       end).
Proof.
  split.
  - intros n Hin. unfold semanticToolNames in Hin. cbn [In] in Hin.
    repeat (destruct Hin as [<- | Hin]; [vm_compute; intros Hd;
                                         first [discriminate | tauto] |]).
    contradiction.
  - intros fnName fnArgs flags st Hin.
    assert (Hshape :
              (fnName =? "complete_task") = false /\
              (fnName =? "delegate_to_visual_agent") = false /\
              directHandler fnName = None /\
              existsb (String.eqb fnName) semanticToolNames = true).
    { cbn [In] in Hin.
      destruct Hin as [<- | [<- | [<- | []]]]; repeat split; reflexivity. }
    destruct Hshape as (H1 & H2 & H3 & H4).
    unfold guardedDispatch, dispatchSwitch. rewrite H1, H2, H3, H4.
    unfold tryCatch, bind, await, ret.
    destruct (getMcpClient env (clock st)) as [[] | e]; [| reflexivity].
    cbn [clock ticked].
    destruct (callTool env (S (clock st)) fnName fnArgs) as [res | e];
      [destruct (content res) |]; unfold throw; flatten_steps; reflexivity.
Qed.

(** A forwarded call whose result carries a content that is no array. *)
Example forwarded_content_not_an_array :
  let env :=
    {| abort_at := None;
       ensureConnection := ensureConnection Script.idle;
       getMcpClient := getMcpClient Script.idle;
       getPage := getPage Script.idle;
       callTool := fun _ _ _ => Ok {| content := ContentOther |};
       bringToFront := bringToFront Script.idle;
       screenshot := screenshot Script.idle;
       updateBorderOverlay := updateBorderOverlay Script.idle;
       browserTools := browserTools Script.idle;
       legacyMethod := legacyMethod Script.idle;
       sendMessageStream := sendMessageStream Script.idle;
       generateContent := generateContent Script.idle;
       numberToString := numberToString Script.idle;
       parseThought := parseThought Script.idle;
       stringifyArgs := stringifyArgs Script.idle;
       stringifyResult := stringifyResult Script.idle |} in
  fst (guardedDispatch env false "pagedown" [] (false, JStr "") st0)
  = Ok (TextContent
          "Error executing pagedown: res?.content?.map is not a function",
        (false, JStr "")).
Proof. vm_compute. reflexivity. Qed.

(** ** The steps of the visual delegate *)

(** X11.  The visual delegate ends as soon as a response carries no call:
    after some steps (fewer than the cap) whose responses all carry calls,
    such a response makes [runVisualDelegate] return the completion
    report, with the text of the response (or "Done" when it has none) and
    one history line per action taken so far, in order, each with the
    result the driver gave that action during the run; the driver methods
    called are those of the actions, and the visual model has been called
    once per step. *)
Theorem visual_delegate_completes (env : Env) (po : bool)
    (instruction : JsVal) (initialScreenshot : string) (st : St)
    (responses : list Content) (final : Content) :
  length responses < VISUAL_MAX_STEPS ->
  (forall i response cs,
     nth_error (responses ++ [final]) i = Some response ->
     generateContent env (gens st + i) cs = Ok (Some response)) ->
  Forall (fun r => functionCallsOf r <> []) responses ->
  functionCallsOf final = [] ->
  exists results st',
    runVisualDelegate env po instruction initialScreenshot st
    = (Ok ("Visual Agent Completed." ^^ LF ^^ "Final Message: "
           ^^ or_else
                (option_map
                   (fun ps => join "" (map (fun p => or_else (p_text p) "") ps))
                   (parts final))
                "Done"
           ^^ LF ^^ "Actions Taken:" ^^ LF
           ^^ join LF (historyOf env (flat_map functionCallsOf responses)
                         results)),
       st') /\
    Forall2 (fun call res =>
               exists t, clock st <= t <= clock st'
                         /\ res = visualResultAt env t call)
            (flat_map functionCallsOf responses) results /\
    toolEvents (newEvents st st')
    = flat_map visualDriverCall (flat_map functionCallsOf responses) /\
    gens st' = gens st + length responses + 1.
Proof.
  intros Hlt Hgen Hne Hfinal.
  unfold VISUAL_MAX_STEPS in Hlt.
  unfold runVisualDelegate.
  set (contents0 := [ _ ]).
  replace VISUAL_MAX_STEPS
    with (length responses + S (VISUAL_MAX_STEPS - S (length responses)))
    by (unfold VISUAL_MAX_STEPS; lia).
  destruct (@visualLoop_prefix env po responses
              (S (VISUAL_MAX_STEPS - S (length responses))) contents0 [] st)
    as (results & contents1 & s1 & Hrun & Hr1 & Hg1).
  { intros i r cs Hnth. apply Hgen.
    rewrite nth_error_app1; [exact Hnth |].
    apply nth_error_Some. congruence. }
  { exact Hne. }
  unfold bind at 1. rewrite Hrun. simpl app.
  simpl visualLoop. unfold bind at 1. unfold awaitGenerateContent at 1.
  assert (Hlast : generateContent env (gens s1) contents1 = Ok (Some final)).
  { rewrite Hg1. apply Hgen.
    rewrite nth_error_app2, Nat.sub_diag; [reflexivity | lia]. }
  rewrite Hlast.
  set (s2 := countGen (ticked (EvGenerateContent contents1) s1)).
  assert (Hr2 : visualRun env s1 s2 [] []).
  { split; [simpl; lia |]. split; [| constructor].
    exists [EvGenerateContent contents1]. split; reflexivity. }
  match goal with
  | |- context [bind (visualLog env po ?i final) _ s2] =>
    destruct (visualLog_run env po i final s2) as (s3 & Hl & Ha3);
    rewrite (bind_ok _ _ _ Hl)
  end.
  rewrite Hfinal.
  destruct (visualRun_invalidateCache env s3) as (s4 & Hi & Hr4 & Hg4).
  rewrite (bind_ok _ _ _ Hi).
  assert (Hr : visualRun env st s4 (flat_map functionCallsOf responses)
                         results).
  { eapply visualRun_then; [| exact Hr4].
    eapply visualRun_then; [| apply visualRun_alike, Ha3].
    eapply visualRun_then; [exact Hr1 | exact Hr2]. }
  destruct Hr as (_ & (evs & Ht & Hev) & Hres).
  exists results, s4. split; [reflexivity |]. split; [exact Hres |]. split.
  - rewrite (@newEvents_app _ _ _ Ht). exact Hev.
  - rewrite Hg4. destruct Ha3 as (_ & _ & Hg3 & _). rewrite <- Hg3.
    simpl. lia.
Qed.

Lemma visual_delegate_completes_witness :
  exists results st',
    runVisualDelegate Scenario.clickThenDone false "click the button" "" st0
    = (Ok ("Visual Agent Completed." ^^ LF ^^ "Final Message: "
           ^^ "Clicked it."
           ^^ LF ^^ "Actions Taken:" ^^ LF
           ^^ join LF
                (historyOf Scenario.clickThenDone
                   (functionCallsOf clickResponse ++ []) results)),
       st') /\
    Forall2 (fun call res =>
               exists t, clock st0 <= t <= clock st'
                         /\ res = visualResultAt Scenario.clickThenDone t call)
            (functionCallsOf clickResponse ++ []) results /\
    toolEvents (newEvents st0 st')
    = flat_map visualDriverCall (functionCallsOf clickResponse ++ []) /\
    gens st' = 0 + 1 + 1.
Proof.
  apply (@visual_delegate_completes Scenario.clickThenDone false
           "click the button" "" st0 [clickResponse] Scenario.doneResponse).
  - unfold VISUAL_MAX_STEPS. simpl. lia.
  - intros [| [| i]] response cs; simpl; intros H; inversion H;
      try reflexivity.
    destruct i; discriminate.
  - repeat constructor. vm_compute. discriminate.
  - reflexivity.
Defined.

(** The report of that run. *)
Example visual_delegate_report :
  fst (runVisualDelegate Scenario.clickThenDone false "click the button" ""
         st0)
  = Ok ("Visual Agent Completed." ^^ LF ^^ "Final Message: Clicked it." ^^ LF
        ^^ "Actions Taken:" ^^ LF ^^ "- click_at(x=10, y=20) => ok").
Proof. vm_compute. reflexivity. Qed.

(** X12.  A step without a response leaves the loop at once: after some
    steps (fewer than the cap) whose responses all carry calls, a result
    with no candidate content makes [runVisualDelegate] return the report
    of the exhausted loop, "reached max steps", with one history line per
    action taken so far, each with the result the driver gave, although
    the cap was not reached. *)
Theorem visual_delegate_no_response (env : Env) (po : bool)
    (instruction : JsVal) (initialScreenshot : string) (st : St)
    (responses : list Content) :
  length responses < VISUAL_MAX_STEPS ->
  (forall i response cs,
     nth_error responses i = Some response ->
     generateContent env (gens st + i) cs = Ok (Some response)) ->
  (forall cs, generateContent env (gens st + length responses) cs = Ok None) ->
  Forall (fun r => functionCallsOf r <> []) responses ->
  exists results st',
    runVisualDelegate env po instruction initialScreenshot st
    = (Ok ("Visual Agent reached max steps." ^^ LF ^^ "Actions Taken:" ^^ LF
           ^^ join LF (historyOf env (flat_map functionCallsOf responses)
                         results)),
       st') /\
    Forall2 (fun call res =>
               exists t, clock st <= t <= clock st'
                         /\ res = visualResultAt env t call)
            (flat_map functionCallsOf responses) results /\
    toolEvents (newEvents st st')
    = flat_map visualDriverCall (flat_map functionCallsOf responses) /\
    gens st' = gens st + length responses + 1.
Proof.
  intros Hlt Hgen Hnone Hne.
  unfold VISUAL_MAX_STEPS in Hlt.
  unfold runVisualDelegate.
  set (contents0 := [ _ ]).
  replace VISUAL_MAX_STEPS
    with (length responses + S (VISUAL_MAX_STEPS - S (length responses)))
    by (unfold VISUAL_MAX_STEPS; lia).
  destruct (@visualLoop_prefix env po responses
              (S (VISUAL_MAX_STEPS - S (length responses))) contents0 [] st
              Hgen Hne)
    as (results & contents1 & s1 & Hrun & Hr1 & Hg1).
  unfold bind at 1. rewrite Hrun. simpl app.
  simpl visualLoop. unfold bind at 1. unfold awaitGenerateContent at 1.
  rewrite Hg1, Hnone. unfold ret at 1. cbv beta iota.
  set (s2 := countGen (ticked (EvGenerateContent contents1) s1)).
  assert (Hr2 : visualRun env s1 s2 [] []).
  { split; [simpl; lia |]. split; [| constructor].
    exists [EvGenerateContent contents1]. split; reflexivity. }
  destruct (visualRun_invalidateCache env s2) as (s3 & Hi & Hr3 & Hg3).
  rewrite (bind_ok _ _ _ Hi).
  assert (Hr : visualRun env st s3 (flat_map functionCallsOf responses)
                         results).
  { eapply visualRun_then; [| exact Hr3].
    eapply visualRun_then; [exact Hr1 | exact Hr2]. }
  destruct Hr as (_ & (evs & Ht & Hev) & Hres).
  exists results, s3. split; [reflexivity |]. split; [exact Hres |]. split.
  - rewrite (@newEvents_app _ _ _ Ht). exact Hev.
  - rewrite Hg3. simpl. lia.
Qed.

Lemma visual_delegate_no_response_witness :
  exists results st',
    runVisualDelegate Scenario.clickThenSilent true "click the button" "" st0
    = (Ok ("Visual Agent reached max steps." ^^ LF ^^ "Actions Taken:" ^^ LF
           ^^ join LF (historyOf Scenario.clickThenSilent
                         (functionCallsOf clickResponse ++ []) results)),
       st') /\
    Forall2 (fun call res =>
               exists t, clock st0 <= t <= clock st'
                         /\ res = visualResultAt Scenario.clickThenSilent t
                                    call)
            (functionCallsOf clickResponse ++ []) results /\
    toolEvents (newEvents st0 st')
    = flat_map visualDriverCall (functionCallsOf clickResponse ++ []) /\
    gens st' = 0 + 1 + 1.
Proof.
  apply (@visual_delegate_no_response Scenario.clickThenSilent true
           "click the button" "" st0 [clickResponse]).
  - unfold VISUAL_MAX_STEPS. simpl. lia.
  - intros [| i] response cs H; [| destruct i; discriminate].
    inversion H. reflexivity.
  - reflexivity.
  - repeat constructor. vm_compute. discriminate.
Defined.

(** The report of that run: the one action taken has its line. *)
Example visual_delegate_cut_short :
  fst (runVisualDelegate Scenario.clickThenSilent true "click the button" ""
         st0)
  = Ok ("Visual Agent reached max steps." ^^ LF ^^ "Actions Taken:" ^^ LF
        ^^ "- click_at(x=10, y=20) => ok").
Proof. vm_compute. reflexivity. Qed.

(** X13.  A failure of the visual model is not handled inside the delegate
    but by the orchestrator's dispatch: when the visual model throws, at
    the first step or after steps whose responses carried calls, the
    delegation is answered with the error text under the delegate's name,
    the flags of the task are untouched, and nothing is thrown; the report
    of the actions already taken is lost. *)
Theorem delegate_failure_contained (env : Env) (po : bool) (fnArgs : Args)
    (flags : bool * JsVal) (st : St) (responses : list Content)
    (e : Thrown) :
  length responses < VISUAL_MAX_STEPS ->
  (forall i response cs,
     nth_error responses i = Some response ->
     generateContent env (gens st + i) cs = Ok (Some response)) ->
  (forall cs, generateContent env (gens st + length responses) cs = Throw e) ->
  Forall (fun r => functionCallsOf r <> []) responses ->
  exists st',
    guardedDispatch env po "delegate_to_visual_agent" fnArgs flags st
    = (Ok (TextContent ("Error executing delegate_to_visual_agent: "
                        ^^ errorText e), flags), st') /\
    gens st' = gens st + length responses + 1.
Proof.
  intros Hlt Hgen Hthrow Hne.
  unfold VISUAL_MAX_STEPS in Hlt.
  unfold guardedDispatch, dispatchSwitch, tryCatch.
  change ("delegate_to_visual_agent" =? "complete_task") with false.
  change ("delegate_to_visual_agent" =? "delegate_to_visual_agent") with true.
  cbv iota.
  destruct (captureScreenshot_run env st) as (k & shot & Hshot).
  rewrite (bind_ok _ _ _ Hshot).
  set (s0 := after (firstn k screenshotEvents) st).
  assert (Hg0 : gens s0 = gens st) by reflexivity.
  unfold bind at 1. unfold runVisualDelegate.
  set (contents0 := [ _ ]).
  replace VISUAL_MAX_STEPS
    with (length responses + S (VISUAL_MAX_STEPS - S (length responses)))
    by (unfold VISUAL_MAX_STEPS; lia).
  destruct (@visualLoop_prefix env po responses
              (S (VISUAL_MAX_STEPS - S (length responses))) contents0 [] s0)
    as (results & contents1 & s1 & Hrun & Hlen & Hg1).
  { intros i r cs Hnth. rewrite Hg0. apply Hgen. exact Hnth. }
  { exact Hne. }
  unfold bind at 1. rewrite Hrun. simpl app.
  simpl visualLoop. unfold bind at 1. unfold awaitGenerateContent at 1.
  rewrite Hg1, Hg0, Hthrow.
  eexists. split; [reflexivity |]. simpl. lia.
Qed.

Lemma delegate_failure_contained_witness :
  exists st',
    guardedDispatch
      (Script.withVisualModel (fun _ => Throw (ErrorObj "503 unavailable"))
         Script.idle)
      false "delegate_to_visual_agent" [("instruction", JStr "click it")]
      (false, JStr "") st0
    = (Ok (TextContent ("Error executing delegate_to_visual_agent: "
                        ^^ "503 unavailable"), (false, JStr "")), st') /\
    gens st' = 0 + 0 + 1.
Proof.
  apply (@delegate_failure_contained
           (Script.withVisualModel (fun _ => Throw (ErrorObj "503 unavailable"))
              Script.idle)
           false [("instruction", JStr "click it")] (false, JStr "") st0 []
           (ErrorObj "503 unavailable")).
  - unfold VISUAL_MAX_STEPS. simpl. lia.
  - intros [| i] response cs H; discriminate.
  - reflexivity.
  - constructor.
Defined.

(** A step whose response carries no call ends the delegate. *)
Lemma visualLoop_done env po n contents h st response :
  generateContent env (gens st) contents = Ok (Some response) ->
  functionCallsOf response = [] ->
  exists st',
    visualLoop env po (S n) contents h st
    = (Ok (VisualReturned
             ("Visual Agent Completed." ^^ LF ^^ "Final Message: "
              ^^ or_else
                   (option_map
                      (fun ps =>
                         join "" (map (fun p => or_else (p_text p) "") ps))
                      (parts response))
                   "Done"
              ^^ LF ^^ "Actions Taken:" ^^ LF ^^ join LF h)), st') /\
    gens st' = S (gens st).
Proof.
  intros Hgen Hnone.
  simpl visualLoop. unfold bind at 1. unfold awaitGenerateContent at 1.
  rewrite Hgen.
  set (s1 := countGen (ticked (EvGenerateContent contents) st)).
  destruct (run_safe s1 (safe_visualLog env po (VISUAL_MAX_STEPS - S n) response))
    as [[] Hl].
  assert (Hg2 : gens (snd (visualLog env po (VISUAL_MAX_STEPS - S n) response s1))
                = gens s1).
  { apply always_visualLog with (R := sameGens); sameGens_frame. }
  rewrite (bind_ok _ _ _ Hl), Hnone.
  match goal with
  | |- context [bind (invalidateCache env) _ ?s] =>
    destruct (invalidateCache_run env s) as (s3 & Hi & Hg3);
    rewrite (bind_ok _ _ _ Hi)
  end.
  exists s3. split; [reflexivity |]. rewrite Hg3, Hg2. reflexivity.
Qed.

Lemma visualLoop_bound env po n contents h st :
  gens st <= gens (snd (visualLoop env po n contents h st)) <= gens st + n /\
  (0 < n -> gens st < gens (snd (visualLoop env po n contents h st))) /\
  match fst (visualLoop env po n contents h st) with
  | Throw e =>
    exists cs,
      generateContent env
        (gens (snd (visualLoop env po n contents h st)) - 1) cs = Throw e
  | Ok (VisualReturned out) =>
    exists text hist,
      out = "Visual Agent Completed." ^^ LF ^^ "Final Message: " ^^ text
            ^^ LF ^^ "Actions Taken:" ^^ LF ^^ join LF hist
  | Ok (VisualLeft _) => True
  end.
Proof.
  revert contents h st.
  induction n as [| n IH]; intros contents h st.
  - simpl. repeat split; lia.
  - destruct (generateContent env (gens st) contents)
      as [[response |] | e] eqn:Hgen.
    + destruct (functionCallsOf response) as [| c cs] eqn:Hcalls.
      * destruct (@visualLoop_done env po n contents h st response Hgen Hcalls)
          as (st' & -> & Hg).
        cbn [fst snd]. rewrite Hg. repeat split; try lia.
        eexists; eexists; reflexivity.
      * assert (Hne : functionCallsOf response <> []) by congruence.
        destruct (@visualLoop_step env po n contents h st response Hgen Hne)
          as (results & contents' & st' & -> & _ & Hg).
        destruct (IH contents'
                    (h ++ historyOf env (functionCallsOf response) results)
                    st') as (Hb & _ & Hr).
        rewrite Hg in Hb. repeat split; try lia. exact Hr.
    + assert (Hrun : visualLoop env po (S n) contents h st
                     = (Ok (VisualLeft h),
                        countGen (ticked (EvGenerateContent contents) st))).
      { simpl visualLoop. unfold bind at 1.
        unfold awaitGenerateContent at 1. rewrite Hgen. reflexivity. }
      rewrite Hrun. simpl. repeat split; lia.
    + assert (Hrun : visualLoop env po (S n) contents h st
                     = (Throw e,
                        countGen (ticked (EvGenerateContent contents) st))).
      { simpl visualLoop. unfold bind at 1.
        unfold awaitGenerateContent at 1. rewrite Hgen. reflexivity. }
      rewrite Hrun. simpl. repeat split; try lia.
      exists contents. rewrite Nat.sub_0_r. exact Hgen.
Qed.

(** X14.  Whatever the visual model and the driver do, one delegation
    calls the visual model at least once and at most [VISUAL_MAX_STEPS]
    times.  It returns one of its two reports, and it throws only what the
    last call of the visual model threw. *)
Theorem visual_model_calls_bounded (env : Env) (po : bool)
    (instruction : JsVal) (initialScreenshot : string) (st : St) :
  gens st < gens (snd (runVisualDelegate env po instruction initialScreenshot st))
  /\ gens (snd (runVisualDelegate env po instruction initialScreenshot st))
     <= gens st + VISUAL_MAX_STEPS
  /\ match fst (runVisualDelegate env po instruction initialScreenshot st) with
     | Ok out =>
       (exists text hist,
          out = "Visual Agent Completed." ^^ LF ^^ "Final Message: " ^^ text
                ^^ LF ^^ "Actions Taken:" ^^ LF ^^ join LF hist)
       \/ (exists hist,
             out = "Visual Agent reached max steps." ^^ LF ^^ "Actions Taken:"
                   ^^ LF ^^ join LF hist)
     | Throw e =>
       exists cs,
         generateContent env
           (gens (snd (runVisualDelegate env po instruction initialScreenshot
                         st)) - 1) cs = Throw e
     end.
Proof.
  unfold runVisualDelegate.
  set (contents0 := [ _ ]).
  destruct (visualLoop_bound env po VISUAL_MAX_STEPS contents0 [] st)
    as (Hb & Hpos & Hr).
  assert (H0 : 0 < VISUAL_MAX_STEPS) by (unfold VISUAL_MAX_STEPS; lia).
  specialize (Hpos H0).
  destruct (visualLoop env po VISUAL_MAX_STEPS contents0 [] st)
    as [[[out | hist] | e] s1] eqn:Hloop; cbn [fst snd] in *.
  - rewrite (bind_ok _ _ _ Hloop). unfold ret. cbn [fst snd].
    repeat split; try lia. left. exact Hr.
  - rewrite (bind_ok _ _ _ Hloop).
    destruct (invalidateCache_run env s1) as (s2 & Hi & Hg).
    rewrite (bind_ok _ _ _ Hi). unfold ret. cbn [fst snd].
    rewrite Hg. repeat split; try lia. right. eexists; reflexivity.
  - rewrite (bind_throw _ _ _ Hloop). cbn [fst snd].
    repeat split; try lia. exact Hr.
Qed.

(** ** The actions of a visual step *)

(** X15.  In a visual step every function call is answered, in order, by
    one function response under its own name, a call without a name
    included, and leaves one line of history.  The driver is called for
    the known visual tools only, on the values of the tool's argument
    keys, one call after the other; the result of an action is what the
    driver gives at that instant, the error text when the driver method
    throws, and an error result for an unknown tool and for a call
    without arguments, which reach no driver method. *)
Theorem visual_actions_all_answered (env : Env) (calls : list FunctionCall)
    (functionResponses : list Part) (actionHistory : list string) (st : St) :
  let results := visualResults env (clock st) calls in
  visualActions env calls functionResponses actionHistory st
  = (Ok (functionResponses ++ visualResponses calls results,
         actionHistory ++ historyOf env calls results),
     after (flat_map visualDriverCall calls) st) /\
  length results = length calls /\
  Forall2 (fun call res =>
             visualDriverCall call = [] ->
             output res = None /\ error res <> None)
          calls results.
Proof.
  cbv zeta. split; [apply visualActions_exact |].
  split; [apply visualResults_length |].
  generalize (clock st). induction calls as [| call rest IH]; intros t.
  - constructor.
  - cbn [visualResults]. constructor; [| apply IH].
    unfold visualDriverCall, visualResultAt. intros Hnone.
    destruct (visualHandler (fc_name call)) as [[m keys] |].
    + destruct (fc_args call) as [a |]; [discriminate |].
      split; [reflexivity | discriminate].
    + split; [reflexivity | discriminate].
Qed.

(** Two actions in one step: a click the driver rejects, and a tool the
    visual loop does not know. *)
Example visual_actions_with_failures :
  let env :=
    Script.withTools (fun _ _ _ => Throw (ErrorObj "No page")) Script.idle in
  let calls := [Script.call "click_at" [("x", JNum 10); ("y", JNum 20)];
                Script.call "zoom" []] in
  let r := visualActions env calls [] [] st0 in
  fst r
  = Ok ([responsePart (Some "click_at")
           (ResultObject (errorResult "No page"));
         responsePart (Some "zoom")
           (ResultObject (errorResult "Unknown visual tool: zoom"))],
        ["- click_at(x=10, y=20) => {}"; "- zoom() => {}"]) /\
  trace (snd r) = [EvBrowserTools clickAt [Some (JNum 10); Some (JNum 20)]].
Proof. vm_compute. split; reflexivity. Qed.

(** ** What a delegation sends to the visual model *)

Lemma visualLoop_trace env po n contents h st :
  delegateTrace st (snd (visualLoop env po n contents h st)).
Proof. apply delegate_visualLoop with (R := delegateTrace); delegateTrace_frame. Qed.

Lemma invalidateCache_trace env st :
  delegateTrace st (snd (invalidateCache env st)).
Proof. apply delegate_invalidateCache with (R := delegateTrace); delegateTrace_frame. Qed.

Lemma visualLog_trace env po i response st :
  delegateTrace st (snd (visualLog env po i response st)).
Proof. apply delegate_visualLog with (R := delegateTrace); delegateTrace_frame. Qed.

(** The first call of a step is the call of the visual model, on the
    conversation so far. *)
Lemma visualLoop_first env po n contents h st :
  delegateTrace (countGen (ticked (EvGenerateContent contents) st))
             (snd (visualLoop env po (S n) contents h st)).
Proof.
  destruct (generateContent env (gens st) contents)
    as [[response |] | e] eqn:Hgen.
  - destruct (functionCallsOf response) as [| c cs] eqn:Hcalls.
    + simpl visualLoop. unfold bind at 1. unfold awaitGenerateContent at 1.
      rewrite Hgen.
      set (s1 := countGen (ticked (EvGenerateContent contents) st)).
      destruct (run_safe s1
                  (safe_visualLog env po (VISUAL_MAX_STEPS - S n) response))
        as [[] Hl].
      pose proof (visualLog_trace env po (VISUAL_MAX_STEPS - S n) response s1)
        as Hq1.
      rewrite (bind_ok _ _ _ Hl), Hcalls.
      match goal with
      | |- context [bind (invalidateCache env) _ ?s] =>
        destruct (invalidateCache_run env s) as (s3 & Hi & _);
        pose proof (invalidateCache_trace env s) as Hq2;
        rewrite (bind_ok _ _ _ Hi); rewrite Hi in Hq2
      end.
      eapply delegateTrace_trans; [exact Hq1 | exact Hq2].
    + simpl visualLoop. unfold bind at 1. unfold awaitGenerateContent at 1.
      rewrite Hgen.
      set (s1 := countGen (ticked (EvGenerateContent contents) st)).
      destruct (run_safe s1
                  (safe_visualLog env po (VISUAL_MAX_STEPS - S n) response))
        as [[] Hl].
      pose proof (visualLog_trace env po (VISUAL_MAX_STEPS - S n) response s1)
        as Hq1.
      rewrite (bind_ok _ _ _ Hl), Hcalls.
      set (s2 := snd (visualLog env po (VISUAL_MAX_STEPS - S n) response s1)) in *.
      pose proof (visualActions_exact env (c :: cs) [] h s2) as Ha.
      set (s3 := after (flat_map visualDriverCall (c :: cs)) s2) in *.
      assert (Hq2 : delegateTrace s2 s3).
      { replace s3 with (snd (visualActions env (c :: cs) [] h s2))
          by (rewrite Ha; reflexivity).
        apply delegate_visualActions with (R := delegateTrace); delegateTrace_frame. }
      rewrite (bind_ok _ _ _ Ha).
      destruct (run_safe s3 (safe_tryCatch (captureScreenshot env)
                               (fun _ => ret "") (fun _ => safe_ret "")))
        as [shot Hshot].
      assert (Hq3 : delegateTrace s3 (snd (tryCatch (captureScreenshot env)
                                          (fun _ => ret "") s3))).
      { apply always_tryCatch with (R := delegateTrace);
          [ apply delegateTrace_trans
          | apply delegate_captureScreenshot with (R := delegateTrace);
            delegateTrace_frame
          | intros ?; apply always_ret, delegateTrace_refl ]. }
      rewrite (bind_ok _ _ _ Hshot).
      eapply delegateTrace_trans; [exact Hq1 |].
      eapply delegateTrace_trans; [exact Hq2 |].
      eapply delegateTrace_trans; [exact Hq3 |].
      apply visualLoop_trace.
  - simpl visualLoop. unfold bind at 1. unfold awaitGenerateContent at 1.
    rewrite Hgen. apply delegateTrace_refl.
  - simpl visualLoop. unfold bind at 1. unfold awaitGenerateContent at 1.
    rewrite Hgen. apply delegateTrace_refl.
Qed.

Lemma runVisualDelegate_first env po instruction shot st :
  exists later,
    trace (snd (runVisualDelegate env po instruction shot st))
    = trace st
      ++ EvGenerateContent
           [{| role := Some "user";
               parts := Some (textPart (visualSystemInstruction env instruction)
                              :: (if shot =? "" then []
                                  else [imagePart shot])) |}]
         :: later /\
    Forall (fun ev => delegateEvent ev = true) later.
Proof.
  unfold runVisualDelegate.
  set (contents0 := [ _ ]).
  change VISUAL_MAX_STEPS with (S 4).
  pose proof (visualLoop_first env po 4 contents0 [] st) as Hq.
  assert (Hend : delegateTrace (countGen (ticked (EvGenerateContent contents0) st))
                   (snd (bind (visualLoop env po 5 contents0 [])
                           (fun exit =>
                              match exit with
                              | VisualReturned out => ret out
                              | VisualLeft actionHistory =>
                                invalidateCache env ;;
                                ret ("Visual Agent reached max steps." ^^ LF
                                     ^^ "Actions Taken:" ^^ LF
                                     ^^ join LF actionHistory)
                              end) st))).
  { destruct (visualLoop env po 5 contents0 [] st)
      as [[[out | hist] | e] s1] eqn:Hloop; cbn [snd] in Hq.
    - rewrite (bind_ok _ _ _ Hloop). exact Hq.
    - rewrite (bind_ok _ _ _ Hloop).
      destruct (invalidateCache_run env s1) as (s2 & Hi & _).
      pose proof (invalidateCache_trace env s1) as Hq2.
      rewrite (bind_ok _ _ _ Hi). rewrite Hi in Hq2.
      eapply delegateTrace_trans; [exact Hq | exact Hq2].
    - rewrite (bind_throw _ _ _ Hloop). exact Hq. }
  destruct Hend as (later & Ht & Hall).
  exists later. split; [| exact Hall].
  rewrite Ht. simpl. rewrite <- app_assoc. reflexivity.
Qed.

(** X16.  A delegation to the visual agent first attempts a screenshot and
    then opens the visual conversation with one user message: the
    delegate's instruction, which is the value of the call's [instruction]
    argument printed as a string, of whatever type it is (the empty string
    when the call gives none or a falsy one), followed by the screenshot
    as an image part when one was captured, and by nothing when the
    capture failed.  All that follows in the dispatch are calls of the
    delegate's own kinds ([delegateEvent]): none is a call of the
    orchestrator's model or a request for a snapshot. *)
Theorem delegate_opens_with_screenshot (env : Env) (po : bool)
    (fnArgs : Args) (flags : bool * JsVal) (st : St) :
  exists n shot later,
    captureScreenshot env st
    = (Ok shot, after (firstn n screenshotEvents) st) /\
    newEvents st
      (snd (guardedDispatch env po "delegate_to_visual_agent" fnArgs flags st))
    = firstn n screenshotEvents
      ++ EvGenerateContent
           [{| role := Some "user";
               parts :=
                 Some (textPart
                         (visualSystemInstruction env
                            (or_value (lookup "instruction" fnArgs) ""))
                       :: (if shot =? "" then [] else [imagePart shot])) |}]
         :: later /\
    Forall (fun ev => delegateEvent ev = true) later.
Proof.
  destruct (captureScreenshot_run env st) as (n & shot & Hshot).
  destruct (runVisualDelegate_first env po
              (or_value (lookup "instruction" fnArgs) "") shot
              (after (firstn n screenshotEvents) st))
    as (later & Ht & Hall).
  exists n, shot, later. split; [exact Hshot | split; [| exact Hall]].
  apply newEvents_app.
  unfold guardedDispatch, dispatchSwitch, tryCatch.
  change ("delegate_to_visual_agent" =? "complete_task") with false.
  change ("delegate_to_visual_agent" =? "delegate_to_visual_agent") with true.
  cbv iota.
  rewrite (bind_ok _ _ _ Hshot).
  destruct (runVisualDelegate env po
              (or_value (lookup "instruction" fnArgs) "") shot
              (after (firstn n screenshotEvents) st))
    as [[out | e] s1] eqn:Hrun; cbn [snd] in Ht.
  - rewrite (bind_ok _ _ _ Hrun). unfold ret. cbv beta iota. cbn [snd].
    rewrite Ht. simpl. rewrite <- app_assoc. reflexivity.
  - rewrite (bind_throw _ _ _ Hrun). unfold ret. cbv beta iota. cbn [snd].
    rewrite Ht. simpl. rewrite <- app_assoc. reflexivity.
Qed.

(** An instruction that is a number is printed in the opening message. *)
Example delegate_instruction_of_any_type :
  let r := guardedDispatch Script.idle false "delegate_to_visual_agent"
             [("instruction", JNum 42)] (false, JStr "") st0 in
  nth_error (trace (snd r)) 5
  = Some (EvGenerateContent
            [{| role := Some "user";
                parts := Some [textPart (visualSystemInstruction Script.idle
                                           (JNum 42));
                               imagePart "iVBORw0KGgo="] |}]) /\
  includes ("task: " ^^ DQ ^^ "42" ^^ DQ)
           (visualSystemInstruction Script.idle (JNum 42)) = true.
Proof. vm_compute. split; reflexivity. Qed.

(** ** Tasks that never delegate *)

Lemma plain_refl st : plain st st.
Proof. split; [reflexivity |]. exists []. rewrite app_nil_r. auto. Qed.

Lemma plain_trans a b c : plain a b -> plain b c -> plain a c.
Proof.
  intros (Hg1 & evs1 & Ht1 & Ha1) (Hg2 & evs2 & Ht2 & Ha2).
  split; [congruence |]. exists (evs1 ++ evs2). split.
  - rewrite Ht2, Ht1, app_assoc. reflexivity.
  - apply Forall_app. auto.
Qed.

Lemma plain_after evs st :
  Forall (fun ev => visualEvent ev = false) evs -> plain st (after evs st).
Proof. intros H. split; [reflexivity |]. exists evs. auto. Qed.

Lemma plain_silent a b : silent a b -> plain a b.
Proof.
  intros (Ht & _ & Hg). split; [exact Hg |]. exists [].
  rewrite app_nil_r. auto.
Qed.

Lemma plain_ret {A} (a : A) : always plain (ret a).
Proof. intros st. apply plain_refl. Qed.

Lemma plain_bind {A B} (m : M A) (f : A -> M B) :
  always plain m -> (forall a, always plain (f a)) -> always plain (bind m f).
Proof.
  intros Hm Hf.
  apply always_bind with (R := plain); [exact plain_trans | exact Hm | exact Hf].
Qed.

Lemma plain_tryCatch {A} (m : M A) (h : Thrown -> M A) :
  always plain m -> (forall e, always plain (h e)) ->
  always plain (tryCatch m h).
Proof.
  intros Hm Hh.
  apply always_tryCatch with (R := plain);
    [exact plain_trans | exact Hm | exact Hh].
Qed.

Lemma plain_await {A} ev (script : nat -> Outcome A) :
  visualEvent ev = false -> always plain (await ev script).
Proof.
  intros H st. unfold await. cbn [snd]. rewrite ticked_first.
  apply plain_after. auto.
Qed.

Lemma plain_printOutput po msg : always plain (printOutput po msg).
Proof. intros st. apply plain_silent, printOutput_silent. Qed.

Lemma plain_signalAborted env : always plain (signalAborted env).
Proof. intros st. apply plain_refl. Qed.

Lemma plain_throw {A} (e : Thrown) : always plain (@throw A e).
Proof. intros st. apply plain_refl. Qed.

Ltac plain_frame :=
  repeat first
    [ apply plain_ret
    | apply plain_throw
    | apply plain_printOutput
    | apply plain_signalAborted
    | apply plain_await; reflexivity
    | apply plain_bind; [ | intros ? ]
    | apply plain_tryCatch; [ | intros ? ]
    | progress cbv zeta
    | match goal with
      | |- always _ (match ?x with _ => _ end) => destruct x
      end ].

(** The cases of the [switch] that call one method call none of the
    coordinate actions. *)
Lemma directHandler_semantic n m keys orError a :
  directHandler n = Some (m, keys, orError) ->
  visualEvent (EvBrowserTools m a) = false.
Proof.
  unfold directHandler.
  repeat match goal with
         | |- context [if ?c then Some _ else _] =>
           destruct c; [intros H; inversion H; reflexivity |]
         end.
  discriminate.
Qed.

Lemma guardedDispatch_plain env po call n flags :
  fc_name call = Some n -> n <> "" ->
  isDelegation call = false -> reflective call = false ->
  always plain (guardedDispatch env po n (argsOf call) flags).
Proof.
  intros Hname Hne Hdel Hrefl.
  unfold isDelegation in Hdel. unfold reflective in Hrefl.
  rewrite Hname in Hdel, Hrefl.
  apply String.eqb_neq in Hne. rewrite Hne, Hdel in Hrefl.
  unfold guardedDispatch, dispatchSwitch. rewrite Hdel.
  apply plain_tryCatch; [| intros e; apply plain_ret].
  destruct (n =? "complete_task"); [plain_frame |].
  destruct (directHandler n) as [[[m keys] orError] |] eqn:Hd.
  - cbv zeta. apply plain_bind; [| intros res; apply plain_ret].
    apply plain_await. eapply directHandler_semantic, Hd.
  - destruct (existsb (String.eqb n) semanticToolNames); [| discriminate].
    plain_frame.
Qed.

Lemma executeTools_plain env po calls :
  Forall (fun c => isDelegation c = false /\ reflective c = false) calls ->
  forall inputParts flags,
    always plain (executeTools env po calls inputParts flags).
Proof.
  induction 1 as [| call rest [Hdel Hrefl] _ IH]; intros inputParts flags.
  - apply plain_ret.
  - cbn [executeTools]. apply plain_bind; [apply plain_signalAborted |].
    intros [|]; [plain_frame |]. cbv zeta.
    destruct (fc_name call) as [n |] eqn:Hname.
    + destruct (n =? "") eqn:Hne; apply plain_bind;
        try apply plain_printOutput; intros _; [apply IH |].
      apply plain_bind; [| intros r; apply IH].
      apply guardedDispatch_plain; auto. apply String.eqb_neq, Hne.
    + change ("" =? "") with true. cbv iota.
      apply plain_bind; [apply plain_printOutput | intros _; apply IH].
Qed.

Lemma executePhase_plain env po ls calls :
  Forall (fun c => isDelegation c = false /\ reflective c = false) calls ->
  always plain (executePhase env po ls calls).
Proof.
  intros H. unfold executePhase. destruct calls as [| c cs].
  - plain_frame.
  - apply plain_bind; [apply executeTools_plain, H |].
    intros [inputParts [completed summary]]. destruct completed;
      apply plain_ret.
Qed.

Lemma captureEvents_plain evs :
  evs = captureEvents \/ evs = [EvGetMcpClient] ->
  Forall (fun ev => visualEvent ev = false) evs.
Proof. intros [-> | ->]; repeat constructor. Qed.

Lemma loopBody_plain env po ls :
  (forall k parts s,
     sendMessageStream env k parts = Ok s ->
     Forall (fun c => isDelegation c = false /\ reflective c = false)
            (streamCalls s)) ->
  always plain (loopBody env po ls).
Proof.
  intros Hcalls st.
  pose proof (loopBody_run env po ls st) as H.
  destruct (loopBody env po ls st) as [r st'] eqn:E. cbn [fst snd] in *.
  assert (Hcap : forall dom evs,
             captureState env st = (Ok dom, after evs st) ->
             plain st (after evs st)).
  { intros dom evs Hc. apply plain_after, captureEvents_plain.
    destruct (captureState_run env st) as (dom' & evs' & Hc' & Hevs).
    assert (Ha : after evs st = after evs' st) by congruence.
    apply (f_equal trace) in Ha. simpl in Ha. apply app_inv_head in Ha.
    subst evs'. destruct Hevs as [[-> _] | [-> _]]; auto. }
  inversion H; subst; clear H.
  - apply plain_printOutput.
  - eapply plain_trans; [eapply Hcap; eassumption | apply plain_printOutput].
  - eapply plain_trans; [eapply Hcap; eassumption |].
    match goal with
    | Hm : callModel _ _ _ _ = _ |- _ =>
      destruct (callModel_run env po (messagePartsOf dom ls) (after evs st))
        as (turn' & st2' & Hm' & _ & Hg & Ht & _ & Hturn);
      rewrite Hm in Hm'; inversion Hm'; subst turn' st2'; clear Hm'
    end.
    assert (Hmodel : plain (after evs st) st2).
    { split; [exact Hg |]. eexists. split; [exact Ht |]. repeat constructor. }
    eapply plain_trans; [exact Hmodel |].
    destruct turn as [text calls | | msg].
    + destruct Hturn as (s & Hs & _ & -> & _).
      match goal with
      | Hx : executePhase _ _ _ _ _ = _ |- _ =>
        pose proof (@executePhase_plain env po ls (streamCalls s)
                      (Hcalls _ _ _ Hs) st2) as Hq;
        rewrite Hx in Hq; exact Hq
      end.
    + match goal with
      | Hx : _ /\ _ |- _ => destruct Hx as [_ ->]
      end. apply plain_refl.
    + match goal with
      | Hx : _ /\ _ |- _ => destruct Hx as [_ ->]
      end. apply plain_refl.
Qed.

Lemma whileFrom_plain env po n c :
  (forall k parts s,
     sendMessageStream env k parts = Ok s ->
     Forall (fun c => isDelegation c = false /\ reflective c = false)
            (streamCalls s)) ->
  always plain (whileFrom env po n c).
Proof.
  intros Hcalls. revert c.
  induction n as [| n IH]; intros [ls | ls | msg]; simpl;
    try apply plain_ret.
  apply plain_bind; [apply loopBody_plain, Hcalls | intros c'; apply IH].
Qed.

(** X17.  Unless the model asks for [delegate_to_visual_agent], or calls
    a name that the [switch] has no case for and that is not declared,
    which is looked up on [BrowserTools] and may reach any of its members,
    a task makes no use of the visual agent at all: the visual model is
    never called, the page is never fetched, brought to front or captured
    in a screenshot, the overlay is never switched to capturing mode, and
    no coordinate action is executed. *)
Theorem no_delegation_no_visual_call (env : Env) (po : bool)
    (prompt : string) (st : St) :
  (forall k parts s,
     sendMessageStream env k parts = Ok s ->
     Forall (fun c => isDelegation c = false /\ reflective c = false)
            (streamCalls s)) ->
  gens (snd (runTask env po prompt st)) = gens st /\
  Forall (fun ev => visualEvent ev = false)
         (newEvents st (snd (runTask env po prompt st))).
Proof.
  intros Hcalls.
  assert (H : always plain (runTask env po prompt)).
  { unfold runTask.
    apply plain_bind; [plain_frame |].
    intros [msg |]; [apply plain_ret |].
    apply plain_bind; [apply plain_await; reflexivity | intros _].
    unfold taskLoop.
    apply plain_bind; [apply whileFrom_plain, Hcalls |].
    intros [ls | msg]; apply plain_ret. }
  destruct (H st) as (Hg & evs & Ht & Hall).
  split; [exact Hg |]. rewrite (@newEvents_app _ _ _ Ht). exact Hall.
Qed.

Lemma no_delegation_no_visual_call_witness :
  gens (snd (runTask Scenario.clicking false "go" st0)) = gens st0 /\
  Forall (fun ev => visualEvent ev = false)
         (newEvents st0 (snd (runTask Scenario.clicking false "go" st0))).
Proof.
  apply (@no_delegation_no_visual_call Scenario.clicking false "go" st0).
  intros k parts s H. inversion H. repeat constructor.
Defined.

(** A name looked up on [BrowserTools] reaches the overlay: one call of
    [updateBorderOverlay], by name, with the argument the model chose. *)
Example overlay_reached_by_name :
  let env :=
    Script.withModel
      (fun _ => Ok (Script.oneChunk
                      [Script.call "updateBorderOverlay"
                         [("options", JObj [("active", JBool true);
                                            ("capturing", JBool true)])];
                       Script.call "complete_task" []]))
      Script.idle in
  let r := runTask env false "go" st0 in
  reflective (Script.call "updateBorderOverlay" []) = true /\
  filter visualEvent (trace (snd r))
  = [EvLegacyMethod "updateBorderOverlay"
       [JObj [("active", JBool true); ("capturing", JBool true)]]].
Proof. vm_compute. split; reflexivity. Qed.

(** ** The progress callback *)

Lemma alike_sym a b : alike a b -> alike b a.
Proof. intros (H1 & H2 & H3 & H4). repeat split; auto. Qed.

Lemma sameRun_ret {A} (x : A) : sameRun (ret x) (ret x).
Proof. intros a b H. split; [reflexivity | exact H]. Qed.

Lemma sameRun_throw {A} (e : Thrown) : sameRun (@throw A e) (throw e).
Proof. intros a b H. split; [reflexivity | exact H]. Qed.

Lemma sameRun_bind {A B} (m1 m2 : M A) (f1 f2 : A -> M B) :
  sameRun m1 m2 -> (forall x, sameRun (f1 x) (f2 x)) ->
  sameRun (bind m1 f1) (bind m2 f2).
Proof.
  intros Hm Hf a b H. unfold bind.
  destruct (Hm a b H) as [Hr Hs].
  destruct (m1 a) as [[x | e] a'], (m2 b) as [[y | e'] b'];
    cbn [fst snd] in *; try discriminate.
  - inversion Hr; subst y. apply Hf, Hs.
  - inversion Hr; subst e'. split; [reflexivity | exact Hs].
Qed.

Lemma sameRun_tryCatch {A} (m1 m2 : M A) (h1 h2 : Thrown -> M A) :
  sameRun m1 m2 -> (forall e, sameRun (h1 e) (h2 e)) ->
  sameRun (tryCatch m1 h1) (tryCatch m2 h2).
Proof.
  intros Hm Hh a b H. unfold tryCatch.
  destruct (Hm a b H) as [Hr Hs].
  destruct (m1 a) as [[x | e] a'], (m2 b) as [[y | e'] b'];
    cbn [fst snd] in *; try discriminate.
  - split; [exact Hr | exact Hs].
  - inversion Hr; subst e'. apply Hh, Hs.
Qed.

Lemma sameRun_await {A} ev (script : nat -> Outcome A) :
  sameRun (await ev script) (await ev script).
Proof.
  intros a b (H1 & H2 & H3 & H4). unfold await, ticked. cbn [fst snd].
  rewrite H1. repeat split; simpl; congruence.
Qed.

Lemma sameRun_awaitNext : sameRun awaitNext awaitNext.
Proof.
  intros a b (H1 & H2 & H3 & H4). unfold awaitNext. cbn [fst snd].
  repeat split; simpl; congruence.
Qed.

Lemma sameRun_signalAborted env :
  sameRun (signalAborted env) (signalAborted env).
Proof.
  intros a b H. unfold signalAborted. cbn [fst snd].
  destruct H as (H1 & H'). rewrite H1. repeat split; tauto.
Qed.

Lemma sameRun_awaitSendMessageStream env parts :
  sameRun (awaitSendMessageStream env parts)
          (awaitSendMessageStream env parts).
Proof.
  intros a b (H1 & H2 & H3 & H4).
  unfold awaitSendMessageStream, countStream, ticked. cbn [fst snd].
  rewrite H2. repeat split; simpl; congruence.
Qed.

Lemma sameRun_awaitGenerateContent env contents :
  sameRun (awaitGenerateContent env contents)
          (awaitGenerateContent env contents).
Proof.
  intros a b (H1 & H2 & H3 & H4).
  unfold awaitGenerateContent, countGen, ticked. cbn [fst snd].
  rewrite H3. repeat split; simpl; congruence.
Qed.

Lemma sameRun_debugLog msg : sameRun (debugLog msg) (debugLog msg).
Proof. apply sameRun_ret. Qed.

Lemma unobserved_ret : unobserved (ret tt).
Proof. intros a. split; [reflexivity | apply alike_refl]. Qed.

Lemma unobserved_printOutput po msg : unobserved (printOutput po msg).
Proof.
  intros a. unfold printOutput. destruct po; split; try reflexivity;
    repeat split.
Qed.

Lemma unobserved_bind (m : M unit) (f : unit -> M unit) :
  unobserved m -> (forall x, unobserved (f x)) -> unobserved (bind m f).
Proof.
  intros Hm Hf a. unfold bind. destruct (Hm a) as [Hr Hs].
  destruct (m a) as [[[] | e] a']; cbn [fst snd] in *; [| discriminate].
  destruct (Hf tt a') as [Hr' Hs']. split; [exact Hr' |].
  eapply alike_trans; eassumption.
Qed.

Lemma unobserved_sameRun (m1 m2 : M unit) :
  unobserved m1 -> unobserved m2 -> sameRun m1 m2.
Proof.
  intros H1 H2 a b H. destruct (H1 a) as [Hr1 Hs1], (H2 b) as [Hr2 Hs2].
  split; [congruence |].
  eapply alike_trans; [exact Hs1 |].
  eapply alike_trans; [exact H | apply alike_sym, Hs2].
Qed.

Lemma unobserved_announceCalls env po calls : unobserved (announceCalls env po calls).
Proof.
  induction calls as [| call rest IH]; simpl; [apply unobserved_ret |].
  apply unobserved_bind; [| intros _; exact IH].
  unfold announceCall.
  repeat match goal with
         | |- unobserved (match ?x with _ => _ end) => destruct x
         end; apply unobserved_printOutput.
Qed.

Lemma unobserved_visualLog env po i response : unobserved (visualLog env po i response).
Proof.
  unfold visualLog. cbv zeta.
  match goal with
  | |- unobserved (match ?x with _ => _ end) => destruct x
  end; [apply unobserved_ret | apply unobserved_printOutput].
Qed.

Create HintDb observe.

#[global] Hint Resolve sameRun_ret sameRun_throw sameRun_await
  sameRun_awaitNext sameRun_signalAborted sameRun_awaitSendMessageStream
  sameRun_awaitGenerateContent sameRun_debugLog : observe.

#[global] Hint Resolve unobserved_ret unobserved_printOutput
  unobserved_announceCalls unobserved_visualLog : observe.

Ltac observe :=
  repeat first
    [ solve [ auto with observe ]
    | apply unobserved_sameRun; solve [ auto with observe ]
    | apply sameRun_bind; [ | intros ? ]
    | apply sameRun_tryCatch; [ | intros ? ]
    | progress cbv zeta
    | match goal with
      | |- sameRun (match ?x with _ => _ end) _ => destruct x
      end ].

Lemma sameRun_captureScreenshot env :
  sameRun (captureScreenshot env) (captureScreenshot env).
Proof. unfold captureScreenshot. observe. Qed.
#[global] Hint Resolve sameRun_captureScreenshot : observe.

Lemma sameRun_invalidateCache env :
  sameRun (invalidateCache env) (invalidateCache env).
Proof. unfold invalidateCache. observe. Qed.
#[global] Hint Resolve sameRun_invalidateCache : observe.

Lemma sameRun_captureState env : sameRun (captureState env) (captureState env).
Proof. unfold captureState. observe. Qed.
#[global] Hint Resolve sameRun_captureState : observe.

Lemma sameRun_visualDispatch env call :
  sameRun (visualDispatch env call) (visualDispatch env call).
Proof. unfold visualDispatch. observe. Qed.
#[global] Hint Resolve sameRun_visualDispatch : observe.

Lemma sameRun_visualActions env calls rs h :
  sameRun (visualActions env calls rs h) (visualActions env calls rs h).
Proof.
  revert rs h. induction calls as [| call rest IH]; intros rs h; simpl;
    observe; try apply IH.
Qed.
#[global] Hint Resolve sameRun_visualActions : observe.

Lemma sameRun_visualLoop env po1 po2 n contents h :
  sameRun (visualLoop env po1 n contents h) (visualLoop env po2 n contents h).
Proof.
  revert contents h. induction n as [| n IH]; intros contents h;
    [apply sameRun_ret |].
  cbn [visualLoop]. observe; try apply IH.
Qed.
#[global] Hint Resolve sameRun_visualLoop : observe.

Lemma sameRun_runVisualDelegate env po1 po2 instruction shot :
  sameRun (runVisualDelegate env po1 instruction shot)
          (runVisualDelegate env po2 instruction shot).
Proof. unfold runVisualDelegate. observe. Qed.
#[global] Hint Resolve sameRun_runVisualDelegate : observe.

Lemma sameRun_onChunk env po1 po2 chunk acc :
  sameRun (onChunk env po1 chunk acc) (onChunk env po2 chunk acc).
Proof.
  unfold onChunk. cbv zeta.
  apply sameRun_bind.
  - apply unobserved_sameRun;
      repeat match goal with
             | |- unobserved (match ?x with _ => _ end) => destruct x
             end; auto with observe.
  - intros _. destruct (ch_functionCalls chunk) as [calls |];
      [| apply sameRun_ret].
    apply sameRun_bind; [| intros _; apply sameRun_ret].
    apply unobserved_sameRun; [destruct po1 | destruct po2];
      auto with observe.
Qed.
#[global] Hint Resolve sameRun_onChunk : observe.

Lemma sameRun_forAwait env po1 po2 evs ending acc :
  sameRun (forAwait env po1 evs ending acc) (forAwait env po2 evs ending acc).
Proof.
  revert acc. induction evs as [| event rest IH]; intros acc; simpl;
    observe; try apply IH.
Qed.
#[global] Hint Resolve sameRun_forAwait : observe.

Lemma sameRun_callModel env po1 po2 parts :
  sameRun (callModel env po1 parts) (callModel env po2 parts).
Proof. unfold callModel. observe. Qed.
#[global] Hint Resolve sameRun_callModel : observe.

Lemma sameRun_guardedDispatch env po1 po2 fnName fnArgs flags :
  sameRun (guardedDispatch env po1 fnName fnArgs flags)
          (guardedDispatch env po2 fnName fnArgs flags).
Proof. unfold guardedDispatch, dispatchSwitch. observe. Qed.
#[global] Hint Resolve sameRun_guardedDispatch : observe.

Lemma sameRun_executeTools env po1 po2 calls inputParts flags :
  sameRun (executeTools env po1 calls inputParts flags)
          (executeTools env po2 calls inputParts flags).
Proof.
  revert inputParts flags.
  induction calls as [| call rest IH]; intros inputParts flags;
    [apply sameRun_ret |].
  cbn [executeTools]. observe; try apply IH.
Qed.
#[global] Hint Resolve sameRun_executeTools : observe.

Lemma sameRun_executePhase env po1 po2 ls calls :
  sameRun (executePhase env po1 ls calls) (executePhase env po2 ls calls).
Proof. unfold executePhase. observe. Qed.
#[global] Hint Resolve sameRun_executePhase : observe.

Lemma sameRun_loopBody env po1 po2 ls :
  sameRun (loopBody env po1 ls) (loopBody env po2 ls).
Proof. unfold loopBody. observe. Qed.
#[global] Hint Resolve sameRun_loopBody : observe.

Lemma sameRun_whileFrom env po1 po2 n c :
  sameRun (whileFrom env po1 n c) (whileFrom env po2 n c).
Proof.
  revert c. induction n as [| n IH]; intros [ls | ls | msg]; simpl;
    observe; try apply IH.
Qed.
#[global] Hint Resolve sameRun_whileFrom : observe.

(** X18.  The progress callback only observes.  Whether or not the caller
    supplies one, [runTask] ends the same way, with the same string or the
    same exception, after issuing the same calls to the browser and to the
    models in the same order; provided the callback itself returns
    normally, as the model of [printOutput] has it. *)
Theorem progress_callback_only_observes (env : Env) (prompt : string)
    (st : St) :
  fst (runTask env true prompt st) = fst (runTask env false prompt st) /\
  trace (snd (runTask env true prompt st))
  = trace (snd (runTask env false prompt st)) /\
  streams (snd (runTask env true prompt st))
  = streams (snd (runTask env false prompt st)) /\
  gens (snd (runTask env true prompt st))
  = gens (snd (runTask env false prompt st)).
Proof.
  assert (H : sameRun (runTask env true prompt) (runTask env false prompt)).
  { unfold runTask, taskLoop. observe. }
  destruct (H st st (alike_refl st)) as (Hr & _ & Hs & Hg & Ht).
  auto.
Qed.

(** ** The first turn *)

Lemma whileFrom_extends env po n c st :
  exists evs, trace (snd (whileFrom env po n c st)) = trace st ++ evs.
Proof.
  revert c st.
  induction n as [| n IH]; intros [ls | ls | msg] st; simpl;
    try (exists []; rewrite app_nil_r; reflexivity).
  destruct (loopBody_trace env po ls st) as (capture & rest & Ht & _).
  destruct (safe_loopBody env po ls st) as [c' Hc'].
  unfold bind.
  destruct (loopBody env po ls st) as [[c'' | e] s1]; simpl in *;
    [| discriminate].
  destruct (IH c'' s1) as (evs & Hevs).
  exists (capture ++ rest ++ evs).
  rewrite Hevs, Ht, <- !app_assoc. reflexivity.
Qed.

(** X19.  Once the browser is connected and unless the task is cancelled,
    the first thing sent to the model is the accessibility tree just
    captured (left out when the capture failed or gave nothing) followed
    by the caller's prompt behind the label "Task: "; the three connection
    calls and the state capture are all that precedes it. *)
Theorem first_payload_carries_task (env : Env) (po : bool) (prompt : string)
    (st : St) :
  abort_at env = None ->
  ensureConnection env (clock st) = Ok tt ->
  updateBorderOverlay env (S (clock st)) false = Ok tt ->
  updateBorderOverlay env (S (S (clock st))) false = Ok tt ->
  exists dom capture later,
    captureState env
      (after [EvEnsureConnection; EvUpdateBorderOverlay false;
              EvUpdateBorderOverlay false] st)
    = (Ok dom,
       after capture
         (after [EvEnsureConnection; EvUpdateBorderOverlay false;
                 EvUpdateBorderOverlay false] st)) /\
    newEvents st (snd (runTask env po prompt st))
    = [EvEnsureConnection; EvUpdateBorderOverlay false;
       EvUpdateBorderOverlay false]
      ++ capture
      ++ EvSendMessageStream
           (stateParts dom ++ [textPart ("Task: " ^^ prompt)])
         :: later.
Proof.
  intros Hab H1 H2 H3.
  rewrite (@runTask_loop env po prompt st H1 H2 H3).
  set (s0 := after _ st).
  destruct (@loopBody_payload env po (initialState prompt) s0
              (never_aborted _ _ Hab))
    as (dom & capture & tools & Hc & Ht & _).
  unfold taskLoop. change MAX_ITERATIONS with (S 19).
  destruct (safe_loopBody env po (initialState prompt) s0) as [c Hc'].
  destruct (loopBody env po (initialState prompt) s0) as [r s1] eqn:Hbody.
  cbn [fst snd] in *. subst r.
  destruct (whileFrom_extends env po 19 c s1) as (evs & Hevs).
  destruct (run_safe s1 (safe_whileFrom env po 19 c)) as [exit Hrun].
  assert (Hw : whileFrom env po (S 19) (Continue (initialState prompt)) s0
               = (Ok exit, snd (whileFrom env po 19 c s1))).
  { cbn [whileFrom]. rewrite (bind_ok _ _ _ Hbody). exact Hrun. }
  exists dom, capture, (tools ++ evs). split; [exact Hc |].
  apply newEvents_app. rewrite (bind_ok _ _ _ Hw).
  destruct exit; unfold ret; cbn [snd]; rewrite Hevs, Ht;
    unfold s0; simpl; repeat (rewrite <- app_assoc; simpl); reflexivity.
Qed.

Lemma first_payload_carries_task_witness :
  exists dom capture later,
    captureState Script.idle
      (after [EvEnsureConnection; EvUpdateBorderOverlay false;
              EvUpdateBorderOverlay false] st0)
    = (Ok dom,
       after capture
         (after [EvEnsureConnection; EvUpdateBorderOverlay false;
                 EvUpdateBorderOverlay false] st0)) /\
    newEvents st0 (snd (runTask Script.idle false "open the page" st0))
    = [EvEnsureConnection; EvUpdateBorderOverlay false;
       EvUpdateBorderOverlay false]
      ++ capture
      ++ EvSendMessageStream
           (stateParts dom ++ [textPart ("Task: " ^^ "open the page")])
         :: later.
Proof.
  apply (@first_payload_carries_task Script.idle false "open the page" st0);
    reflexivity.
Defined.

(** ** Cancellation and the visual delegate *)

Lemma bind_eq {A B} (m1 m2 : M A) (f g : A -> M B) st :
  m1 st = m2 st -> (forall a s, f a s = g a s) ->
  bind m1 f st = bind m2 g st.
Proof.
  intros Hm Hf. unfold bind. rewrite Hm.
  destruct (m2 st) as [[a | e] s]; [apply Hf | reflexivity].
Qed.

Lemma visualActions_withAbort env t calls rs h st :
  visualActions (Script.withAbort t env) calls rs h st
  = visualActions env calls rs h st.
Proof.
  revert rs h st. induction calls as [| call rest IH]; intros rs h st;
    [reflexivity |].
  cbn [visualActions]. apply bind_eq; [reflexivity |].
  intros res s. apply IH.
Qed.

Lemma visualLoop_withAbort env po t n contents h st :
  visualLoop (Script.withAbort t env) po n contents h st
  = visualLoop env po n contents h st.
Proof.
  revert contents h st. induction n as [| n IH]; intros contents h st;
    [reflexivity |].
  cbn [visualLoop]. apply bind_eq; [reflexivity |].
  intros [response |] s; [| reflexivity].
  apply bind_eq; [reflexivity |]. intros _ s1.
  destruct (functionCallsOf response) as [| c cs]; [reflexivity |].
  apply bind_eq; [apply visualActions_withAbort |].
  intros [functionResponses actionHistory1] s2.
  apply bind_eq; [reflexivity |]. intros newScreenshot s3. apply IH.
Qed.

(** X20.  The visual delegate never reads the cancellation signal: a
    delegation runs exactly as it would without cancellation, through all
    its steps, whenever the signal is aborted; only the orchestrator's
    loop stops at the signal. *)
Theorem delegation_ignores_cancellation (env : Env) (po : bool) (t : nat)
    (instruction : JsVal) (initialScreenshot : string) (st : St) :
  runVisualDelegate (Script.withAbort t env) po instruction initialScreenshot st
  = runVisualDelegate env po instruction initialScreenshot st.
Proof.
  unfold runVisualDelegate. apply bind_eq; [apply visualLoop_withAbort |].
  intros [out | hist] s; reflexivity.
Qed.
